(** * Universal SCPI GUI: parameter parsing, template substitution and the
      alias registry

    A shallow embedding of [app.py] and [universal_pyvisa.py].

    Text is modelled as [string]; every character stands for the code point
    of the same number, so the strings of this development are the Python
    strings over code points 0..255.  Python's own string methods and the
    parts of [re], [float] and [format] that the program calls are written
    out in the modules [Py], [Re] and [PyFloat]; the program itself follows
    in [app] (pure helpers), [Instrument], [upyvisa] and [routes].

    Left outside: the lock (requests are taken one at a time), the reading
    of the workbook by [pandas] (the loader takes the sheets as they are
    read, and the catalog is an argument of the routes), what [pyvisa] does
    on the bus (the devices' behaviour is part of the bus, and whatever an
    exchange raises besides a timeout stands as one failure), and the
    memory of the machine.  The limits of the interpreter on the digits
    that [int] reads (4300) and on the precision of a format (2147483647)
    are part of the model. *)

From Stdlib Require Import List String Ascii NArith ZArith Bool Arith Lia Permutation.
Import ListNotations.

Open Scope string_scope.

(* ================================================================== *)
(** ** Python string methods *)
(* ================================================================== *)

Module Py.

Definition ord (c : ascii) : N := N_of_ascii c.

Definition between (lo hi n : N) : bool := (N.leb lo n && N.leb n hi)%bool.

(** [str.isspace] on one character: TAB..CR, FS..US, SPACE, NEL, NBSP. *)
Definition is_space (c : ascii) : bool :=
  let n := ord c in
  (between 9 13 n || between 28 32 n || N.eqb n 133 || N.eqb n 160)%bool.

Definition is_digit (c : ascii) : bool := between 48 57 (ord c).

(** [s.lstrip()], [s.rstrip()], [s.strip()] *)
Fixpoint lstrip (s : string) : string :=
  match s with
  | String c r => if is_space c then lstrip r else s
  | EmptyString => EmptyString
  end.

Fixpoint rstrip (s : string) : string :=
  match s with
  | String c r =>
      match rstrip r with
      | EmptyString => if is_space c then EmptyString else String c EmptyString
      | r' => String c r'
      end
  | EmptyString => EmptyString
  end.

Definition strip (s : string) : string := rstrip (lstrip s).

(** [s.lower()]: A..Z and the upper-case letters of the Latin-1 block. *)
Definition lower_char (c : ascii) : ascii :=
  let n := ord c in
  if (between 65 90 n || (between 192 222 n && negb (N.eqb n 215)))%bool
  then ascii_of_N (n + 32) else c.

Fixpoint lower (s : string) : string :=
  match s with
  | String c r => String (lower_char c) (lower r)
  | EmptyString => EmptyString
  end.

(** [s.casefold()]: as [lower], and sharp s folds to "ss".  (The micro sign
    folds to a Greek mu, which no other character here folds to, so keeping
    it leaves every comparison of two folded strings as it is.) *)
Fixpoint casefold (s : string) : string :=
  match s with
  | String c r =>
      if N.eqb (ord c) 223 then String "s" (String "s" (casefold r))
      else String (lower_char c) (casefold r)
  | EmptyString => EmptyString
  end.

(** [c in s] for a one-character [c] *)
Fixpoint char_in (c : ascii) (s : string) : bool :=
  match s with
  | String a r => (Ascii.eqb a c || char_in c r)%bool
  | EmptyString => false
  end.

(** [s.count(c)] for a one-character [c] *)
Fixpoint count_char (c : ascii) (s : string) : nat :=
  match s with
  | String a r => (if Ascii.eqb a c then 1 else 0) + count_char c r
  | EmptyString => 0
  end.

(** [s.split(c)]: the pieces between the occurrences of [c]; never empty. *)
Fixpoint split (c : ascii) (s : string) : list string :=
  match s with
  | String a r =>
      if Ascii.eqb a c then EmptyString :: split c r
      else match split c r with
           | h :: t => String a h :: t
           | [] => [String a EmptyString]
           end
  | EmptyString => [EmptyString]
  end.

(** [s.split(c, 1)] when [c in s]: the text before the first [c] and the
    text after it; [None] when [c] does not occur (Python then returns the
    one-element list [[s]]). *)
Fixpoint split_once (c : ascii) (s : string) : option (string * string) :=
  match s with
  | String a r =>
      if Ascii.eqb a c then Some (EmptyString, r)
      else match split_once c r with
           | Some (l, r') => Some (String a l, r')
           | None => None
           end
  | EmptyString => None
  end.

(** [s.split()]: the maximal runs of non-space characters. *)
Fixpoint split_ws (s : string) : list string :=
  match s with
  | String c r =>
      if is_space c then split_ws r
      else match r with
           | String c' _ =>
               if is_space c' then String c EmptyString :: split_ws r
               else match split_ws r with
                    | w :: ws => String c w :: ws
                    | [] => [String c EmptyString]
                    end
           | EmptyString => [String c EmptyString]
           end
  | EmptyString => []
  end.

(** [sep.join(parts)] *)
Fixpoint join (sep : string) (parts : list string) : string :=
  match parts with
  | [] => EmptyString
  | [p] => p
  | p :: rest => p ++ sep ++ join sep rest
  end.

(** [s.startswith(p)] *)
Definition startswith (p s : string) : bool := String.prefix p s.

(** truth value of a string: [if s] / [not s] *)
Definition truthy (s : string) : bool := negb (String.eqb s EmptyString).

(** Outcome of a Python expression that may raise. *)
Inductive exn : Type :=
| AttributeError   (* a method called on None *)
| ReError          (* re.error *)
| IndexError       (* a replacement template names a group that is not there *)
| ValueError       (* a number beyond a limit of the interpreter *)
| VisaIOError.     (* a transport error other than a timeout *)

Inductive result (A : Type) : Type :=
| Ok (a : A)
| Raise (e : exn).
Arguments Ok {A} a.
Arguments Raise {A} e.

Definition bind {A B} (r : result A) (k : A -> result B) : result B :=
  match r with
  | Ok a => k a
  | Raise e => Raise e
  end.

(** The most digits [int] reads from a string
    ([sys.get_int_max_str_digits()], by default). *)
Definition max_str_digits : nat := 4300.

(** [s.upper()]: a..z and the lower-case letters of the Latin-1 block;
    sharp s becomes "SS".  (The micro sign and y with diaeresis become
    letters beyond code point 255 that no other character here becomes;
    they are kept, which leaves every comparison of two upper-cased strings
    as it is.) *)
Definition upper_char (c : ascii) : ascii :=
  let n := ord c in
  if (between 97 122 n || (between 224 254 n && negb (N.eqb n 247)))%bool
  then ascii_of_N (n - 32) else c.

Fixpoint upper (s : string) : string :=
  match s with
  | String c r =>
      if N.eqb (ord c) 223 then String "S" (String "S" (upper r))
      else String (upper_char c) (upper r)
  | EmptyString => EmptyString
  end.

End Py.

Import Py.

(* ================================================================== *)
(** ** The regular expressions of [app.py] *)
(* ================================================================== *)

(** [app.py] uses two families of patterns: the placeholder pattern
    [\{([^}]+)\}] and, for a parameter name [n], the literal pattern
    [\{ + re.escape(n) + \}].  Neither has a capturing group that a
    replacement could refer to besides the whole match. *)

Module Re.

(** A subject string cut by the placeholder pattern: the characters outside
    the matches and, for each match, the text of its group 1. *)
Inductive token : Type :=
| TChar (c : ascii)
| TPlaceholder (inner : string).

Fixpoint chars (s : string) : list token :=
  match s with
  | String c r => TChar c :: chars r
  | EmptyString => []
  end.

(** Leftmost, non-overlapping matches of [\{([^}]+)\}], as [re.finditer]
    and [re.sub] find them.  [open = Some acc] after an opening brace whose
    match is still undecided, [acc] being the characters read since; the
    class [[^}]] takes every character but the closing brace, an opening
    brace included, and needs one character at least, so "{}" is no match. *)
Fixpoint scan (open : option string) (s : string) : list token :=
  match s, open with
  | EmptyString, None => []
  | EmptyString, Some acc => chars (String "{" acc)
  | String c r, None =>
      if Ascii.eqb c "{" then scan (Some EmptyString) r
      else TChar c :: scan None r
  | String c r, Some acc =>
      if Ascii.eqb c "}" then
        match acc with
        | EmptyString => TChar "{" :: TChar "}" :: scan None r
        | _ => TPlaceholder acc :: scan None r
        end
      else scan (Some (acc ++ String c EmptyString)) r
  end.

Definition placeholders (s : string) : list token := scan None s.

Definition is_placeholder (t : token) : bool :=
  match t with TPlaceholder _ => true | TChar _ => false end.

(** [re.search(r"\{[^}]+\}", s)] as a truth value *)
Definition search_placeholder (s : string) : bool :=
  existsb is_placeholder (placeholders s).

(** [m.group(1) for m in re.finditer(r"\{([^}]+)\}", s)] *)
Fixpoint groups (ts : list token) : list string :=
  match ts with
  | TPlaceholder inner :: r => inner :: groups r
  | TChar _ :: r => groups r
  | [] => []
  end.

Definition finditer_group1 (s : string) : list string := groups (placeholders s).

(** *** Replacement templates

    [re.sub] reads a replacement string as a template, also when the
    pattern matches nowhere: a backslash starts an escape
    ([re._parser.parse_template], as in CPython 3.12 and later; earlier
    releases also took a sign, blanks or underscores in the number of
    [\g<number>]).  For a pattern without groups the only group a template
    may name is group 0, the whole match; a reference by a name that is an
    identifier raises [IndexError], a number of more than 4300 digits
    raises [ValueError] (from [int]; releases before 3.12 turn it into
    [re.error]), and any other reference raises [re.error]. *)
Inductive piece : Type :=
| PChar (c : ascii)   (* a literal character *)
| PMatch.             (* \g<0>: the text of the match *)

Definition is_octdigit (c : ascii) : bool := between 48 55 (ord c).
Definition is_ascii_letter (c : ascii) : bool :=
  (between 65 90 (ord c) || between 97 122 (ord c))%bool.
Definition digit_val (c : ascii) : N := ord c - 48.

Fixpoint all_zero_digits (s : string) : bool :=
  match s with
  | String c r => (Ascii.eqb c "0" && all_zero_digits r)%bool
  | EmptyString => true
  end.

(** [s.isdecimal() and s.isascii()] for a string that is not empty *)
Fixpoint all_decimal (s : string) : bool :=
  match s with
  | String c r => (is_digit c && all_decimal r)%bool
  | EmptyString => true
  end.

(** [s.isidentifier()]: a letter or the underscore, then letters, digits,
    underscores and the middle dot. *)
Definition is_id_start (c : ascii) : bool :=
  let n := ord c in
  (between 65 90 n || N.eqb n 95 || between 97 122 n
   || N.eqb n 170 || N.eqb n 181 || N.eqb n 186
   || between 192 214 n || between 216 246 n || between 248 255 n)%bool.

Definition is_id_continue (c : ascii) : bool :=
  (is_id_start c || is_digit c || N.eqb (ord c) 183)%bool.

Fixpoint all_id_continue (s : string) : bool :=
  match s with
  | String c r => (is_id_continue c && all_id_continue r)%bool
  | EmptyString => true
  end.

Definition isidentifier (s : string) : bool :=
  match s with
  | String c r => (is_id_start c && all_id_continue r)%bool
  | EmptyString => false
  end.

(** The group that [\g<name>] names, for a pattern without groups: the
    pieces for group 0, or what [parse_template] raises. *)
Definition group_reference (name : string) : result (list piece) :=
  if negb (truthy name) then Raise ReError               (* missing group name *)
  else if all_decimal name then
    if Nat.ltb max_str_digits (String.length name) then Raise ValueError  (* int(name) *)
    else if all_zero_digits name then Ok [PMatch]
    else Raise ReError                                   (* invalid group reference *)
  else if isidentifier name then Raise IndexError        (* unknown group name *)
  else Raise ReError.                                    (* bad character in group name *)

(** The escape that starts with backslash and [c]; [rest] follows [c].
    Returns the pieces of the escape and the number of further characters
    of [rest] it takes, or what [parse_template] raises. *)
Definition escape (c : ascii) (rest : string) : result (list piece * nat) :=
  if Ascii.eqb c "g" then
    match rest with
    | String "<" r =>
        match split_once ">" r with
        | Some (name, _) =>
            bind (group_reference name) (fun ps => Ok (ps, String.length name + 2))
        | None => Raise ReError
        end
    | _ => Raise ReError
    end
  else if Ascii.eqb c "0" then
    match rest with
    | String d1 (String d2 _) =>
        if (is_octdigit d1 && is_octdigit d2)%bool
        then Ok ([PChar (ascii_of_N (digit_val d1 * 8 + digit_val d2))], 2)
        else if is_octdigit d1 then Ok ([PChar (ascii_of_N (digit_val d1))], 1)
        else Ok ([PChar zero], 0)
    | String d1 EmptyString =>
        if is_octdigit d1 then Ok ([PChar (ascii_of_N (digit_val d1))], 1)
        else Ok ([PChar zero], 0)
    | EmptyString => Ok ([PChar zero], 0)
    end
  else if is_digit c then
    match rest with
    | String d2 (String d3 _) =>
        if (is_octdigit c && is_octdigit d2 && is_octdigit d3)%bool then
          let v := (digit_val c * 64 + digit_val d2 * 8 + digit_val d3)%N in
          if N.leb v 255 then Ok ([PChar (ascii_of_N v)], 2) else Raise ReError
        else Raise ReError
    | _ => Raise ReError
    end
  else if Ascii.eqb c "a" then Ok ([PChar (ascii_of_N 7)], 0)
  else if Ascii.eqb c "b" then Ok ([PChar (ascii_of_N 8)], 0)
  else if Ascii.eqb c "f" then Ok ([PChar (ascii_of_N 12)], 0)
  else if Ascii.eqb c "n" then Ok ([PChar (ascii_of_N 10)], 0)
  else if Ascii.eqb c "r" then Ok ([PChar (ascii_of_N 13)], 0)
  else if Ascii.eqb c "t" then Ok ([PChar (ascii_of_N 9)], 0)
  else if Ascii.eqb c "v" then Ok ([PChar (ascii_of_N 11)], 0)
  else if Ascii.eqb c "\" then Ok ([PChar "\"], 0)
  else if is_ascii_letter c then Raise ReError
  else Ok ([PChar "\"; PChar c], 0).

(** [parse_template repl]: [skip] counts characters already taken by an
    escape; [esc] tells that the previous character was the backslash of
    an escape still to be read. *)
Fixpoint parse_template_from (skip : nat) (esc : bool) (repl : string)
  : result (list piece) :=
  match repl with
  | EmptyString => if esc then Raise ReError else Ok []
  | String c r =>
      match skip with
      | S k => parse_template_from k false r
      | O =>
          if esc then
            match escape c r with
            | Ok (ps, n) =>
                bind (parse_template_from n false r) (fun t => Ok (ps ++ t)%list)
            | Raise e => Raise e
            end
          else if Ascii.eqb c "\" then parse_template_from 0 true r
          else bind (parse_template_from 0 false r) (fun t => Ok (PChar c :: t))
      end
  end.

Definition parse_template (repl : string) : result (list piece) :=
  parse_template_from 0 false repl.

(** [m.expand(template)] for a match whose text is [matched] *)
Fixpoint expand (t : list piece) (matched : string) : string :=
  match t with
  | PChar c :: r => String c (expand r matched)
  | PMatch :: r => matched ++ expand r matched
  | [] => EmptyString
  end.

Fixpoint sub_tokens (t : list piece) (ts : list token) : string :=
  match ts with
  | TChar c :: r => String c (sub_tokens t r)
  | TPlaceholder inner :: r =>
      expand t (String "{" (inner ++ "}")) ++ sub_tokens t r
  | [] => EmptyString
  end.

(** [re.sub(r"\{[^}]+\}", repl, s)] *)
Definition sub_placeholders (repl s : string) : result string :=
  bind (parse_template repl) (fun t => Ok (sub_tokens t (placeholders s))).

(** Leftmost, non-overlapping occurrences of the non-empty literal [lit]
    replaced by the expansion of [t]; [skip] counts the characters of an
    occurrence still to be passed over. *)
Fixpoint sub_literal_from (lit : string) (t : list piece) (skip : nat) (s : string)
  : string :=
  match s with
  | EmptyString => EmptyString
  | String c r =>
      match skip with
      | S k => sub_literal_from lit t k r
      | O =>
          if String.prefix lit s
          then expand t lit ++ sub_literal_from lit t (String.length lit - 1) r
          else String c (sub_literal_from lit t 0 r)
      end
  end.

(** [re.sub(r"\{" + re.escape(name) + r"\}", repl, s)] *)
Definition sub_named (name repl s : string) : result string :=
  bind (parse_template repl)
       (fun t => Ok (sub_literal_from (String "{" (name ++ "}")) t 0 s)).

End Re.

(* ================================================================== *)
(** ** [float(s)] and fixed-point formatting *)
(* ================================================================== *)

(** Python floats are IEEE 754 binary64 numbers.  Both conversions that
    [_apply_format_spec] uses are correctly rounded, so they are functions
    of the exact values and are written here with integer arithmetic. *)

Module PyFloat.

Open Scope Z_scope.

(** A float: not-a-number, an infinity, or the finite number
    [(-1)^neg * m * 2^e]. *)
Inductive pyfloat : Type :=
| Nan
| Inf (neg : bool)
| Fin (neg : bool) (m : Z) (e : Z).

Definition is_finite (f : pyfloat) : bool :=
  match f with Fin _ _ _ => true | _ => false end.

(** Nearest integer to [n / d], ties to the even one ([0 <= n], [0 < d]). *)
Definition div_half_even (n d : Z) : Z :=
  let q := n / d in
  let r := n mod d in
  if (d <? 2 * r) || ((d =? 2 * r) && Z.odd q) then q + 1 else q.

(** [n / d] scaled by [2^(-e)], as a fraction *)
Definition scale2 (n d e : Z) : Z * Z :=
  if 0 <=? e then (n, d * 2 ^ e) else (n * 2 ^ (- e), d).

(** The binary64 number nearest to [n / d] ([0 <= n], [0 < d]), ties to
    even: 53 significant bits, exponents from -1074, overflow to an
    infinity. *)
Definition round_binary64 (neg : bool) (n d : Z) : pyfloat :=
  if n =? 0 then Fin neg 0 0
  else
    let b0 := Z.log2 n - Z.log2 d in
    let '(n0, d0) := scale2 n d b0 in
    let b := if d0 <=? n0 then b0 else b0 - 1 in       (* 2^b <= n/d < 2^(b+1) *)
    let e := Z.max (b - 52) (-1074) in
    let '(n1, d1) := scale2 n d e in
    let m := div_half_even n1 d1 in
    if (971 <? e) || ((e =? 971) && (2 ^ 53 <=? m)) then Inf neg
    else Fin neg m e.

(** *** Reading a float: [float(s)] *)

(** White space that [float] drops at both ends. *)
Definition is_float_space (c : ascii) : bool :=
  let n := ord c in
  (between 9 13 n || N.eqb n 32 || N.eqb n 133 || N.eqb n 160)%bool.

Fixpoint lstrip_f (s : string) : string :=
  match s with
  | String c r => if is_float_space c then lstrip_f r else s
  | EmptyString => EmptyString
  end.

Fixpoint rstrip_f (s : string) : string :=
  match s with
  | String c r =>
      match rstrip_f r with
      | EmptyString => if is_float_space c then EmptyString else String c EmptyString
      | r' => String c r'
      end
  | EmptyString => EmptyString
  end.

(** Underscores may stand between two digits only; [prev] is the previous
    character.  Returns the text without its underscores. *)
Fixpoint drop_underscores (prev : ascii) (s : string) : option string :=
  match s with
  | EmptyString => if Ascii.eqb prev "_" then None else Some EmptyString
  | String c r =>
      if Ascii.eqb c "_" then
        if is_digit prev then drop_underscores c r else None
      else if (Ascii.eqb prev "_" && negb (is_digit c))%bool then None
      else match drop_underscores c r with
           | Some r' => Some (String c r')
           | None => None
           end
  end.

(** A maximal run of decimal digits at the head of [s], read after the
    digits of value [acc]: the value, the number of digits, the rest. *)
Fixpoint take_digits (acc : Z) (s : string) : Z * nat * string :=
  match s with
  | String c r =>
      if is_digit c then
        let '(v, k, rest) := take_digits (10 * acc + Z.of_N (ord c - 48)) r in
        (v, S k, rest)
      else (acc, O, s)
  | EmptyString => (acc, O, s)
  end.

Definition take_sign (s : string) : bool * string :=
  match s with
  | String "-" r => (true, r)
  | String "+" r => (false, r)
  | _ => (false, s)
  end.

(** The exponent part: [Some 0] when [s] is empty, [Some x] for
    [e] or [E], an optional sign and digits up to the end of [s]. *)
Definition read_exponent (s : string) : option Z :=
  match s with
  | EmptyString => Some 0
  | String c r =>
      if (Ascii.eqb c "e" || Ascii.eqb c "E")%bool then
        let '(neg, r1) := take_sign r in
        match take_digits 0 r1 with
        | (x, S _, EmptyString) => Some (if neg then - x else x)
        | _ => None
        end
      else None
  end.

(** A decimal number [digits [. digits] [exponent]] or [. digits [exponent]]:
    the integer [d] and the power of ten [x] with value [d * 10^x]. *)
Definition read_number (s : string) : option (Z * Z) :=
  let '(i, ki, r1) := take_digits 0 s in
  let '(d, kf, r2) :=
    match r1 with
    | String "." r => take_digits i r
    | _ => (i, O, r1)
    end in
  match (ki + kf)%nat with
  | O => None
  | S _ =>
      match read_exponent r2 with
      | Some x => Some (d, x - Z.of_nat kf)
      | None => None
      end
  end.

Definition of_decimal (neg : bool) (d x : Z) : pyfloat :=
  if 0 <=? x then round_binary64 neg (d * 10 ^ x) 1
  else round_binary64 neg d (10 ^ (- x)).

(** [float(s)]: [None] where Python raises [ValueError]. *)
Definition float (s : string) : option pyfloat :=
  match drop_underscores zero (rstrip_f (lstrip_f s)) with
  | None => None
  | Some t =>
      let '(neg, body) := take_sign t in
      let l := lower body in
      if (String.eqb l "inf" || String.eqb l "infinity")%bool then Some (Inf neg)
      else if String.eqb l "nan" then Some Nan
      else match read_number body with
           | Some (d, x) => Some (of_decimal neg d x)
           | None => None
           end
  end.

(** *** Writing a float: [f"{x:.{k}f}"] *)

Definition digit_char (n : Z) : ascii := ascii_of_N (Z.to_N (n mod 10) + 48).

(** The last [k] decimal digits of [n], with leading zeros. *)
Fixpoint digits_fixed (k : nat) (n : Z) : string :=
  match k with
  | O => EmptyString
  | S k' => digits_fixed k' (n / 10) ++ String (digit_char n) EmptyString
  end.

(** The decimal digits of [n] without leading zeros; "0" for zero. *)
Fixpoint digits_fuel (fuel : nat) (n : Z) : string :=
  match fuel with
  | O => String (digit_char n) EmptyString
  | S f =>
      if n <? 10 then String (digit_char n) EmptyString
      else digits_fuel f (n / 10) ++ String (digit_char n) EmptyString
  end.

Definition digits (n : Z) : string := digits_fuel (Z.to_nat (Z.log2 n)) n.

(** [m * 2^e] times [10^k], rounded to an integer, ties to even *)
Definition scaled_round (m e : Z) (k : nat) : Z :=
  let '(n, d) := scale2 (m * 10 ^ Z.of_nat k) 1 (- e) in
  div_half_even n d.

Definition format_fixed (x : pyfloat) (k : nat) : string :=
  match x with
  | Nan => "nan"
  | Inf neg => if neg then "-inf" else "inf"
  | Fin neg m e =>
      let r := scaled_round m e k in
      let p := 10 ^ Z.of_nat k in
      let body :=
        match k with
        | O => digits r
        | S _ => digits (r / p) ++ "." ++ digits_fixed k (r mod p)
        end in
      if neg then String "-" body else body
  end.

(** The greatest precision a format takes ([INT_MAX]). *)
Definition max_precision : Z := 2147483647.

(** [f"{x:.{k}f}"] for an integer [k], not negative: a precision beyond
    [INT_MAX] raises [ValueError], for every float. *)
Definition format_f (x : pyfloat) (k : Z) : result string :=
  if max_precision <? k then Raise ValueError
  else Ok (format_fixed x (Z.to_nat k)).

End PyFloat.

(* ================================================================== *)
(** ** [app.py]: command descriptors and parameter definitions *)
(* ================================================================== *)

Inductive Mode : Type := GET | SET.

Module ScpiCommand.

Record t : Type := mk {
  name : string;
  cmd : string;
  mode : Mode;
  parameters_raw : string
}.

End ScpiCommand.

(** The two values of [ParamDef.kind], "free" and "options". *)
Inductive Kind : Type := FREE | OPTIONS.

Module ParamDef.

Record t : Type := mk {
  name : string;
  kind : Kind;
  options : list string;
  format_spec : string
}.

End ParamDef.

Module app.

(** [_first_placeholder_names] *)
Definition _first_placeholder_names (cmd_template : string) : list string :=
  map strip (Re.finditer_group1 cmd_template).

(** The body of the loop of [parse_param_defs]: [out] after one [part]. *)
Definition parse_part (out : list ParamDef.t) (part : string) : list ParamDef.t :=
  if negb (truthy part) then out                                   (* continue *)
  else
    match split_once ":" part with
    | Some (left0, right0) =>                                      (* ":" in part *)
        let left_ := strip left0 in
        let right_ := strip right0 in
        if char_in ";" right_ then
          let os := filter truthy (map strip (split ";" right_)) in
          (out ++ [ParamDef.mk left_ OPTIONS os EmptyString])%list
        else
          (out ++ [ParamDef.mk left_ FREE [] right_])%list
    | None =>
        (out ++ [ParamDef.mk part FREE [] EmptyString])%list
    end.

(** [parse_param_defs]; a [parameters_raw] or [cmd_template] of [None] is
    read by the source as the empty string. *)
Definition parse_param_defs (parameters_raw cmd_template : string) : list ParamDef.t :=
  let s := strip parameters_raw in
  if (String.eqb s "" || String.eqb (lower s) "nan" || String.eqb (lower s) "none")%bool
  then
    let ph := _first_placeholder_names cmd_template in
    map (fun p => ParamDef.mk p FREE [] EmptyString) ph
  else
    let parts := map strip (split "|" s) in
    fold_left parse_part parts [].

(** [re.fullmatch(r"V\.(\d+)f", s, flags=re.IGNORECASE)]: the number that
    the digits of group 1 write and how many digits they are, [None] when
    there is no match. *)
Definition match_decimals (s : string) : option (Z * nat) :=
  match s with
  | String v (String "." r) =>
      if (Ascii.eqb v "V" || Ascii.eqb v "v")%bool then
        match PyFloat.take_digits 0 r with
        | (n, S k, String f EmptyString) =>
            if (Ascii.eqb f "f" || Ascii.eqb f "F")%bool then Some (n, S k) else None
        | _ => None
        end
      else None
  | _ => None
  end.

(** [int(m.group(1))] for a group of [digits] decimal digits that write
    [n]: beyond [sys.get_int_max_str_digits()] digits, leading zeros
    counted, [int] raises [ValueError]. *)
Definition int_group1 (n : Z) (digits : nat) : result Z :=
  if Nat.ltb max_str_digits digits then Raise ValueError else Ok n.

(** [_apply_format_spec]: [int] (line 144) and the formatting (line 149)
    stand outside the [try], which covers [float] alone. *)
Definition _apply_format_spec (value fmt : string) : result string :=
  if negb (truthy fmt) then Ok value
  else
    match match_decimals (strip fmt) with
    | None => Ok value
    | Some (n, digits) =>
        bind (int_group1 n digits) (fun decimals =>
        match PyFloat.float value with
        | None => Ok value
        | Some f => PyFloat.format_f f decimals
        end)
    end.

(** [_first_placeholder_name]: group 1 of the first match, trimmed; "" when
    there is none. *)
Definition _first_placeholder_name (cmd_template : string) : string :=
  match Re.finditer_group1 cmd_template with
  | g :: _ => strip g
  | [] => EmptyString
  end.

(** The first component of what [_parse_parameter] returns: "none", "free"
    or "options". *)
Inductive ParamType : Type := T_NONE | T_FREE | T_OPTIONS.

(** [_parse_parameter]: (param_type, options, param_name, format_spec) *)
Definition _parse_parameter (parameters_raw cmd_template : string)
  : ParamType * list string * string * string :=
  let s := strip parameters_raw in
  if (String.eqb s "" || String.eqb (lower s) "nan" || String.eqb (lower s) "none")%bool
  then
    let ph := _first_placeholder_name cmd_template in
    if truthy ph then (T_FREE, [], ph, EmptyString)
    else (T_NONE, [], EmptyString, EmptyString)
  else
    match split_once ":" s with
    | Some (left0, right0) =>                                      (* ":" in s *)
        let left_ := strip left0 in
        let right_ := strip right0 in
        if char_in ";" right_ then
          let os := filter truthy (map strip (split ";" right_)) in
          (T_OPTIONS, os, left_, EmptyString)
        else (T_FREE, [], left_, right_)
    | None => (T_FREE, [], s, EmptyString)
    end.

(** *** Loading the catalog

    A sheet as [pandas] hands it over: the column labels and, for each
    row, the cell under a label.  A cell is empty ([pd.isna]) or holds
    text; cells of another type are not modelled. *)
Inductive cell : Type :=
| NaN
| Text (s : string).

Record DataFrame : Type := mkDataFrame {
  columns : list string;
  rows : list (string -> cell)
}.

(** [cols[key]] for [cols = {str(c).strip().casefold(): c for c in
    df.columns}]: of the columns with that key the last one. *)
Definition cols_get (df : DataFrame) (key : string) : option string :=
  find (fun c => String.eqb (casefold (strip c)) key) (rev (columns df)).

(** [_find_col] *)
Fixpoint _find_col (df : DataFrame) (wanted : list string) : option string :=
  match wanted with
  | [] => None
  | w :: rest =>
      match cols_get df (casefold w) with
      | Some c => Some c
      | None => _find_col df rest
      end
  end.

(** [not col] for what [_find_col] returned *)
Definition no_col (col : option string) : bool :=
  match col with
  | Some c => negb (truthy c)
  | None => true
  end.

(** ["" if pd.isna(x) else str(x).strip()] *)
Definition cell_text (x : cell) : string :=
  match x with
  | NaN => EmptyString
  | Text s => strip s
  end.

(** The body of the loop over the rows (lines 168-179): the command the
    row gives, or [None] where the loop continues. *)
Definition load_row (name_col cmd_col mode_col : string) (param_col : option string)
  (row : string -> cell) : option ScpiCommand.t :=
  let n := cell_text (row name_col) in
  let c := cell_text (row cmd_col) in
  let m := match row mode_col with
           | NaN => EmptyString
           | Text s => upper (strip s)
           end in
  let p := match param_col with
           | Some pc => if truthy pc then cell_text (row pc) else EmptyString
           | None => EmptyString
           end in
  if (negb (truthy n) || negb (truthy c))%bool then None
  else if String.eqb m "GET" then Some (ScpiCommand.mk n c GET p)
  else if String.eqb m "SET" then Some (ScpiCommand.mk n c SET p)
  else None.

Fixpoint load_rows (name_col cmd_col mode_col : string) (param_col : option string)
  (rs : list (string -> cell)) (out : list ScpiCommand.t) : list ScpiCommand.t :=
  match rs with
  | [] => out
  | row :: rest =>
      match load_row name_col cmd_col mode_col param_col row with
      | Some c => load_rows name_col cmd_col mode_col param_col rest (out ++ [c])%list
      | None => load_rows name_col cmd_col mode_col param_col rest out
      end
  end.

(** [defs[sheet] = out] *)
Fixpoint defs_set (defs : list (string * list ScpiCommand.t)) (sheet : string)
  (out : list ScpiCommand.t) : list (string * list ScpiCommand.t) :=
  match defs with
  | [] => [(sheet, out)]
  | (k, v) :: rest =>
      if String.eqb k sheet then (k, out) :: rest
      else (k, v) :: defs_set rest sheet out
  end.

(** The body of the loop over the sheets (lines 156-180). *)
Definition load_sheet (defs : list (string * list ScpiCommand.t))
  (sheet : string * DataFrame) : list (string * list ScpiCommand.t) :=
  let '(sheet, df) := sheet in
  let name_col := _find_col df ["Name"] in
  let cmd_col := _find_col df ["CMD"] in
  let mode_col := _find_col df ["GET/SET"] in
  let param_col := _find_col df ["Parameter"; "Parameters"] in
  match name_col, cmd_col, mode_col with
  | Some nc, Some cc, Some mc =>
      if (no_col name_col || no_col cmd_col || no_col mode_col)%bool then defs
      else defs_set defs sheet (load_rows nc cc mc param_col (rows df) [])
  | _, _, _ => defs
  end.

(** [load_scpi_definitions], for the sheets of the workbook in order *)
Definition load_scpi_definitions (sheets : list (string * DataFrame))
  : list (string * list ScpiCommand.t) :=
  fold_left load_sheet sheets [].

End app.

(* ================================================================== *)
(** ** [universal_pyvisa.py]: instruments and the registry *)
(* ================================================================== *)

Inductive DeviceKind : Type := VISA | SERIAL_115200_LF.

(** *** The bus

    What [pyvisa] does is outside the program.  A [bus] records the
    exchanges the program starts, oldest first, and holds the devices'
    behaviour: the outcome of an exchange, given the ones before it. *)
Inductive io_kind : Type := IoQuery | IoWrite.

Record io_call : Type := mkCall {
  io_what : io_kind;
  io_addr : string;
  io_conf : DeviceKind;
  io_cmd : string
}.

Inductive io_outcome : Type :=
| Answer (response : string)    (* the exchange completes *)
| Timeout                       (* VisaIOError with error_timeout *)
| Failure.                      (* any other error *)

Record bus : Type := mkBus {
  history : list io_call;
  device : list io_call -> io_call -> io_outcome
}.

(** Computations that use the bus and may raise. *)
Definition io (A : Type) : Type := bus -> result A * bus.

Definition ret {A} (a : A) : io A := fun b => (Ok a, b).

Definition raise {A} (e : exn) : io A := fun b => (Raise e, b).

Definition iobind {A B} (m : io A) (k : A -> io B) : io B :=
  fun b => match m b with
           | (Ok a, b') => k a b'
           | (Raise e, b') => (Raise e, b')
           end.

Notation "x <- m ;; k" := (iobind m (fun x => k))
  (at level 61, m at next level, right associativity).

(** One exchange: it is recorded, and the devices decide its outcome. *)
Definition exchange (c : io_call) : io io_outcome :=
  fun b => (Ok (device b (history b) c),
            mkBus (history b ++ [c])%list (device b)).

Module Instrument.

Record t : Type := mk {
  visa_name : string;
  dev_kind : DeviceKind;
  vendor : option string;
  model : option string;
  serial : option string;
  alias : option string
}.

(** [__init__]: a new instrument has no alias. *)
Definition init (visa_name : string) (dev_kind : DeviceKind)
  (vendor model serial : option string) : t :=
  mk visa_name dev_kind vendor model serial None.

(** [query]: a read timeout is an empty response.  Whatever else the
    opening of the resource, the write or the read raise is passed on; the
    model has one exception for all of it. *)
Definition query (self : t) (command : string) : io string :=
  o <- exchange (mkCall IoQuery (visa_name self) (dev_kind self) command) ;;
  match o with
  | Answer response => ret response
  | Timeout => ret EmptyString
  | Failure => raise VisaIOError
  end.

(** [write]: a timeout is not an error.  Whatever else the opening of the
    resource or the write raise is passed on; the model has one exception
    for all of it. *)
Definition write (self : t) (command : string) : io unit :=
  o <- exchange (mkCall IoWrite (visa_name self) (dev_kind self) command) ;;
  match o with
  | Answer _ => ret tt
  | Timeout => ret tt
  | Failure => raise VisaIOError
  end.

End Instrument.

Module upyvisa.

(** The one attribute of the class: [instrument_collection]. *)
Definition collection : Type := list Instrument.t.

(** What a scan meets at one resource: the response to [*IDN?], or an
    error (a timeout included), which the scan reports and passes over. *)
Inductive idn : Type :=
| Idn (response : string)
| IdnError.

(** The parts of an identity response (lines 134-137). *)
Definition idn_parts (response : string) : list string :=
  if Nat.leb 3 (count_char "," response)
  then filter truthy (map strip (split "," response))
  else split_ws response.

(** The body of the scan loop for one resource: the collection after it. *)
Definition scan_resource (acc : collection) (res : string * idn) : collection :=
  let '(r, outcome) := res in
  let dev_kind := if startswith "ASRL" r then SERIAL_115200_LF else VISA in
  match outcome with
  | Idn response =>
      if Nat.ltb 8 (String.length response) then
        let parts := idn_parts response in
        let vendor := nth_error parts 0 in
        let model := nth_error parts 1 in
        let serial :=
          if Nat.ltb 2 (List.length parts) then Some (join " " (skipn 2 parts))
          else None in
        (acc ++ [Instrument.init r dev_kind vendor model serial])%list
      else acc
  | IdnError => acc
  end.

(** [find_instruments]: the collection is emptied, then filled from the
    resources the resource manager lists. *)
Definition find_instruments (self : collection) (resources : list (string * idn))
  : collection :=
  let self := @nil Instrument.t in
  fold_left scan_resource resources self.

(** [a.strip().casefold() == b.strip().casefold()] *)
Definition same_text (a b : string) : bool :=
  String.eqb (casefold (strip a)) (casefold (strip b)).

(** [x.strip()...] for an attribute [x] that may be [None] *)
Definition same_field (x : option string) (b : string) : result bool :=
  match x with
  | Some a => Ok (same_text a b)
  | None => Raise AttributeError
  end.

(** The condition of [set_alias]; [and] evaluates its right operand only
    when the left one is true. *)
Definition identity_matches (instrument : Instrument.t) (vendor model serial : string)
  : result bool :=
  bind (same_field (Instrument.vendor instrument) vendor) (fun v =>
  if v then
    bind (same_field (Instrument.model instrument) model) (fun m =>
    if m then same_field (Instrument.serial instrument) serial
    else Ok false)
  else Ok false).

Definition with_alias (instrument : Instrument.t) (alias : string) : Instrument.t :=
  Instrument.mk (Instrument.visa_name instrument) (Instrument.dev_kind instrument)
                (Instrument.vendor instrument) (Instrument.model instrument)
                (Instrument.serial instrument) (Some alias).

(** [set_alias]: the value returned (1 or -1) or the exception raised, and
    the collection afterwards. *)
Fixpoint set_alias (self : collection) (alias vendor model serial : string)
  : result Z * collection :=
  match self with
  | [] => (Ok (-1)%Z, [])
  | instrument :: rest =>
      match identity_matches instrument vendor model serial with
      | Raise e => (Raise e, self)
      | Ok true => (Ok 1%Z, with_alias instrument alias :: rest)
      | Ok false =>
          let '(r, rest') := set_alias rest alias vendor model serial in
          (r, instrument :: rest')
      end
  end.

(** The test both [query] and [write] make on an instrument. *)
Definition answers_to (alias : string) (instrument : Instrument.t) : bool :=
  match Instrument.alias instrument with
  | Some a => same_text a alias
  | None => false
  end.

(** The loop of [query], from the value of [query_return] so far. *)
Fixpoint query_from (self : collection) (alias cmd : string) (query_return : string)
  : io string :=
  match self with
  | [] => ret query_return
  | instrument :: rest =>
      if answers_to alias instrument then
        r <- Instrument.query instrument cmd ;;
        query_from rest alias cmd (r ++ query_return)
      else query_from rest alias cmd query_return
  end.

(** [query] *)
Definition query (self : collection) (alias cmd : string) : io string :=
  query_from self alias cmd EmptyString.

(** [write] *)
Fixpoint write (self : collection) (alias cmd : string) : io unit :=
  match self with
  | [] => ret tt                                   (* "Alias not found" *)
  | instrument :: rest =>
      if answers_to alias instrument then Instrument.write instrument cmd
      else write rest alias cmd
  end.

End upyvisa.

(* ================================================================== *)
(** ** [app.py]: the routes *)
(* ================================================================== *)

(** The process holds one manager, [_mgr]; every route reaches it under
    [_lock].  Requests are taken here one at a time, on a manager that
    exists already, so the state of the server is the manager's collection
    and the bus. *)
Record server : Type := mkServer {
  mgr : upyvisa.collection;
  wire : bus
}.

(** [SCPI_DEFS]: for each model (sheet) name its commands. *)
Definition catalog : Type := list (string * list ScpiCommand.t).

(** A JSON object whose members are strings, in insertion order; a key
    occurs once.  ([str(v)] is [v] for a string; members of another JSON
    type are not modelled.) *)
Definition dict : Type := list (string * string).

(** The member "values" of a request body. *)
Inductive json_values : Type :=
| NoValues                (* absent or null *)
| Values (d : dict)       (* an object *)
| NotAnObject.            (* any other JSON value *)

(** The body of a request to /api/run; a member that is absent or null is
    the empty string here, as [(data.get(k) or "")] makes it. *)
Record run_request : Type := mkRun {
  run_alias : string;
  run_name : string;
  run_values : json_values;
  run_value : string
}.

Record custom_request : Type := mkCustom {
  custom_alias : string;
  custom_cmd : string
}.

Inductive error : Type :=
| MissingAliasName                                    (* "Missing alias/name" *)
| MissingAliasCmd                                     (* "Missing alias/cmd" *)
| AliasNotFound                                       (* "Alias not found" *)
| CommandNotFound (cmd_name : string) (model : option string)
| ValuesNotDict                                       (* "values must be an object/dict" *)
| MissingValue (param : string)                       (* "Missing value for ..." *)
| Exception (e : exn).                                (* "{type(e).__name__}: {e}" *)

(** What a route answers: [jsonify(...)] and the status. *)
Inductive response : Type :=
| Refused (status : nat) (err : error)                (* "ok": False *)
| Ran (mode : Mode) (cmd : string) (resp : string)    (* /api/run, "ok": True *)
| RanCustom (cmd : string) (resp : string).           (* /api/custom, "ok": True *)

Module routes.

(** [SCPI_DEFS.get(model, [])] *)
Fixpoint defs_get (defs : catalog) (model : option string) : list ScpiCommand.t :=
  match defs, model with
  | (k, cmds) :: rest, Some m => if String.eqb k m then cmds else defs_get rest model
  | _, _ => []
  end.

(** [values.get(k)] / [k in values] *)
Fixpoint dict_get (values : dict) (k : string) : option string :=
  match values with
  | (k', v) :: rest => if String.eqb k' k then Some v else dict_get rest k
  | [] => None
  end.

(** [next((i for i in mgr.instrument_collection
           if (i.alias or "").casefold() == alias.casefold()), None)] *)
Definition find_alias (instruments : upyvisa.collection) (alias : string)
  : option Instrument.t :=
  find (fun i =>
          String.eqb (casefold (match Instrument.alias i with
                                | Some a => a
                                | None => EmptyString
                                end))
                     (casefold alias))
       instruments.

(** [next((x for x in cmds if x.name.casefold() == cmd_name.casefold()), None)] *)
Definition find_command (cmds : list ScpiCommand.t) (cmd_name : string)
  : option ScpiCommand.t :=
  find (fun x => String.eqb (casefold (ScpiCommand.name x)) (casefold cmd_name)) cmds.

(** How the loop over [param_defs] ends when nothing is raised: on the
    [return] of a missing value, or after the last parameter. *)
Inductive substituted : Type :=
| Missing (param : string)
| Command (cmd_to_send : string).

(** The loop over [param_defs] (lines 347-353 and 368-376). *)
Fixpoint substitute (param_defs : list ParamDef.t) (values : dict) (cmd_to_send : string)
  : result substituted :=
  match param_defs with
  | [] => Ok (Command cmd_to_send)
  | d :: rest =>
      match dict_get values (ParamDef.name d) with
      | None => Ok (Missing (ParamDef.name d))
      | Some raw =>
          if String.eqb (strip raw) EmptyString then Ok (Missing (ParamDef.name d))
          else
            let v := strip raw in
            bind (match ParamDef.kind d with
                  | FREE => app._apply_format_spec v (ParamDef.format_spec d)
                  | OPTIONS => Ok v
                  end) (fun v =>
            bind (Re.sub_named (ParamDef.name d) v cmd_to_send)
                 (fun cmd_to_send => substitute rest values cmd_to_send))
      end
  end.

(** The placeholders left over (lines 355-357 and 378-381). *)
Definition fill_leftover (values : dict) (cmd_to_send : string) : result string :=
  if Re.search_placeholder cmd_to_send then
    match values with
    | (_, first) :: _ =>
        let first_v := strip first in
        Re.sub_placeholders first_v cmd_to_send
    | [] => Ok cmd_to_send
    end
  else Ok cmd_to_send.

(** Both steps, as each branch of [api_run] runs them when [param_defs] is
    not empty. *)
Definition build (param_defs : list ParamDef.t) (values : dict) (cmd_to_send : string)
  : result substituted :=
  bind (substitute param_defs values cmd_to_send) (fun s =>
  match s with
  | Missing p => Ok (Missing p)
  | Command c => bind (fill_leftover values c) (fun c' => Ok (Command c'))
  end).

(** [except Exception as e: return ... 500] around a computation on the bus *)
Definition catching (m : io response) : bus -> response * bus :=
  fun b => match m b with
           | (Ok r, b') => (r, b')
           | (Raise e, b') => (Refused 500 (Exception e), b')
           end.

(** A pure step inside the [try] block *)
Definition lift {A} (r : result A) : io A :=
  match r with
  | Ok a => ret a
  | Raise e => raise e
  end.

(** The [try] block of [api_run] *)
Definition run_command (instruments : upyvisa.collection) (alias : string)
  (c : ScpiCommand.t) (param_defs : list ParamDef.t) (values : dict) : io response :=
  match ScpiCommand.mode c with
  | GET =>
      let cmd_to_send := strip (ScpiCommand.cmd c) in
      match param_defs with
      | [] =>
          resp <- upyvisa.query instruments alias cmd_to_send ;;
          ret (Ran GET cmd_to_send resp)
      | _ :: _ =>
          s <- lift (build param_defs values cmd_to_send) ;;
          match s with
          | Missing p => ret (Refused 400 (MissingValue p))
          | Command cmd_to_send =>
              resp <- upyvisa.query instruments alias cmd_to_send ;;
              ret (Ran GET cmd_to_send resp)
          end
      end
  | SET =>
      let cmd_to_send := strip (ScpiCommand.cmd c) in
      match param_defs with
      | [] =>
          _ <- upyvisa.write instruments alias cmd_to_send ;;
          ret (Ran SET cmd_to_send EmptyString)
      | _ :: _ =>
          s <- lift (build param_defs values cmd_to_send) ;;
          match s with
          | Missing p => ret (Refused 400 (MissingValue p))
          | Command cmd_to_send =>
              _ <- upyvisa.write instruments alias cmd_to_send ;;
              ret (Ran SET cmd_to_send EmptyString)
          end
      end
  end.

(** The two defaults of [values] (lines 334-338): one value given alone
    goes under the name of the only parameter; no values at all are the
    empty map. *)
Definition default_values (values : json_values) (single_value : string)
  (param_defs : list ParamDef.t) : json_values :=
  let values :=
    match values, param_defs with
    | NoValues, [d] =>
        if truthy single_value then Values [(ParamDef.name d, single_value)] else NoValues
    | _, _ => values
    end in
  match values with
  | NoValues => Values []
  | _ => values
  end.

(** [api_run] *)
Definition api_run (SCPI_DEFS : catalog) (data : run_request) (s : server)
  : response * server :=
  let alias := strip (run_alias data) in
  let cmd_name := strip (run_name data) in
  let values := run_values data in
  let single_value := strip (run_value data) in
  if (negb (truthy alias) || negb (truthy cmd_name))%bool
  then (Refused 400 MissingAliasName, s)
  else
    match find_alias (mgr s) alias with
    | None => (Refused 404 AliasNotFound, s)
    | Some inst =>
        let model := Instrument.model inst in
        let cmds := defs_get SCPI_DEFS model in
        match find_command cmds cmd_name with
        | None => (Refused 404 (CommandNotFound cmd_name model), s)
        | Some c =>
            let param_defs := app.parse_param_defs (ScpiCommand.parameters_raw c) (ScpiCommand.cmd c) in
            let values := default_values values single_value param_defs in
            match values with
            | Values values =>
                let '(r, w) :=
                  catching (run_command (mgr s) alias c param_defs values) (wire s) in
                (r, mkServer (mgr s) w)
            | _ => (Refused 400 ValuesNotDict, s)
            end
        end
    end.

(** [api_custom] *)
Definition api_custom (data : custom_request) (s : server) : response * server :=
  let alias := strip (custom_alias data) in
  let cmd := strip (custom_cmd data) in
  if (negb (truthy alias) || negb (truthy cmd))%bool
  then (Refused 400 MissingAliasCmd, s)
  else
    let '(r, w) :=
      catching
        (if char_in "?" cmd then
           resp <- upyvisa.query (mgr s) alias cmd ;;
           ret (RanCustom cmd resp)
         else
           _ <- upyvisa.write (mgr s) alias cmd ;;
           ret (RanCustom cmd EmptyString))
        (wire s) in
    (r, mkServer (mgr s) w).

(** [api_scan], for the resources the resource manager lists *)
Definition api_scan (resources : list (string * upyvisa.idn)) (s : server) : server :=
  mkServer (upyvisa.find_instruments (mgr s) resources) (wire s).

(** What [_instrument_to_dict] returns. *)
Record instrument_dict : Type := mkDict {
  d_visa_name : string;
  d_dev_kind : string;
  d_vendor : option string;
  d_model : option string;
  d_serial : option string;
  d_alias : string;
  d_has_scpi_def : bool
}.

(** [str(dev_kind)] *)
Definition dev_kind_str (k : DeviceKind) : string :=
  match k with
  | VISA => "DeviceKind.VISA"
  | SERIAL_115200_LF => "DeviceKind.SERIAL_115200_LF"
  end.

(** [model in SCPI_MODELS], the set of the keys of [SCPI_DEFS] *)
Definition in_models (SCPI_DEFS : catalog) (model : option string) : bool :=
  match model with
  | Some m => existsb (fun kv => String.eqb (fst kv) m) SCPI_DEFS
  | None => false
  end.

(** [_instrument_to_dict] *)
Definition _instrument_to_dict (SCPI_DEFS : catalog) (inst : Instrument.t)
  : instrument_dict :=
  mkDict (Instrument.visa_name inst)
         (dev_kind_str (Instrument.dev_kind inst))
         (Instrument.vendor inst) (Instrument.model inst) (Instrument.serial inst)
         (match Instrument.alias inst with
          | Some a => a
          | None => EmptyString
          end)
         (in_models SCPI_DEFS (Instrument.model inst)).

(** The body of a request to /api/set_alias, absent members as "". *)
Record alias_request : Type := mkAlias {
  req_alias : string;
  req_vendor : string;
  req_model : string;
  req_serial : string
}.

Inductive alias_response : Type :=
| AliasRefused                                        (* 400, "Missing alias/vendor/model/serial" *)
| AliasAnswer (ok : bool) (instruments : list instrument_dict).

(** [api_set_alias]; what [set_alias] raises is not caught. *)
Definition api_set_alias (SCPI_DEFS : catalog) (data : alias_request) (s : server)
  : result alias_response * server :=
  let alias := strip (req_alias data) in
  let vendor := strip (req_vendor data) in
  let model := strip (req_model data) in
  let serial := strip (req_serial data) in
  if (negb (truthy alias) || negb (truthy vendor)
      || negb (truthy model) || negb (truthy serial))%bool
  then (Ok AliasRefused, s)
  else
    match upyvisa.set_alias (mgr s) alias vendor model serial with
    | (Ok ret, instruments) =>
        (Ok (AliasAnswer (Z.eqb ret 1) (map (_instrument_to_dict SCPI_DEFS) instruments)),
         mkServer instruments (wire s))
    | (Raise e, instruments) => (Raise e, mkServer instruments (wire s))
    end.

(** What /api/commands_for_alias answers. *)
Inductive commands_response : Type :=
| NoAlias                                             (* 400, "Missing alias" *)
| UnknownAlias                                        (* 404, "Alias not found" *)
| Commands (model : option string)
           (commands : list (ScpiCommand.t * list ParamDef.t)).

(** [api_commands_for_alias] *)
Definition api_commands_for_alias (SCPI_DEFS : catalog) (alias : string) (s : server)
  : commands_response :=
  let alias := strip alias in
  if negb (truthy alias) then NoAlias
  else
    match find_alias (mgr s) alias with
    | None => UnknownAlias
    | Some inst =>
        let model := Instrument.model inst in
        let cmds := defs_get SCPI_DEFS model in
        Commands model
                 (map (fun c =>
                         (c, app.parse_param_defs (ScpiCommand.parameters_raw c)
                                                  (ScpiCommand.cmd c)))
                      cmds)
    end.

End routes.

(* ================================================================== *)
(** * The vocabulary of the properties *)
(* ================================================================== *)

(** The parameter a non-empty trimmed part stands for, as a function. *)
Definition param_of_part (part : string) : ParamDef.t :=
  match split_once ":" part with
  | Some (l, r) =>
      if char_in ";" (strip r)
      then ParamDef.mk (strip l) OPTIONS
                      (filter truthy (map strip (split ";" (strip r)))) EmptyString
      else ParamDef.mk (strip l) FREE [] (strip r)
  | None => ParamDef.mk part FREE [] EmptyString
  end.

(** What the specification says of a part and the parameter made from it. *)
Definition part_reads_as (part : string) (d : ParamDef.t) : Prop :=
  (char_in ":" part = false -> d = ParamDef.mk part FREE [] EmptyString)
  /\
  (forall l r : string,
      part = l ++ String ":" r -> char_in ":" l = false ->
      (char_in ";" r = true ->
       d = ParamDef.mk (strip l) OPTIONS
                      (filter truthy (map strip (split ";" (strip r)))) EmptyString)
      /\
      (char_in ";" r = false -> d = ParamDef.mk (strip l) FREE [] (strip r))).

(** The test of [parse_param_defs] for a specification that names nothing. *)
Definition names_no_spec (s : string) : bool :=
  (String.eqb s "" || String.eqb (lower s) "nan" || String.eqb (lower s) "none")%bool.

(** The text a list of tokens was cut from. *)
Fixpoint text (ts : list Re.token) : string :=
  match ts with
  | Re.TChar c :: r => String c (text r)
  | Re.TPlaceholder inner :: r => String "{" (inner ++ String "}" (text r))
  | [] => EmptyString
  end.

(** A placeholder holds at least one character and no closing brace. *)
Definition well_formed (t : Re.token) : Prop :=
  match t with
  | Re.TPlaceholder inner => inner <> EmptyString /\ char_in "}" inner = false
  | Re.TChar _ => True
  end.

(** The text read since an opening brace that [Re.scan] has not decided. *)
Definition pending (open : option string) : string :=
  match open with
  | Some acc => String "{" acc
  | None => EmptyString
  end.

(** Every character of [s] is a decimal digit. *)
Fixpoint all_digits (s : string) : bool :=
  match s with
  | String c r => (is_digit c && all_digits r)%bool
  | EmptyString => true
  end.

(** The number a string of decimal digits writes, read after [acc]. *)
Fixpoint number (acc : Z) (ds : string) : Z :=
  match ds with
  | String c r => number (10 * acc + Z.of_N (ord c - 48)) r
  | EmptyString => acc
  end.

(** [s] is [V.<ds>f]: a V, a dot, the one or more decimal digits [ds], an
    f; the letters in either case. *)
Definition fixed_spec (s ds : string) : Prop :=
  exists (v f : ascii),
    s = String v (String "." (ds ++ String f EmptyString))
    /\ (v = "V" \/ v = "v")%char /\ (f = "f" \/ f = "F")%char
    /\ ds <> EmptyString /\ all_digits ds = true.

(** [s] is [V.<k>f]: a fixed specification whose digits write [k]. *)
Definition is_fixed_spec (s : string) (k : nat) : Prop :=
  exists ds : string, fixed_spec s ds /\ k = Z.to_nat (number 0 ds).

(** [body] is one or more digits and, unless [k] is 0, a point and [k]
    digits. *)
Definition unsigned_decimals (k : nat) (body : string) : bool :=
  match k with
  | O => (truthy body && all_digits body)%bool
  | S _ =>
      match split_once "." body with
      | Some (ip, fp) =>
          (truthy ip && all_digits ip && all_digits fp
           && Nat.eqb (String.length fp) k)%bool
      | None => false
      end
  end.

(** [s] is a decimal numeral with exactly [k] digits after the point: an
    optional minus sign and an unsigned numeral as above. *)
Definition has_decimals (k : nat) (s : string) : bool :=
  match s with
  | String "-" body => unsigned_decimals k body
  | _ => unsigned_decimals k s
  end.

(** The instruments a scan makes: one for a listed resource that answered,
    built by [Instrument.__init__]. *)
Definition made_by_scan (resources : list (string * upyvisa.idn)) (i : Instrument.t)
  : Prop :=
  exists r response kind v m s,
    In (r, upyvisa.Idn response) resources /\ i = Instrument.init r kind v m s.

(** The responses of the instruments of [targets] to [cmd], asked one after
    the other. *)
Fixpoint query_each (targets : list Instrument.t) (cmd : string) : io (list string) :=
  match targets with
  | [] => ret []
  | i :: rest =>
      r <- Instrument.query i cmd ;;
      rs <- query_each rest cmd ;;
      ret (r :: rs)
  end.

(** The strings of [l] one after the other. *)
Definition concat (l : list string) : string := fold_right String.append EmptyString l.

(** An instrument with a vendor, a model and a serial number. *)
Definition complete (i : Instrument.t) : Prop :=
  Instrument.vendor i <> None /\ Instrument.model i <> None
  /\ Instrument.serial i <> None.

(** The comparison of [set_alias] raises on [i]: it reaches a field that
    is [None], the fields before it being equal to the given ones. *)
Definition reaches_none (i : Instrument.t) (vendor model : string) : Prop :=
  Instrument.vendor i = None
  \/ (exists v, Instrument.vendor i = Some v /\ upyvisa.same_text v vendor = true
                /\ Instrument.model i = None)
  \/ (exists v m, Instrument.vendor i = Some v /\ upyvisa.same_text v vendor = true
                  /\ Instrument.model i = Some m /\ upyvisa.same_text m model = true
                  /\ Instrument.serial i = None).

(** A text unlike any of finitely many others: longer than each. *)
Fixpoint fresh (n : nat) : string :=
  match n with
  | O => EmptyString
  | S k => String "a" (fresh k)
  end.

(** The greatest length of a field of [fields], trimmed and case folded. *)
Fixpoint widest (fields : list (option string)) : nat :=
  match fields with
  | Some f :: r => Nat.max (String.length (casefold (strip f))) (widest r)
  | None :: r => widest r
  | [] => 0
  end.

(** The exchanges [calls] were added to the bus between [b] and [b']. *)
Definition issued (b b' : bus) (calls : list io_call) : Prop :=
  history b' = (history b ++ calls)%list /\ device b' = device b.

(** An exchange of kind [what] that carries [cmd] to an instrument of
    [self] that answers to [alias]. *)
Definition carries (what : io_kind) (self : upyvisa.collection) (alias cmd : string)
  (c : io_call) : Prop :=
  io_what c = what /\ io_cmd c = cmd
  /\ exists i, In i self /\ upyvisa.answers_to alias i = true
               /\ io_addr c = Instrument.visa_name i.

(** A replacement without a backslash stands for itself. *)
Fixpoint plain (v : string) : list Re.piece :=
  match v with
  | String c r => Re.PChar c :: plain r
  | EmptyString => []
  end.

(** The text of [ts] with [v] in the place of every placeholder. *)
Fixpoint fill_with (v : string) (ts : list Re.token) : string :=
  match ts with
  | Re.TChar c :: r => String c (fill_with v r)
  | Re.TPlaceholder _ :: r => v ++ fill_with v r
  | [] => EmptyString
  end.

(** The value of parameter [d] is absent from [values] or blank. *)
Definition lacks (values : dict) (d : ParamDef.t) : bool :=
  match routes.dict_get values (ParamDef.name d) with
  | Some raw => String.eqb (strip raw) EmptyString
  | None => true
  end.

(** A bench: devices that answer every query with "3.300", one aliased
    power supply, and its catalog. *)
Definition bench_device (past : list io_call) (c : io_call) : io_outcome :=
  match io_what c with
  | IoQuery => Answer "3.300"
  | IoWrite => Answer EmptyString
  end.

(** The server of the bench, before any request. *)
Definition bench : server :=
  mkServer
    [Instrument.mk "GPIB0::5::INSTR" VISA
                   (Some "Keysight") (Some "E36312A") (Some "MY59001234") (Some "psu")]
    (mkBus [] bench_device).

(** The catalog of the bench. *)
Definition bench_defs : catalog :=
  [("E36312A",
    [ScpiCommand.mk "APPLY" "APPL {V},{I}" SET "V|I";
     ScpiCommand.mk "SETV" "VOLT {value}" SET "";
     ScpiCommand.mk "RANGE" "SENS:RANGE {value}" SET "range";
     ScpiCommand.mk "MEASV" "MEAS:VOLT?" GET ""])].

(** The parameters of a cataloged command. *)
Definition params_of (c : ScpiCommand.t) : list ParamDef.t :=
  app.parse_param_defs (ScpiCommand.parameters_raw c) (ScpiCommand.cmd c).

(** The exchange that carries [cmd] to instrument [i]. *)
Definition call_to (what : io_kind) (cmd : string) (i : Instrument.t) : io_call :=
  mkCall what (Instrument.visa_name i) (Instrument.dev_kind i) cmd.





(** Between [b] and [b'] exchanges were added to the bus, and the last of
    them failed otherwise than by a timeout. *)
Definition ends_in_failure (b b' : bus) : Prop :=
  exists calls c,
    history b' = (history b ++ calls ++ [c])%list
    /\ device b' = device b
    /\ device b (history b ++ calls)%list c = Failure.

(** A resource that a scan turns into an instrument: it answered [*IDN?]
    with more than 8 characters. *)
Definition identified (res : string * upyvisa.idn) : bool :=
  match snd res with
  | upyvisa.Idn response => Nat.ltb 8 (String.length response)
  | upyvisa.IdnError => false
  end.

(** The identity response of a resource, when a scan makes an instrument
    of it, has three parts or more. *)
Definition three_parts (res : string * upyvisa.idn) : Prop :=
  match snd res with
  | upyvisa.Idn response =>
      8 < String.length response -> 3 <= List.length (upyvisa.idn_parts response)
  | upyvisa.IdnError => True
  end.

(** Every alias in the collection is trimmed and not empty, as the route
    /api/set_alias stores it. *)
Definition tidy (self : upyvisa.collection) : Prop :=
  Forall (fun i => match Instrument.alias i with
                   | Some a => strip a = a /\ a <> EmptyString
                   | None => True
                   end) self.

(** [api_run] got as far as its [try] block: the alias and the name are
    not blank, the alias is that of [inst], the catalog of the model of
    [inst] has the command [c] under the name, and the values are the map
    [values]. *)
Definition resolves (SCPI_DEFS : catalog) (data : run_request) (s : server)
  (inst : Instrument.t) (c : ScpiCommand.t) (values : dict) : Prop :=
  strip (run_alias data) <> EmptyString
  /\ strip (run_name data) <> EmptyString
  /\ routes.find_alias (mgr s) (strip (run_alias data)) = Some inst
  /\ routes.find_command (routes.defs_get SCPI_DEFS (Instrument.model inst))
                         (strip (run_name data)) = Some c
  /\ routes.default_values (run_values data) (strip (run_value data)) (params_of c)
     = Values values.

(** Two parameters that differ in their options at most. *)
Definition same_but_options (d d' : ParamDef.t) : Prop :=
  ParamDef.name d = ParamDef.name d' /\ ParamDef.kind d = ParamDef.kind d'
  /\ ParamDef.format_spec d = ParamDef.format_spec d'.

(** A value of an option: not empty, trimmed, without a semicolon. *)
Definition option_text (o : string) : Prop :=
  o <> EmptyString /\ strip o = o /\ char_in ";" o = false.

(** What every parameter that [parse_param_defs] returns has: a trimmed
    name; when free, no options and a trimmed format without a semicolon;
    when of options, no format and options that are option texts. *)
Definition param_shape (d : ParamDef.t) : Prop :=
  strip (ParamDef.name d) = ParamDef.name d
  /\ match ParamDef.kind d with
     | FREE =>
         ParamDef.options d = []
         /\ strip (ParamDef.format_spec d) = ParamDef.format_spec d
         /\ char_in ";" (ParamDef.format_spec d) = false
     | OPTIONS =>
         ParamDef.format_spec d = EmptyString
         /\ Forall option_text (ParamDef.options d)
     end.

(** The label [c] of a column stands for the wanted name [w]: they are
    equal after trimming the label and case folding both. *)
Definition label_for (w c : string) : bool :=
  String.eqb (casefold (strip c)) (casefold w).

(** What the loader leaves in a command: a name and a template that are
    trimmed and not empty, and a trimmed parameter specification. *)
Definition loaded_command (c : ScpiCommand.t) : Prop :=
  ScpiCommand.name c <> EmptyString
  /\ strip (ScpiCommand.name c) = ScpiCommand.name c
  /\ ScpiCommand.cmd c <> EmptyString
  /\ strip (ScpiCommand.cmd c) = ScpiCommand.cmd c
  /\ strip (ScpiCommand.parameters_raw c) = ScpiCommand.parameters_raw c.

(** The sheet has the three columns the loader needs, under labels that
    are not empty. *)
Definition usable (df : app.DataFrame) : bool :=
  negb (app.no_col (app._find_col df ["Name"])
        || app.no_col (app._find_col df ["CMD"])
        || app.no_col (app._find_col df ["GET/SET"])).

(** A second instrument for the bench: a multimeter on a serial port,
    without an alias and without a catalog. *)
Definition dmm : Instrument.t :=
  Instrument.mk "ASRL3::INSTR" SERIAL_115200_LF
                (Some "Rigol") (Some "DM3058") (Some "DM3O151200124") None.

(** The collection of the bench with the multimeter after the supply. *)
Definition bench_two : upyvisa.collection := (mgr bench ++ [dmm])%list.

(** Devices that fail at every exchange. *)
Definition dead_device (past : list io_call) (c : io_call) : io_outcome := Failure.

(** A row of a sheet, from its cells by label; the other cells are empty. *)
Definition row_of (cells : list (string * string)) (label : string) : app.cell :=
  match routes.dict_get cells label with
  | Some s => app.Text s
  | None => app.NaN
  end.

(** The sheet of the bench's power supply, as the workbook has it. *)
Definition bench_sheet : app.DataFrame :=
  app.mkDataFrame
    ["Name"; " cmd"; "Get/Set"; "Parameters"; "Remark"]
    [row_of [("Name", "APPLY"); (" cmd", "APPL {V},{I}"); ("Get/Set", "set");
             ("Parameters", "V|I")];
     row_of [("Name", " SETV "); (" cmd", "VOLT {value} "); ("Get/Set", " SET")];
     row_of [("Name", "RANGE"); (" cmd", "SENS:RANGE {value}"); ("Get/Set", "Set");
             ("Parameters", " range ")];
     row_of [("Name", "BROKEN"); ("Get/Set", "GET")];
     row_of [("Name", "NOTE"); (" cmd", "x"); ("Get/Set", "n/a")];
     row_of [("Name", "MEASV"); (" cmd", "MEAS:VOLT?"); ("Get/Set", "get")]].

(* ================================================================== *)
(** * Properties *)
(* ================================================================== *)

(** ** Facts about the string methods *)

Section StringFacts.

Lemma truthy_true (s : string) : truthy s = true <-> s <> EmptyString.
Proof.
  unfold truthy. rewrite negb_true_iff. split.
  - intros H E. subst s. discriminate.
  - intros H. destruct s; [congruence | reflexivity].
Qed.

Lemma split_once_some (c : ascii) (s l r : string) :
  split_once c s = Some (l, r) -> s = l ++ String c r /\ char_in c l = false.
Proof.
  revert l r. induction s as [| a s IH]; intros l r H; simpl in H.
  - discriminate.
  - destruct (Ascii.eqb a c) eqn:E.
    + apply Ascii.eqb_eq in E. inversion H; subst. split; reflexivity.
    + destruct (split_once c s) as [[l' r'] |]; [| discriminate].
      inversion H; subst. destruct (IH l' r eq_refl) as [-> Hl].
      split; [reflexivity |]. simpl. rewrite E, Hl. reflexivity.
Qed.

Lemma split_once_none (c : ascii) (s : string) :
  split_once c s = None -> char_in c s = false.
Proof.
  induction s as [| a s IH]; simpl; intros H; [reflexivity |].
  destruct (Ascii.eqb a c); [discriminate |].
  destruct (split_once c s) as [[l r] |]; [discriminate |].
  simpl. apply IH. reflexivity.
Qed.

Lemma split_once_app (c : ascii) (l r : string) :
  char_in c l = false -> split_once c (l ++ String c r) = Some (l, r).
Proof.
  induction l as [| a l IH]; simpl; intros H.
  - rewrite Ascii.eqb_refl. reflexivity.
  - apply orb_false_iff in H. destruct H as [Ha Hl].
    rewrite Ha, (IH Hl). reflexivity.
Qed.

Lemma char_in_app (c : ascii) (a b : string) :
  char_in c (a ++ b) = (char_in c a || char_in c b)%bool.
Proof.
  induction a as [| x a IH]; simpl; [reflexivity |].
  rewrite IH. apply orb_assoc.
Qed.

Lemma eqb_space (a c : ascii) :
  is_space c = false -> is_space a = true -> Ascii.eqb a c = false.
Proof.
  intros Hc Ha. destruct (Ascii.eqb a c) eqn:E; [| reflexivity].
  apply Ascii.eqb_eq in E. congruence.
Qed.

Lemma char_in_lstrip (c : ascii) (s : string) :
  is_space c = false -> char_in c (lstrip s) = char_in c s.
Proof.
  intros Hc. induction s as [| a s IH]; simpl; [reflexivity |].
  destruct (is_space a) eqn:Ha; [| reflexivity].
  rewrite IH, (eqb_space a c Hc Ha). reflexivity.
Qed.

Lemma char_in_rstrip (c : ascii) (s : string) :
  is_space c = false -> char_in c (rstrip s) = char_in c s.
Proof.
  intros Hc. induction s as [| a s IH]; simpl; [reflexivity |].
  destruct (rstrip s) as [| b t] eqn:Er.
  - rewrite <- IH. destruct (is_space a) eqn:Ha; simpl.
    + rewrite (eqb_space a c Hc Ha). reflexivity.
    + reflexivity.
  - rewrite <- IH. reflexivity.
Qed.

Lemma char_in_strip (c : ascii) (s : string) :
  is_space c = false -> char_in c (strip s) = char_in c s.
Proof.
  intros Hc. unfold strip.
  rewrite (char_in_rstrip c _ Hc). apply char_in_lstrip, Hc.
Qed.

Lemma split_nonempty (c : ascii) (s : string) : split c s <> [].
Proof.
  destruct s as [| a r]; simpl; [discriminate |].
  destruct (Ascii.eqb a c); [discriminate |].
  destruct (split c r); discriminate.
Qed.

Lemma join_split (c : ascii) (s : string) :
  join (String c EmptyString) (split c s) = s.
Proof.
  induction s as [| a r IH]; [reflexivity |].
  cbn [split]. destruct (Ascii.eqb a c) eqn:E.
  - apply Ascii.eqb_eq in E. subst a.
    pose proof (split_nonempty c r) as N.
    destruct (split c r) as [| h t]; [congruence |].
    cbn [join] in *. rewrite IH. reflexivity.
  - pose proof (split_nonempty c r) as N.
    destruct (split c r) as [| h t]; [congruence |].
    destruct t as [| h' t']; cbn [join] in *; rewrite <- IH; reflexivity.
Qed.

Lemma split_pieces (c : ascii) (s : string) :
  Forall (fun p => char_in c p = false) (split c s).
Proof.
  induction s as [| a r IH]; cbn [split].
  - repeat constructor.
  - destruct (Ascii.eqb a c) eqn:E.
    + constructor; [reflexivity | exact IH].
    + destruct (split c r) as [| h t]; [repeat constructor; simpl; rewrite E; reflexivity |].
      inversion IH; subst. constructor; [| assumption].
      simpl. rewrite E. assumption.
Qed.

End StringFacts.

(** ** The parameter specification (C1, C5) *)

Section ParseParamDefs.

Lemma parse_part_keeps (out : list ParamDef.t) (part : string) :
  app.parse_part out part
  = (out ++ (if truthy part then [param_of_part part] else []))%list.
Proof.
  unfold app.parse_part, param_of_part.
  destruct (truthy part); simpl.
  - destruct (split_once ":" part) as [[l r] |]; [| reflexivity].
    destruct (char_in ";" (strip r)); reflexivity.
  - symmetry. apply app_nil_r.
Qed.

Lemma parse_loop (parts : list string) (out : list ParamDef.t) :
  fold_left app.parse_part parts out
  = (out ++ map param_of_part (filter truthy parts))%list.
Proof.
  revert out. induction parts as [| p parts IH]; intros out; simpl.
  - symmetry. apply app_nil_r.
  - rewrite IH, parse_part_keeps.
    destruct (truthy p); simpl.
    + rewrite <- app_assoc. reflexivity.
    + rewrite app_nil_r. reflexivity.
Qed.

Lemma param_of_part_reads (part : string) : part_reads_as part (param_of_part part).
Proof.
  unfold part_reads_as, param_of_part. split.
  - intros H. destruct (split_once ":" part) as [[l r] |] eqn:E; [| reflexivity].
    apply split_once_some in E. destruct E as [-> _].
    rewrite char_in_app in H. simpl in H.
    rewrite orb_true_r in H. discriminate.
  - intros l r -> Hl. rewrite (split_once_app ":" l r Hl).
    rewrite (char_in_strip ";" r eq_refl).
    split; intros ->; reflexivity.
Qed.

Lemma parse_param_defs_given (raw tpl : string) :
  names_no_spec (strip raw) = false ->
  app.parse_param_defs raw tpl
  = map param_of_part (filter truthy (map strip (split "|" (strip raw)))).
Proof.
  intros H. unfold app.parse_param_defs. unfold names_no_spec in H.
  rewrite H. apply parse_loop.
Qed.

Lemma parse_param_defs_absent (raw tpl : string) :
  names_no_spec (strip raw) = true ->
  app.parse_param_defs raw tpl
  = map (fun inner => ParamDef.mk (strip inner) FREE [] EmptyString)
        (Re.finditer_group1 tpl).
Proof.
  intros H. unfold app.parse_param_defs. unfold names_no_spec in H.
  rewrite H. unfold app._first_placeholder_names. apply map_map.
Qed.

(** C1. For a raw parameter specification that, trimmed, is neither empty
    nor "nan" nor "none" in any letter case, [parse_param_defs] returns one
    parameter for each non-empty trimmed part between the bars, in the
    order of the parts: a part without a colon gives a free parameter
    named by the part, without a format; a part [l:r], cut at its first
    colon, gives an options parameter with the non-empty trimmed tokens of
    [r] between semicolons when [r] has a semicolon, and a free parameter
    whose format is the trimmed [r] otherwise. *)
Theorem parse_param_defs_parts (raw tpl : string) :
  strip raw <> "" -> lower (strip raw) <> "nan" -> lower (strip raw) <> "none" ->
  Forall2 part_reads_as
          (filter truthy (map strip (split "|" (strip raw))))
          (app.parse_param_defs raw tpl).
Proof.
  intros H1 H2 H3. rewrite parse_param_defs_given.
  - induction (filter truthy (map strip (split "|" (strip raw)))) as [| p ps IH];
      simpl; constructor; [apply param_of_part_reads | exact IH].
  - unfold names_no_spec.
    apply String.eqb_neq in H1, H2, H3. rewrite H1, H2, H3. reflexivity.
Qed.

Lemma parse_param_defs_parts_witness :
  Forall2 part_reads_as
          ["CURRENT:V.3f"; "MODE:AUTO;MANUAL"; "x"]
          (app.parse_param_defs " CURRENT:V.3f | MODE:AUTO;MANUAL || x" "SET {x}").
Proof.
  apply (parse_param_defs_parts " CURRENT:V.3f | MODE:AUTO;MANUAL || x" "SET {x}");
    vm_compute; discriminate.
Defined.

(** The examples of the specification *)
Example parse_mode :
  app.parse_param_defs "MODE:AUTO;MANUAL" "CONF {MODE}"
  = [ParamDef.mk "MODE" OPTIONS ["AUTO"; "MANUAL"] ""].
Proof. reflexivity. Qed.

Example parse_current :
  app.parse_param_defs "CURRENT:V.3f" "CURR {CURRENT}"
  = [ParamDef.mk "CURRENT" FREE [] "V.3f"].
Proof. reflexivity. Qed.

Example parse_freq :
  app.parse_param_defs "" "SET:FREQ {freq}" = [ParamDef.mk "freq" FREE [] ""].
Proof. reflexivity. Qed.

End ParseParamDefs.

Section Placeholders.

Lemma text_chars (s : string) : text (Re.chars s) = s.
Proof. induction s as [| c s IH]; simpl; [| rewrite IH]; reflexivity. Qed.

Lemma append_assoc (a b c : string) : (a ++ b) ++ c = a ++ (b ++ c).
Proof. induction a as [| x a IH]; simpl; [| rewrite IH]; reflexivity. Qed.

Lemma append_empty (a : string) : a ++ EmptyString = a.
Proof. induction a as [| x a IH]; simpl; [| rewrite IH]; reflexivity. Qed.

Lemma scan_text (s : string) :
  forall open, text (Re.scan open s) = pending open ++ s.
Proof.
  induction s as [| c s IH]; intros [acc |]; simpl.
  - rewrite text_chars, append_empty. reflexivity.
  - reflexivity.
  - destruct (Ascii.eqb c "}") eqn:E.
    + apply Ascii.eqb_eq in E. subst c.
      destruct acc as [| a acc]; simpl; rewrite IH; reflexivity.
    + rewrite IH. simpl. rewrite append_assoc. reflexivity.
  - destruct (Ascii.eqb c "{") eqn:E.
    + apply Ascii.eqb_eq in E. subst c. rewrite IH. reflexivity.
    + simpl. rewrite IH. reflexivity.
Qed.

Lemma chars_well_formed (s : string) : Forall well_formed (Re.chars s).
Proof. induction s; simpl; constructor; simpl; auto. Qed.

Lemma scan_well_formed (s : string) :
  forall open,
    match open with Some acc => char_in "}" acc = false | None => True end ->
    Forall well_formed (Re.scan open s).
Proof.
  induction s as [| c s IH]; intros [acc |] H; simpl.
  - constructor; [exact I | apply chars_well_formed].
  - constructor.
  - destruct (Ascii.eqb c "}") eqn:E.
    + destruct acc as [| a acc].
      * repeat constructor. apply IH. exact I.
      * constructor; [split; [discriminate | exact H] | apply IH; exact I].
    + apply IH. rewrite char_in_app, H. simpl. rewrite E. reflexivity.
  - destruct (Ascii.eqb c "{") eqn:E.
    + apply IH. reflexivity.
    + constructor; [exact I | apply IH; exact I].
Qed.

Lemma groups_none (ts : list Re.token) :
  existsb Re.is_placeholder ts = false -> Re.groups ts = [].
Proof.
  induction ts as [| [c | inner] ts IH]; simpl; intros H;
    [reflexivity | apply IH, H | discriminate].
Qed.

Lemma groups_length (ts : list Re.token) :
  List.length (Re.groups ts) = List.length (filter Re.is_placeholder ts).
Proof.
  induction ts as [| [c | inner] ts IH]; simpl; [| | rewrite IH]; auto.
Qed.

Lemma text_app (a b : list Re.token) : text (a ++ b) = text a ++ text b.
Proof.
  induction a as [| [c | inner] a IH]; simpl; [reflexivity | |];
    rewrite IH; [reflexivity |].
  f_equal. rewrite append_assoc. reflexivity.
Qed.

Lemma scan_closes (inner b : string) :
  char_in "}" inner = false ->
  forall acc,
    acc ++ inner <> EmptyString ->
    Re.scan (Some acc) (inner ++ String "}" b)
    = Re.TPlaceholder (acc ++ inner) :: Re.scan None b.
Proof.
  intros Hin. induction inner as [| c inner IH]; intros acc Hne.
  - rewrite append_empty in *. simpl.
    destruct acc; [congruence | reflexivity].
  - simpl in Hin. apply orb_false_iff in Hin. destruct Hin as [Hc Hin].
    cbn [append Re.scan]. rewrite Hc.
    rewrite (IH Hin (acc ++ String c EmptyString)).
    + rewrite append_assoc. reflexivity.
    + rewrite append_assoc. simpl. destruct acc; discriminate.
Qed.

Lemma scan_finds (a inner b : string) :
  inner <> EmptyString -> char_in "}" inner = false ->
  forall open,
    existsb Re.is_placeholder
            (Re.scan open (a ++ String "{" (inner ++ String "}" b))) = true.
Proof.
  intros Hne Hin. induction a as [| c a IH]; intros [acc |]; cbn [append Re.scan].
  - replace (Ascii.eqb "{" "}") with false by reflexivity.
    rewrite (scan_closes inner b Hin).
    + reflexivity.
    + destruct inner; [congruence |]. rewrite append_assoc.
      destruct acc; discriminate.
  - rewrite Ascii.eqb_refl. rewrite (scan_closes inner b Hin EmptyString).
    + reflexivity.
    + exact Hne.
  - destruct (Ascii.eqb c "}").
    + destruct acc; [apply IH | reflexivity].
    + apply IH.
  - destruct (Ascii.eqb c "{"); [apply IH |]. simpl. apply IH.
Qed.

Lemma placeholder_in_text (ts : list Re.token) :
  existsb Re.is_placeholder ts = true ->
  exists pre inner post,
    ts = (pre ++ Re.TPlaceholder inner :: post)%list.
Proof.
  induction ts as [| [c | inner] ts IH]; simpl; intros H; [discriminate | |].
  - destruct (IH H) as (pre & inner & post & ->).
    exists (Re.TChar c :: pre), inner, post. reflexivity.
  - exists [], inner, ts. reflexivity.
Qed.

(** [re.search] for the placeholder pattern finds a match exactly when the
    text holds an opening brace, one or more characters other than the
    closing brace, and a closing brace. *)
Lemma search_placeholder_iff (s : string) :
  Re.search_placeholder s = true
  <-> exists a inner b,
        s = a ++ String "{" (inner ++ String "}" b)
        /\ inner <> EmptyString /\ char_in "}" inner = false.
Proof.
  unfold Re.search_placeholder, Re.placeholders. split.
  - intros H. destruct (placeholder_in_text _ H) as (pre & inner & post & E).
    pose proof (scan_text s None) as T. rewrite E, text_app in T. simpl in T.
    pose proof (scan_well_formed s None I) as W. rewrite E in W.
    apply Forall_app in W. destruct W as [_ W].
    apply Forall_inv in W.
    exists (text pre), inner, (text post). split; [symmetry; exact T | exact W].
  - intros (a & inner & b & -> & Hne & Hin). apply scan_finds; assumption.
Qed.

(** C5, as amended.  For a raw parameter specification that, trimmed, is
    empty or is "nan" or "none" in any letter case, [parse_param_defs] cuts
    the template, from left to right, into characters and placeholders (an
    opening brace, one or more characters other than the closing brace, a
    closing brace) and returns one free parameter without a format for each
    placeholder, a repeated one included, named by the trimmed text between
    the braces; without a placeholder the result is empty. *)
Theorem parse_param_defs_placeholders (raw tpl : string) :
  strip raw = "" \/ lower (strip raw) = "nan" \/ lower (strip raw) = "none" ->
  text (Re.placeholders tpl) = tpl
  /\ Forall well_formed (Re.placeholders tpl)
  /\ app.parse_param_defs raw tpl
     = map (fun inner => ParamDef.mk (strip inner) FREE [] EmptyString)
           (Re.groups (Re.placeholders tpl))
  /\ List.length (app.parse_param_defs raw tpl)
     = List.length (filter Re.is_placeholder (Re.placeholders tpl))
  /\ (Re.search_placeholder tpl = false -> app.parse_param_defs raw tpl = []).
Proof.
  intros H.
  assert (E : app.parse_param_defs raw tpl
              = map (fun inner => ParamDef.mk (strip inner) FREE [] EmptyString)
                    (Re.groups (Re.placeholders tpl))).
  { apply parse_param_defs_absent. unfold names_no_spec.
    destruct H as [H | [H | H]]; rewrite H; simpl;
      rewrite ?orb_true_r; reflexivity. }
  split; [apply (scan_text tpl None) |].
  split; [apply scan_well_formed; exact I |].
  split; [exact E |].
  split.
  - rewrite E, length_map. apply groups_length.
  - intros Hs. rewrite E. unfold Re.search_placeholder in Hs.
    rewrite (groups_none _ Hs). reflexivity.
Qed.

Lemma parse_param_defs_placeholders_witness :
  app.parse_param_defs "NaN" "SET:FREQ { freq },{b}"
  = [ParamDef.mk "freq" FREE [] ""; ParamDef.mk "b" FREE [] ""].
Proof.
  destruct (parse_param_defs_placeholders "NaN" "SET:FREQ { freq },{b}")
    as (_ & _ & E & _).
  - right. left. reflexivity.
  - exact E.
Defined.

(** C5 as the specification has it: one parameter for each _distinct_
    placeholder name.  A name that stands twice in the template gives two
    parameters. *)
Lemma parse_param_defs_repeats :
  app.parse_param_defs "" "APPL {v},{v}"
  = [ParamDef.mk "v" FREE [] ""; ParamDef.mk "v" FREE [] ""]
  /\ ~ NoDup (map ParamDef.name (app.parse_param_defs "" "APPL {v},{v}")).
Proof.
  split; [reflexivity |].
  intros H. inversion H as [| x l Hin _]; subst.
  apply Hin. left. reflexivity.
Qed.

End Placeholders.

(** ** The value formatter (C4) *)

Section FormatSpec.

#[local] Arguments Z.mul : simpl never.
#[local] Arguments Z.add : simpl never.

Lemma take_digits_app (ds rest : string) :
  all_digits ds = true ->
  match rest with String c _ => is_digit c = false | EmptyString => True end ->
  forall acc,
    PyFloat.take_digits acc (ds ++ rest) = (number acc ds, String.length ds, rest).
Proof.
  intros Hd Hr. induction ds as [| c ds IH]; intros acc; simpl.
  - destruct rest as [| c r]; [reflexivity |]. simpl. rewrite Hr. reflexivity.
  - simpl in Hd. apply andb_true_iff in Hd. destruct Hd as [Hc Hd].
    rewrite Hc, (IH Hd). reflexivity.
Qed.

Lemma take_digits_inv (s : string) :
  forall acc v k rest,
    PyFloat.take_digits acc s = (v, k, rest) ->
    exists ds, s = ds ++ rest /\ all_digits ds = true
               /\ String.length ds = k /\ v = number acc ds.
Proof.
  induction s as [| c s IH]; intros acc v k rest H; simpl in H.
  - inversion H; subst. exists EmptyString. repeat split.
  - destruct (is_digit c) eqn:Hc.
    + destruct (PyFloat.take_digits (10 * acc + Z.of_N (ord c - 48)) s)
        as [[v' k'] rest'] eqn:E.
      inversion H; subst.
      destruct (IH _ _ _ _ E) as (ds & -> & Hd & Hl & Hv).
      exists (String c ds). simpl. rewrite Hc, Hd, Hl. repeat split. exact Hv.
    + inversion H; subst. exists EmptyString. repeat split.
Qed.

Lemma match_decimals_iff (s : string) (n : Z) (digits : nat) :
  app.match_decimals s = Some (n, digits)
  <-> exists ds, fixed_spec s ds /\ n = number 0 ds /\ digits = String.length ds.
Proof.
  split.
  - unfold app.match_decimals. intros H.
    destruct s as [| v [| dot r]]; try discriminate.
    destruct (Ascii.eqb dot ".") eqn:Edot.
    2:{ destruct dot as [[] [] [] [] [] [] [] []]; try discriminate. }
    apply Ascii.eqb_eq in Edot. subst dot.
    destruct (Ascii.eqb v "V" || Ascii.eqb v "v")%bool eqn:Ev; [| discriminate].
    destruct (PyFloat.take_digits 0 r) as [[n' kd] rest] eqn:E.
    destruct kd as [| kd]; [discriminate |].
    destruct rest as [| f [| x y]]; try discriminate.
    destruct (Ascii.eqb f "f" || Ascii.eqb f "F")%bool eqn:Ef; [| discriminate].
    inversion H; subst n digits.
    destruct (take_digits_inv _ _ _ _ _ E) as (ds & -> & Hd & Hl & ->).
    exists ds. split; [| auto].
    exists v, f. repeat split; auto.
    + apply orb_true_iff in Ev. destruct Ev as [Ev | Ev];
        apply Ascii.eqb_eq in Ev; auto.
    + apply orb_true_iff in Ef. destruct Ef as [Ef | Ef];
        apply Ascii.eqb_eq in Ef; auto.
    + intros ->. discriminate.
  - intros (ds & (v & f & -> & Hv & Hf & Hne & Hd) & -> & ->).
    unfold app.match_decimals.
    assert (Ev : (Ascii.eqb v "V" || Ascii.eqb v "v")%bool = true)
      by (destruct Hv; subst; reflexivity).
    assert (Ef : (Ascii.eqb f "f" || Ascii.eqb f "F")%bool = true)
      by (destruct Hf; subst; reflexivity).
    rewrite Ev.
    rewrite (take_digits_app ds (String f EmptyString) Hd).
    + destruct ds as [| c ds]; [congruence |]. simpl String.length.
      rewrite Ef. reflexivity.
    + destruct Hf; subst; reflexivity.
Qed.

Lemma match_decimals_none (s : string) :
  app.match_decimals s = None <-> forall ds, ~ fixed_spec s ds.
Proof.
  split.
  - intros H ds Hds.
    assert (E : app.match_decimals s = Some (number 0 ds, String.length ds))
      by (apply match_decimals_iff; eauto).
    congruence.
  - intros H. destruct (app.match_decimals s) as [[n digits] |] eqn:E; [| reflexivity].
    apply match_decimals_iff in E. destruct E as (ds & Hds & _).
    destruct (H ds Hds).
Qed.

Lemma digit_char_digit (n : Z) : is_digit (PyFloat.digit_char n) = true.
Proof.
  unfold PyFloat.digit_char, is_digit, between, ord.
  pose proof (Z.mod_pos_bound n 10 eq_refl) as B.
  rewrite N_ascii_embedding by lia.
  apply andb_true_iff. split; apply N.leb_le; lia.
Qed.

Lemma all_digits_app (a b : string) :
  all_digits (a ++ b) = (all_digits a && all_digits b)%bool.
Proof.
  induction a as [| c a IH]; simpl; [reflexivity |].
  rewrite IH. apply andb_assoc.
Qed.

Lemma length_append (a b : string) :
  String.length (a ++ b) = String.length a + String.length b.
Proof. induction a as [| c a IH]; simpl; [| rewrite IH]; reflexivity. Qed.

Lemma digits_fixed_digits (k : nat) :
  forall n, all_digits (PyFloat.digits_fixed k n) = true
            /\ String.length (PyFloat.digits_fixed k n) = k.
Proof.
  induction k as [| k IH]; intros n; simpl; [split; reflexivity |].
  destruct (IH (n / 10)%Z) as [Hd Hl].
  rewrite all_digits_app, length_append, Hd, Hl. simpl.
  rewrite digit_char_digit. split; [reflexivity | lia].
Qed.

Lemma digits_fuel_digits (fuel : nat) :
  forall n, all_digits (PyFloat.digits_fuel fuel n) = true
            /\ PyFloat.digits_fuel fuel n <> EmptyString.
Proof.
  induction fuel as [| fuel IH]; intros n; simpl.
  - rewrite digit_char_digit. split; [reflexivity | discriminate].
  - destruct (n <? 10)%Z; simpl.
    + rewrite digit_char_digit. split; [reflexivity | discriminate].
    + destruct (IH (n / 10)%Z) as [Hd Hne].
      rewrite all_digits_app, Hd. simpl. rewrite digit_char_digit.
      split; [reflexivity |].
      destruct (PyFloat.digits_fuel fuel (n / 10)); [congruence | discriminate].
Qed.

Lemma digits_no_char (c : ascii) (s : string) :
  is_digit c = false -> all_digits s = true -> char_in c s = false.
Proof.
  intros Hc. induction s as [| a s IH]; simpl; intros H; [reflexivity |].
  apply andb_true_iff in H. destruct H as [Ha Hs].
  rewrite (IH Hs), orb_false_r.
  destruct (Ascii.eqb a c) eqn:E; [| reflexivity].
  apply Ascii.eqb_eq in E. congruence.
Qed.

Lemma has_decimals_unsigned (k : nat) (body : string) :
  all_digits (String.substring 0 1 body) = true ->
  has_decimals k body = unsigned_decimals k body.
Proof.
  destruct body as [| c r]; [reflexivity |].
  intros H. unfold has_decimals.
  destruct c as [[] [] [] [] [] [] [] []]; try reflexivity.
  simpl in H. destruct r; discriminate.
Qed.

Lemma first_of_digits (s t : string) :
  all_digits s = true -> s <> EmptyString ->
  all_digits (String.substring 0 1 (s ++ t)) = true.
Proof.
  destruct s as [| c s]; [congruence |]. intros H _. simpl in *.
  apply andb_true_iff in H. destruct H as [Hc _].
  destruct (s ++ t); simpl; rewrite Hc; reflexivity.
Qed.

(** A finite float is written with exactly [k] decimals. *)
Lemma format_fixed_decimals (neg : bool) (m e : Z) (k : nat) :
  has_decimals k (PyFloat.format_fixed (PyFloat.Fin neg m e) k) = true.
Proof.
  unfold PyFloat.format_fixed.
  set (r := PyFloat.scaled_round m e k).
  assert (B : forall body,
             all_digits (String.substring 0 1 body) = true ->
             unsigned_decimals k body = true ->
             has_decimals k (if neg then String "-" body else body) = true).
  { intros body H1 H2. destruct neg; [exact H2 |].
    rewrite has_decimals_unsigned; assumption. }
  destruct k as [| k].
  - destruct (digits_fuel_digits (Z.to_nat (Z.log2 r)) r) as [Hd Hne].
    apply B.
    + rewrite <- (append_empty (PyFloat.digits r)).
      apply first_of_digits; assumption.
    + unfold unsigned_decimals, PyFloat.digits.
      rewrite Hd, (proj2 (truthy_true _) Hne). reflexivity.
  - set (p := (10 ^ Z.of_nat (S k))%Z).
    destruct (digits_fuel_digits (Z.to_nat (Z.log2 (r / p))) (r / p)) as [Hd Hne].
    destruct (digits_fixed_digits (S k) (r mod p)) as [Hf Hl].
    apply B.
    + apply first_of_digits; assumption.
    + unfold unsigned_decimals.
      change ("." ++ PyFloat.digits_fixed (S k) (r mod p))
        with (String "." (PyFloat.digits_fixed (S k) (r mod p))).
      rewrite split_once_app by (apply digits_no_char; [reflexivity | exact Hd]).
      fold (PyFloat.digits (r / p)) in Hd, Hne.
      rewrite Hd, Hf, Hl, (proj2 (truthy_true _) Hne), Nat.eqb_refl. reflexivity.
Qed.

Lemma div_half_even_nearest (n d : Z) :
  (0 < d -> Z.abs (2 * (PyFloat.div_half_even n d * d - n)) <= d)%Z.
Proof.
  intros Hd. unfold PyFloat.div_half_even.
  pose proof (Z.div_mod n d ltac:(lia)) as E.
  pose proof (Z.mod_pos_bound n d Hd) as B.
  destruct ((d <? 2 * (n mod d))%Z || ((d =? 2 * (n mod d))%Z && Z.odd (n / d)))%bool eqn:C.
  - apply orb_true_iff in C. destruct C as [C | C].
    + apply Z.ltb_lt in C. nia.
    + apply andb_true_iff in C. destruct C as [C _]. apply Z.eqb_eq in C. nia.
  - apply orb_false_iff in C. destruct C as [C _]. apply Z.ltb_ge in C. nia.
Qed.

Lemma scale2_positive (n d e : Z) :
  (0 < d -> 0 < snd (PyFloat.scale2 n d e))%Z.
Proof.
  intros Hd. unfold PyFloat.scale2. destruct (0 <=? e)%Z eqn:E; simpl; [| exact Hd].
  apply Z.leb_le in E. pose proof (Z.pow_pos_nonneg 2 e eq_refl E). nia.
Qed.

(** A finite result of [round_binary64] has the sign given, an exponent
    of the format, and a significand that is an integer nearest to the
    number scaled by that exponent. *)
Lemma round_binary64_nearest (neg neg' : bool) (n d m e : Z) :
  (0 < d)%Z ->
  PyFloat.round_binary64 neg n d = PyFloat.Fin neg' m e ->
  neg' = neg
  /\ ((n = 0 /\ m = 0
       \/ -1074 <= e <= 971
          /\ Z.abs (2 * (m * snd (PyFloat.scale2 n d e) - fst (PyFloat.scale2 n d e)))
             <= snd (PyFloat.scale2 n d e))%Z).
Proof.
  intros Hd. unfold PyFloat.round_binary64.
  destruct (n =? 0)%Z eqn:N.
  - intros H. inversion H; subst. apply Z.eqb_eq in N. auto.
  - destruct (PyFloat.scale2 n d (Z.log2 n - Z.log2 d)) as [n0 d0].
    set (b := (if d0 <=? n0 then Z.log2 n - Z.log2 d else Z.log2 n - Z.log2 d - 1)%Z).
    set (e' := Z.max (b - 52) (-1074)%Z).
    pose proof (scale2_positive n d e' Hd) as P.
    destruct (PyFloat.scale2 n d e') as [n1 d1] eqn:S. simpl in P.
    destruct ((971 <? e')%Z || ((e' =? 971)%Z && (2 ^ 53 <=? PyFloat.div_half_even n1 d1)%Z))%bool
      eqn:O; [discriminate |].
    intros H. inversion H; subst. split; [reflexivity |]. right.
    apply orb_false_iff in O. destruct O as [O _]. apply Z.ltb_ge in O.
    rewrite S. simpl. split; [unfold e' in *; lia |].
    apply div_half_even_nearest, P.
Qed.

Lemma number_app (a b : string) :
  forall acc, number acc (a ++ b) = number (number acc a) b.
Proof.
  induction a as [| c a IH]; intros acc; simpl; [reflexivity | apply IH].
Qed.

Lemma number_digit_char (acc n : Z) :
  number acc (String (PyFloat.digit_char n) EmptyString) = (10 * acc + n mod 10)%Z.
Proof.
  pose proof (Z.mod_pos_bound n 10 eq_refl) as B.
  cbn [number]. unfold PyFloat.digit_char, ord.
  rewrite N_ascii_embedding by lia.
  rewrite N.add_sub, Z2N.id by lia. reflexivity.
Qed.

Lemma digits_fixed_number (k : nat) :
  forall n, number 0 (PyFloat.digits_fixed k n) = (n mod 10 ^ Z.of_nat k)%Z.
Proof.
  induction k as [| k IH]; intros n.
  - simpl. symmetry. apply Z.mod_1_r.
  - cbn [PyFloat.digits_fixed]. rewrite number_app, IH, number_digit_char.
    rewrite Nat2Z.inj_succ, Z.pow_succ_r by lia.
    rewrite Z.rem_mul_r by lia. lia.
Qed.

Lemma digits_fuel_number (fuel : nat) :
  forall n, (0 <= n < 10 ^ Z.of_nat (S fuel))%Z ->
            number 0 (PyFloat.digits_fuel fuel n) = n.
Proof.
  induction fuel as [| fuel IH]; intros n H; cbn [PyFloat.digits_fuel].
  - rewrite number_digit_char. change (10 ^ Z.of_nat 1)%Z with 10%Z in H.
    rewrite Z.mod_small; lia.
  - destruct (n <? 10)%Z eqn:L.
    + apply Z.ltb_lt in L. rewrite number_digit_char, Z.mod_small; lia.
    + rewrite number_app, IH, number_digit_char.
      * pose proof (Z.div_mod n 10 ltac:(lia)). lia.
      * rewrite Nat2Z.inj_succ, Z.pow_succ_r in H by lia.
        split; [apply Z.div_pos; lia | apply Z.div_lt_upper_bound; lia].
Qed.

Lemma digits_number (n : Z) : (0 <= n)%Z -> number 0 (PyFloat.digits n) = n.
Proof.
  intros H. unfold PyFloat.digits. apply digits_fuel_number.
  split; [exact H |].
  rewrite Nat2Z.inj_succ, Z2Nat.id by apply Z.log2_nonneg.
  destruct (Z.eq_dec n 0) as [-> | N]; [reflexivity |].
  pose proof (Z.log2_spec n ltac:(lia)) as [_ U].
  eapply Z.lt_le_trans; [exact U |].
  apply Z.pow_le_mono_l. lia.
Qed.

Lemma div_half_even_nonneg (n d : Z) :
  (0 <= n -> 0 < d -> 0 <= PyFloat.div_half_even n d)%Z.
Proof.
  intros Hn Hd. unfold PyFloat.div_half_even.
  pose proof (Z.div_pos n d Hn Hd).
  destruct ((d <? 2 * (n mod d))%Z || ((d =? 2 * (n mod d))%Z && Z.odd (n / d)))%bool;
    lia.
Qed.

Lemma scaled_round_nonneg (m e : Z) (k : nat) :
  (0 <= m -> 0 <= PyFloat.scaled_round m e k)%Z.
Proof.
  intros Hm. unfold PyFloat.scaled_round, PyFloat.scale2.
  assert (P : (0 <= m * 10 ^ Z.of_nat k)%Z) by (apply Z.mul_nonneg_nonneg; lia).
  destruct (0 <=? - e)%Z eqn:E.
  - apply div_half_even_nonneg; [exact P |].
    apply Z.leb_le in E. pose proof (Z.pow_pos_nonneg 2 (- e) eq_refl E). lia.
  - apply div_half_even_nonneg; [| lia].
    apply Z.mul_nonneg_nonneg; [exact P | apply Z.pow_nonneg; lia].
Qed.

(** The numeral written for a finite float denotes the number rounded to
    [k] decimals: its digits before and after the point read as the
    quotient and the remainder of the rounded, scaled number. *)
Lemma format_fixed_value (neg : bool) (m e : Z) (k : nat) :
  (0 <= m)%Z ->
  exists ip fp,
    PyFloat.format_fixed (PyFloat.Fin neg m e) k
    = (if neg then "-" else "") ++ ip
      ++ match k with O => EmptyString | S _ => String "." fp end
    /\ String.length fp = k
    /\ (number 0 ip * 10 ^ Z.of_nat k + number 0 fp
        = PyFloat.scaled_round m e k)%Z.
Proof.
  intros Hm. pose proof (scaled_round_nonneg m e k Hm) as Hr.
  unfold PyFloat.format_fixed.
  set (r := PyFloat.scaled_round m e k) in *.
  destruct k as [| k].
  - exists (PyFloat.digits r), EmptyString. split; [| split].
    + rewrite append_empty. destruct neg; reflexivity.
    + reflexivity.
    + rewrite digits_number by exact Hr. simpl. lia.
  - set (p := (10 ^ Z.of_nat (S k))%Z).
    assert (Hp : (0 < p)%Z) by (apply Z.pow_pos_nonneg; lia).
    exists (PyFloat.digits (r / p)), (PyFloat.digits_fixed (S k) (r mod p)).
    split; [| split].
    + destruct neg; reflexivity.
    + apply digits_fixed_digits.
    + rewrite digits_number by (apply Z.div_pos; lia).
      rewrite digits_fixed_number. fold p.
      rewrite Z.mod_mod by lia.
      pose proof (Z.div_mod r p ltac:(lia)). lia.
Qed.

(** C4, as amended.  [_apply_format_spec] returns the value unchanged for
    an empty format and for a format that, trimmed, is not [V.<ds>f].  For a
    format [V.<ds>f] whose digits [ds] write [k]: with more than 4300 digits
    it raises [ValueError], whatever the value; otherwise it returns a
    value that [float] does not read unchanged, and for a value that
    [float] reads it raises [ValueError] when [k] is above 2147483647 and
    else returns the float written in fixed-point notation with precision
    [k], which for a finite float has exactly [k] decimals and for an
    infinity or a not-a-number is "inf", "-inf" or "nan". *)
Theorem apply_format_spec_cases (value fmt : string) :
  (fmt = "" -> app._apply_format_spec value fmt = Ok value)
  /\ ((forall ds, ~ fixed_spec (strip fmt) ds) ->
      app._apply_format_spec value fmt = Ok value)
  /\ (forall ds : string,
         fixed_spec (strip fmt) ds ->
         let k := number 0 ds in
         (4300 < String.length ds ->
          app._apply_format_spec value fmt = Raise ValueError)
         /\ (String.length ds <= 4300 ->
             (PyFloat.float value = None ->
              app._apply_format_spec value fmt = Ok value)
             /\ (forall x : PyFloat.pyfloat,
                    PyFloat.float value = Some x ->
                    ((2147483647 < k)%Z ->
                     app._apply_format_spec value fmt = Raise ValueError)
                    /\ ((k <= 2147483647)%Z ->
                        app._apply_format_spec value fmt
                        = Ok (PyFloat.format_fixed x (Z.to_nat k))
                        /\ match x with
                           | PyFloat.Fin _ _ _ =>
                               has_decimals (Z.to_nat k)
                                            (PyFloat.format_fixed x (Z.to_nat k))
                               = true
                           | PyFloat.Inf neg =>
                               PyFloat.format_fixed x (Z.to_nat k)
                               = (if neg then "-inf" else "inf")
                           | PyFloat.Nan =>
                               PyFloat.format_fixed x (Z.to_nat k) = "nan"
                           end)))).
Proof.
  split; [| split].
  - intros ->. reflexivity.
  - intros H. unfold app._apply_format_spec.
    destruct (negb (truthy fmt)); [reflexivity |].
    rewrite (proj2 (match_decimals_none (strip fmt)) H). reflexivity.
  - intros ds Hds k.
    assert (T : negb (truthy fmt) = false).
    { destruct fmt; [| reflexivity].
      destruct Hds as (v & f & E & _). vm_compute in E. discriminate. }
    assert (M : app.match_decimals (strip fmt) = Some (k, String.length ds))
      by (apply match_decimals_iff; eauto).
    unfold app._apply_format_spec. rewrite T, M.
    unfold app.int_group1, max_str_digits. split.
    + intros L. apply Nat.ltb_lt in L. rewrite L. reflexivity.
    + intros L. apply Nat.ltb_ge in L. rewrite L. cbn [bind]. split.
      * intros ->. reflexivity.
      * intros x ->. unfold PyFloat.format_f, PyFloat.max_precision. split.
        -- intros P. apply Z.ltb_lt in P. rewrite P. reflexivity.
        -- intros P. apply Z.ltb_ge in P. rewrite P. split; [reflexivity |].
           destruct x as [| neg | neg m e]; try reflexivity.
           apply format_fixed_decimals.
Qed.

Lemma apply_format_spec_cases_witness :
  fixed_spec (strip " v.3F ") "3"
  /\ app._apply_format_spec "1.5" " v.3F " = Ok "1.500"
  /\ has_decimals 3 "1.500" = true.
Proof.
  assert (F : fixed_spec (strip " v.3F ") "3").
  { exists "v"%char, "F"%char. repeat split; auto. discriminate. }
  split; [exact F |].
  destruct (apply_format_spec_cases "1.5" " v.3F ") as (_ & _ & H).
  destruct (H "3" F) as (_ & H1).
  destruct (H1 ltac:(simpl; lia)) as (_ & H2).
  destruct (H2 (PyFloat.Fin false 6755399441055744 (-52)) ltac:(vm_compute; reflexivity))
    as (_ & H3).
  apply H3. vm_compute. discriminate.
Defined.

(** The examples of the specification *)
Example format_1_5 : app._apply_format_spec "1.5" "V.3f" = Ok "1.500".
Proof. vm_compute. reflexivity. Qed.

Example format_abc : app._apply_format_spec "abc" "V.2f" = Ok "abc".
Proof. vm_compute. reflexivity. Qed.

(** C4 as the specification has it: every value that reads as a float is
    written with exactly [k] decimals, and no error is raised.  "Infinity"
    reads as a float and is written "inf"; with a precision above
    2147483647 the formatting raises [ValueError]. *)
Lemma apply_format_spec_infinity :
  is_fixed_spec (strip "V.3f") 3
  /\ PyFloat.float "Infinity" = Some (PyFloat.Inf false)
  /\ app._apply_format_spec "Infinity" "V.3f" = Ok "inf"
  /\ has_decimals 3 "inf" = false
  /\ fixed_spec (strip "V.2147483648f") "2147483648"
  /\ PyFloat.float "1.5" = Some (PyFloat.Fin false 6755399441055744 (-52))
  /\ app._apply_format_spec "1.5" "V.2147483648f" = Raise ValueError.
Proof.
  split; [| split; [| split; [| split; [| split; [| split]]]]];
    try (vm_compute; reflexivity).
  - exists "3". split; [| reflexivity].
    exists "V"%char, "f"%char. repeat split; auto. discriminate.
  - exists "V"%char, "f"%char. repeat split; auto. discriminate.
Qed.

(** The [try] covers [float] alone: a value that is no number is returned
    unchanged even with a precision above the limit, but not with a
    precision of more than 4300 digits, where [int] has raised before. *)
Example format_abc_precision :
  app._apply_format_spec "abc" "V.2147483648f" = Ok "abc".
Proof. vm_compute. reflexivity. Qed.

End FormatSpec.

(** ** The registry (C6, C7, C8, C9) *)

Section Registry.

Lemma casefold_empty (s : string) : casefold s = EmptyString -> s = EmptyString.
Proof.
  destruct s as [| c s]; [reflexivity |]. simpl.
  destruct (N.eqb (ord c) 223); discriminate.
Qed.

Lemma same_text_refl (a : string) : upyvisa.same_text a a = true.
Proof. apply String.eqb_refl. Qed.

(** *** Discovery *)

Lemma scan_resource_made resources res acc :
  In res resources ->
  Forall (made_by_scan resources) acc ->
  Forall (made_by_scan resources) (upyvisa.scan_resource acc res).
Proof.
  intros Hin Hacc. destruct res as [r [response |]]; simpl; [| exact Hacc].
  destruct (Nat.ltb 8 (String.length response)); [| exact Hacc].
  apply Forall_app. split; [exact Hacc |].
  constructor; [| constructor].
  red. eauto 10.
Qed.

Lemma scan_loop_made resources :
  forall rs acc,
    incl rs resources ->
    Forall (made_by_scan resources) acc ->
    Forall (made_by_scan resources) (fold_left upyvisa.scan_resource rs acc).
Proof.
  induction rs as [| res rs IH]; intros acc Hincl Hacc; simpl; [exact Hacc |].
  apply IH.
  - intros x Hx. apply Hincl. right. exact Hx.
  - apply scan_resource_made; [apply Hincl; left; reflexivity | exact Hacc].
Qed.

Lemma made_by_scan_no_alias resources i :
  made_by_scan resources i -> Instrument.alias i = None.
Proof. intros (r & response & kind & v & m & s & _ & ->). reflexivity. Qed.

Lemma filter_nobody (self : upyvisa.collection) (alias : string) :
  Forall (fun i => upyvisa.answers_to alias i = false) self ->
  filter (upyvisa.answers_to alias) self = [].
Proof.
  induction 1 as [| i self Hi _ IH]; simpl; [reflexivity |].
  rewrite Hi. exact IH.
Qed.

Lemma query_from_nobody (self : upyvisa.collection) (alias cmd : string) :
  Forall (fun i => upyvisa.answers_to alias i = false) self ->
  forall acc b, upyvisa.query_from self alias cmd acc b = (Ok acc, b).
Proof.
  induction 1 as [| i self Hi _ IH]; intros acc b; simpl; [reflexivity |].
  rewrite Hi. apply IH.
Qed.

Lemma write_nobody (self : upyvisa.collection) (alias cmd : string) :
  Forall (fun i => upyvisa.answers_to alias i = false) self ->
  forall b, upyvisa.write self alias cmd b = (Ok tt, b).
Proof.
  induction 1 as [| i self Hi _ IH]; intros b; simpl; [reflexivity |].
  rewrite Hi. apply IH.
Qed.

Lemma find_alias_nobody (self : upyvisa.collection) (alias : string) :
  alias <> EmptyString ->
  Forall (fun i => Instrument.alias i = None) self ->
  routes.find_alias self alias = None.
Proof.
  intros Hne. unfold routes.find_alias.
  induction 1 as [| i self Hi _ IH]; simpl; [reflexivity |].
  rewrite Hi. simpl.
  destruct (casefold alias) eqn:E; [| exact IH].
  apply casefold_empty in E. congruence.
Qed.

Lemma find_instruments_replaces_aliases
  (old : upyvisa.collection) (resources : list (string * upyvisa.idn)) :
  Forall (fun i => Instrument.alias i = None) (upyvisa.find_instruments old resources).
Proof.
  eapply Forall_impl; [apply made_by_scan_no_alias |].
  apply scan_loop_made; [apply incl_refl | constructor].
Qed.

(** C6. After a scan every instrument of the collection was made by that
    scan, whatever the collection held before, and has no alias; so no
    alias answers afterwards: [query] returns the empty string and [write]
    returns, neither with an exchange on the bus, and the routes find no
    instrument for an alias. *)
Theorem find_instruments_replaces
  (old : upyvisa.collection) (resources : list (string * upyvisa.idn)) :
  let new := upyvisa.find_instruments old resources in
  new = upyvisa.find_instruments [] resources
  /\ Forall (made_by_scan resources) new
  /\ Forall (fun i => Instrument.alias i = None) new
  /\ (forall alias cmd b,
         filter (upyvisa.answers_to alias) new = []
         /\ upyvisa.query new alias cmd b = (Ok EmptyString, b)
         /\ upyvisa.write new alias cmd b = (Ok tt, b))
  /\ (forall alias, alias <> EmptyString -> routes.find_alias new alias = None).
Proof.
  intros new.
  assert (Hmade : Forall (made_by_scan resources) new).
  { apply scan_loop_made; [apply incl_refl | constructor]. }
  assert (Hnone : Forall (fun i => Instrument.alias i = None) new).
  { eapply Forall_impl; [| exact Hmade]. apply made_by_scan_no_alias. }
  assert (Hdeaf : forall alias,
             Forall (fun i => upyvisa.answers_to alias i = false) new).
  { intros alias. eapply Forall_impl; [| exact Hnone].
    intros i Hi. unfold upyvisa.answers_to. rewrite Hi. reflexivity. }
  split; [reflexivity |]. split; [exact Hmade |]. split; [exact Hnone |]. split.
  - intros alias cmd b. split; [| split].
    + apply filter_nobody, Hdeaf.
    + apply query_from_nobody, Hdeaf.
    + apply write_nobody, Hdeaf.
  - intros alias Hne. apply find_alias_nobody; assumption.
Qed.

(** The route: after /api/scan the manager holds no alias. *)
Lemma api_scan_no_alias (resources : list (string * upyvisa.idn)) (s : server) :
  Forall (fun i => Instrument.alias i = None) (mgr (routes.api_scan resources s))
  /\ wire (routes.api_scan resources s) = wire s.
Proof.
  split; [| reflexivity].
  apply (find_instruments_replaces_aliases (mgr s) resources).
Qed.

(** *** Query *)

Lemma concat_app (a b : list string) : concat (a ++ b) = concat a ++ concat b.
Proof.
  induction a as [| x a IH]; simpl; [reflexivity |].
  rewrite IH, append_assoc. reflexivity.
Qed.

Lemma query_from_each (self : upyvisa.collection) (alias cmd : string) :
  forall acc b,
    upyvisa.query_from self alias cmd acc b
    = match query_each (filter (upyvisa.answers_to alias) self) cmd b with
      | (Ok rs, b') => (Ok (concat (rev rs) ++ acc), b')
      | (Raise e, b') => (Raise e, b')
      end.
Proof.
  induction self as [| i self IH]; intros acc b;
    cbn [upyvisa.query_from query_each filter]; [reflexivity |].
  destruct (upyvisa.answers_to alias i); [| apply IH].
  cbn [query_each]. unfold iobind.
  destruct (Instrument.query i cmd b) as [[r | e] b1]; [| reflexivity].
  rewrite IH.
  destruct (query_each (filter (upyvisa.answers_to alias) self) cmd b1)
    as [[rs | e] b2]; [| reflexivity].
  unfold ret. cbn [rev]. rewrite concat_app. cbn [concat fold_right].
  rewrite append_empty, append_assoc. reflexivity.
Qed.

(** C7. [query] asks every instrument whose alias equals the given one
    after trimming and case folding, and no other; it returns the
    concatenation of their responses, the last asked first, and raises
    what an instrument raises.  When no instrument has the alias it
    returns the empty string and nothing goes over the bus. *)
Theorem query_concatenates (self : upyvisa.collection) (alias cmd : string) (b : bus) :
  let targets := filter (upyvisa.answers_to alias) self in
  match query_each targets cmd b with
  | (Ok rs, b') =>
      upyvisa.query self alias cmd b = (Ok (concat (rev rs)), b')
      /\ Permutation (rev rs) rs
  | (Raise e, b') => upyvisa.query self alias cmd b = (Raise e, b')
  end
  /\ (targets = [] -> upyvisa.query self alias cmd b = (Ok EmptyString, b)).
Proof.
  intros targets. unfold upyvisa.query. rewrite query_from_each.
  fold targets. split.
  - destruct (query_each targets cmd b) as [[rs | e] b']; [| reflexivity].
    rewrite append_empty. split; [reflexivity |].
    apply Permutation_sym, Permutation_rev.
  - intros ->. reflexivity.
Qed.

(** Two instruments under one alias: both are asked, and the response of
    the second stands first. *)
Example query_two :
  upyvisa.query
    [Instrument.mk "GPIB0::1::INSTR" VISA (Some "A") (Some "M") (Some "1") (Some "dmm");
     Instrument.mk "GPIB0::2::INSTR" VISA (Some "A") (Some "M") (Some "2") None;
     Instrument.mk "ASRL3::INSTR" SERIAL_115200_LF (Some "A") (Some "M") (Some "3")
                   (Some " DMM ")]
    "Dmm" "READ?"
    (mkBus [] (fun _ c => Answer (io_addr c ++ ";")))
  = (Ok "ASRL3::INSTR;GPIB0::1::INSTR;",
     mkBus [mkCall IoQuery "GPIB0::1::INSTR" VISA "READ?";
            mkCall IoQuery "ASRL3::INSTR" SERIAL_115200_LF "READ?"]
           (fun _ c => Answer (io_addr c ++ ";"))).
Proof. reflexivity. Qed.

(** *** Aliases *)

Lemma identity_matches_with_alias (i : Instrument.t) (a vendor model serial : string) :
  upyvisa.identity_matches (upyvisa.with_alias i a) vendor model serial
  = upyvisa.identity_matches i vendor model serial.
Proof. reflexivity. Qed.

Lemma with_alias_twice (i : Instrument.t) (a : string) :
  upyvisa.with_alias (upyvisa.with_alias i a) a = upyvisa.with_alias i a.
Proof. reflexivity. Qed.

Lemma set_alias_again (self : upyvisa.collection) (alias vendor model serial : string) :
  upyvisa.set_alias (snd (upyvisa.set_alias self alias vendor model serial))
                    alias vendor model serial
  = upyvisa.set_alias self alias vendor model serial.
Proof.
  induction self as [| i self IH]; simpl; [reflexivity |].
  destruct (upyvisa.identity_matches i vendor model serial) as [[|] | e] eqn:M.
  - simpl. rewrite identity_matches_with_alias, M. reflexivity.
  - destruct (upyvisa.set_alias self alias vendor model serial) as [r rest'] eqn:R.
    simpl in *. rewrite M, IH. reflexivity.
  - simpl. rewrite M. reflexivity.
Qed.

Lemma set_alias_found (self : upyvisa.collection) (alias vendor model serial : string) :
  fst (upyvisa.set_alias self alias vendor model serial) = Ok 1%Z ->
  exists i, In i (snd (upyvisa.set_alias self alias vendor model serial))
            /\ upyvisa.identity_matches i vendor model serial = Ok true
            /\ Instrument.alias i = Some alias
            /\ upyvisa.answers_to alias i = true.
Proof.
  induction self as [| i self IH]; simpl; [discriminate |].
  destruct (upyvisa.identity_matches i vendor model serial) as [[|] | e] eqn:M.
  - intros _. exists (upyvisa.with_alias i alias). simpl.
    repeat split; [left; reflexivity | exact M |].
    unfold upyvisa.answers_to. simpl. apply same_text_refl.
  - destruct (upyvisa.set_alias self alias vendor model serial) as [r rest'].
    simpl in *. intros Hr. destruct (IH Hr) as (j & Hin & Hj).
    exists j. split; [right; exact Hin | exact Hj].
  - simpl. discriminate.
Qed.

(** C8. [set_alias] called again with the same arguments returns what the
    first call returned and leaves the collection as the first call left
    it, so an alias is answered by the same instruments as after the first
    call; after a first call that returned 1, an instrument of the given
    vendor, model and serial number has the alias and answers to it. *)
Theorem set_alias_idempotent (self : upyvisa.collection) (alias vendor model serial : string) :
  let once := upyvisa.set_alias self alias vendor model serial in
  let twice := upyvisa.set_alias (snd once) alias vendor model serial in
  twice = once
  /\ (forall a, filter (upyvisa.answers_to a) (snd twice)
                = filter (upyvisa.answers_to a) (snd once))
  /\ (fst once = Ok 1%Z ->
      exists i, In i (snd twice)
                /\ upyvisa.identity_matches i vendor model serial = Ok true
                /\ Instrument.alias i = Some alias
                /\ upyvisa.answers_to alias i = true).
Proof.
  cbv zeta. rewrite set_alias_again.
  split; [reflexivity |]. split; [reflexivity |].
  apply set_alias_found.
Qed.

(** *** When [set_alias] raises *)

Lemma identity_matches_raises (i : Instrument.t) (vendor model serial : string) (e : exn) :
  upyvisa.identity_matches i vendor model serial = Raise e
  <-> e = AttributeError /\ reaches_none i vendor model.
Proof.
  unfold upyvisa.identity_matches, upyvisa.same_field, reaches_none.
  destruct (Instrument.vendor i) as [v |]; simpl.
  2:{ split; [intros H; inversion H; auto | intros [-> _]; reflexivity]. }
  destruct (upyvisa.same_text v vendor) eqn:Ev.
  2:{ split; [discriminate |].
      intros [_ [H | [(v' & H & H1 & _) | (v' & m' & H & H1 & _)]]];
        [discriminate | inversion H; subst; congruence
         | inversion H; subst; congruence]. }
  destruct (Instrument.model i) as [m |]; simpl.
  2:{ split; [intros H; inversion H; split; [reflexivity |]; right; left; eauto
             | intros [-> _]; reflexivity]. }
  destruct (upyvisa.same_text m model) eqn:Em.
  2:{ split; [discriminate |].
      intros [_ [H | [(v' & _ & _ & H) | (v' & m' & _ & _ & H & H1 & _)]]];
        [discriminate | discriminate | inversion H; subst; congruence]. }
  destruct (Instrument.serial i) as [s |]; simpl.
  - split; [discriminate |].
    intros [_ [H | [(v' & _ & _ & H) | (v' & m' & _ & _ & _ & _ & H)]]];
      discriminate.
  - split; [intros H; inversion H; split; [reflexivity |]; right; right; eauto 10
           | intros [-> _]; reflexivity].
Qed.

Lemma identity_matches_complete (i : Instrument.t) (vendor model serial : string) :
  complete i -> exists b, upyvisa.identity_matches i vendor model serial = Ok b.
Proof.
  destruct i as [n k [v |] [m |] [s |] a]; intros (H1 & H2 & H3); simpl in *;
    try congruence.
  unfold upyvisa.identity_matches. simpl.
  destruct (upyvisa.same_text v vendor); simpl; eauto.
  destruct (upyvisa.same_text m model); simpl; eauto.
Qed.

Lemma set_alias_complete (self : upyvisa.collection) (alias vendor model serial : string) :
  Forall complete self ->
  exists z, fst (upyvisa.set_alias self alias vendor model serial) = Ok z.
Proof.
  induction 1 as [| i self Hi _ IH]; simpl; [eauto |].
  destruct (identity_matches_complete i vendor model serial Hi) as [[|] ->].
  - simpl. eauto.
  - destruct (upyvisa.set_alias self alias vendor model serial). simpl in *. exact IH.
Qed.

Lemma set_alias_raises (self : upyvisa.collection) (alias vendor model serial : string)
  (e : exn) :
  fst (upyvisa.set_alias self alias vendor model serial) = Raise e
  <-> exists pre i post,
        self = (pre ++ i :: post)%list
        /\ Forall (fun j => upyvisa.identity_matches j vendor model serial = Ok false) pre
        /\ upyvisa.identity_matches i vendor model serial = Raise e.
Proof.
  split.
  - induction self as [| i self IH]; simpl; [discriminate |].
    destruct (upyvisa.identity_matches i vendor model serial) as [[|] | e'] eqn:M.
    + discriminate.
    + destruct (upyvisa.set_alias self alias vendor model serial) as [r rest'].
      simpl in *. intros Hr. destruct (IH Hr) as (pre & j & post & -> & Hpre & Hj).
      exists (i :: pre), j, post. repeat split; [constructor |]; assumption.
    + simpl. intros H. inversion H; subst.
      exists [], i, self. repeat split; [constructor | exact M].
  - intros (pre & i & post & -> & Hpre & Hi).
    induction Hpre as [| j pre Hj _ IH]; simpl.
    + rewrite Hi. reflexivity.
    + rewrite Hj.
      destruct (upyvisa.set_alias (pre ++ i :: post)%list alias vendor model serial).
      exact IH.
Qed.

Lemma set_alias_raise_keeps (self : upyvisa.collection) (alias vendor model serial : string)
  (e : exn) :
  fst (upyvisa.set_alias self alias vendor model serial) = Raise e ->
  snd (upyvisa.set_alias self alias vendor model serial) = self.
Proof.
  induction self as [| i self IH]; simpl; [discriminate |].
  destruct (upyvisa.identity_matches i vendor model serial) as [[|] | e'] eqn:M.
  - discriminate.
  - destruct (upyvisa.set_alias self alias vendor model serial) as [r rest'].
    simpl in *. intros Hr. rewrite (IH Hr). reflexivity.
  - reflexivity.
Qed.

Lemma fresh_length (n : nat) : String.length (fresh n) = n.
Proof. induction n as [| n IH]; simpl; [| rewrite IH]; reflexivity. Qed.

Lemma fresh_rstrip (n : nat) : rstrip (fresh n) = fresh n.
Proof.
  induction n as [| n IH]; [reflexivity |].
  cbn [fresh rstrip]. rewrite IH. destruct n; reflexivity.
Qed.

Lemma fresh_casefold (n : nat) : casefold (fresh n) = fresh n.
Proof.
  induction n as [| n IH]; [reflexivity |].
  cbn [fresh casefold]. rewrite IH. reflexivity.
Qed.

Lemma fresh_folded (n : nat) : casefold (strip (fresh n)) = fresh n.
Proof.
  unfold strip.
  replace (lstrip (fresh n)) with (fresh n) by (destruct n; reflexivity).
  rewrite fresh_rstrip. apply fresh_casefold.
Qed.

Lemma widest_bound (fields : list (option string)) (f : string) :
  In (Some f) fields -> String.length (casefold (strip f)) <= widest fields.
Proof.
  induction fields as [| [g |] r IH]; simpl; intros H.
  - destruct H.
  - destruct H as [H | H]; [inversion H; subst; apply Nat.le_max_l |].
    etransitivity; [apply IH, H | apply Nat.le_max_r].
  - destruct H as [H | H]; [discriminate | apply IH, H].
Qed.

Lemma same_text_fresh (f : string) (n : nat) :
  String.length (casefold (strip f)) < n -> upyvisa.same_text f (fresh n) = false.
Proof.
  intros H. unfold upyvisa.same_text. rewrite fresh_folded.
  apply String.eqb_neq. intros E. rewrite E, fresh_length in H. lia.
Qed.

Lemma first_incomplete (self : upyvisa.collection) :
  ~ Forall complete self ->
  exists pre i post,
    self = (pre ++ i :: post)%list /\ Forall complete pre /\ ~ complete i.
Proof.
  induction self as [| j self IH]; intros H.
  - destruct H. constructor.
  - assert (D : complete j \/ ~ complete j).
    { unfold complete.
      destruct (Instrument.vendor j), (Instrument.model j), (Instrument.serial j);
        try (right; intros (A & B & C); congruence).
      left. repeat split; discriminate. }
    destruct D as [Hj | Hj].
    + destruct IH as (pre & i & post & -> & Hpre & Hi).
      { intros Hs. apply H. constructor; assumption. }
      exists (j :: pre), i, post. repeat split; [constructor |]; assumption.
    + exists [], j, self. repeat split; [constructor | exact Hj].
Qed.

(** With a field that is [None] somewhere in the collection, some vendor,
    model and serial number make [set_alias] raise. *)
Lemma set_alias_not_total (self : upyvisa.collection) :
  ~ Forall complete self ->
  exists vendor model serial,
    forall alias,
      upyvisa.set_alias self alias vendor model serial = (Raise AttributeError, self).
Proof.
  intros H. destruct (first_incomplete self H) as (pre & i & post & E & Hpre & Hi).
  set (n := fun proj => S (widest (map proj self))).
  assert (Hfresh : forall proj j f,
             In j pre -> proj j = Some f ->
             upyvisa.same_text f (fresh (n proj)) = false).
  { intros proj j f Hj Hf. apply same_text_fresh. unfold n.
    apply Nat.lt_succ_r, widest_bound. rewrite <- Hf. apply in_map.
    rewrite E. apply in_or_app. left. exact Hj. }
  assert (Hargs : exists vendor model serial,
             Forall (fun j => upyvisa.identity_matches j vendor model serial = Ok false) pre
             /\ upyvisa.identity_matches i vendor model serial = Raise AttributeError).
  { destruct (Instrument.vendor i) as [v |] eqn:Ev.
    - destruct (Instrument.model i) as [m |] eqn:Em.
      + destruct (Instrument.serial i) as [s |] eqn:Es.
        * destruct Hi. unfold complete. rewrite Ev, Em, Es.
          repeat split; discriminate.
        * exists v, m, (fresh (n Instrument.serial)). split.
          -- apply Forall_forall. intros j Hj.
             rewrite Forall_forall in Hpre. destruct (Hpre j Hj) as (A & B & C).
             unfold upyvisa.identity_matches, upyvisa.same_field.
             destruct (Instrument.vendor j) as [v' |]; [| congruence].
             destruct (Instrument.model j) as [m' |]; [| congruence].
             destruct (Instrument.serial j) as [s' |] eqn:Esj; [| congruence].
             cbn [bind]. rewrite (Hfresh Instrument.serial j s' Hj Esj).
             destruct (upyvisa.same_text v' v); simpl; [| reflexivity].
             destruct (upyvisa.same_text m' m); reflexivity.
          -- unfold upyvisa.identity_matches. rewrite Ev, Em, Es. simpl.
             rewrite !same_text_refl. reflexivity.
      + exists v, (fresh (n Instrument.model)), EmptyString. split.
        * apply Forall_forall. intros j Hj.
          rewrite Forall_forall in Hpre. destruct (Hpre j Hj) as (A & B & C).
          unfold upyvisa.identity_matches, upyvisa.same_field.
          destruct (Instrument.vendor j) as [v' |]; [| congruence].
          destruct (Instrument.model j) as [m' |] eqn:Emj; [| congruence].
          cbn [bind]. rewrite (Hfresh Instrument.model j m' Hj Emj).
          destruct (upyvisa.same_text v' v); reflexivity.
        * unfold upyvisa.identity_matches. rewrite Ev, Em. simpl.
          rewrite same_text_refl. reflexivity.
    - exists (fresh (n Instrument.vendor)), EmptyString, EmptyString. split.
      + apply Forall_forall. intros j Hj.
        rewrite Forall_forall in Hpre. destruct (Hpre j Hj) as (A & B & C).
        unfold upyvisa.identity_matches, upyvisa.same_field.
        destruct (Instrument.vendor j) as [v' |] eqn:Evj; [| congruence].
        cbn [bind]. rewrite (Hfresh Instrument.vendor j v' Hj Evj). reflexivity.
      + unfold upyvisa.identity_matches. rewrite Ev. reflexivity. }
  destruct Hargs as (vendor & model & serial & Hp & Hr).
  exists vendor, model, serial. intros alias.
  assert (R : fst (upyvisa.set_alias self alias vendor model serial)
              = Raise AttributeError).
  { apply set_alias_raises. exists pre, i, post. auto. }
  pose proof (set_alias_raise_keeps _ _ _ _ _ _ R) as K.
  destruct (upyvisa.set_alias self alias vendor model serial). simpl in *.
  congruence.
Qed.

(** What a scan makes of an identity response without three commas. *)
Lemma scan_few_parts (old : upyvisa.collection) (r response : string) :
  8 < String.length response ->
  count_char "," response < 3 ->
  List.length (split_ws response) < 3 ->
  exists i,
    upyvisa.find_instruments old [(r, upyvisa.Idn response)] = [i]
    /\ Instrument.serial i = None
    /\ (List.length (split_ws response) < 2 -> Instrument.model i = None)
    /\ (List.length (split_ws response) < 1 -> Instrument.vendor i = None).
Proof.
  intros Hlen Hcommas Hparts.
  unfold upyvisa.find_instruments. cbn [fold_left].
  unfold upyvisa.scan_resource, upyvisa.idn_parts.
  apply Nat.ltb_lt in Hlen. rewrite Hlen.
  assert (Hc : Nat.leb 3 (count_char "," response) = false)
    by (apply Nat.leb_gt; exact Hcommas).
  rewrite Hc.
  assert (Hp : Nat.ltb 2 (List.length (split_ws response)) = false)
    by (apply Nat.ltb_ge; lia).
  rewrite Hp.
  eexists. split; [reflexivity |].
  unfold Instrument.init. cbn [Instrument.serial Instrument.model Instrument.vendor].
  split; [reflexivity |]. split.
  - intros H. destruct (split_ws response) as [| a [| b l]];
      [reflexivity | reflexivity | simpl in H; lia].
  - intros H. destruct (split_ws response) as [| a l];
      [reflexivity | simpl in H; lia].
Qed.

(** C9, as amended.  [set_alias] returns, for all arguments, exactly when
    every instrument of the collection has a vendor, a model and a serial
    number.  The comparison of the three fields stops at the first that
    differs, so a call raises exactly when, before an instrument that
    matches, it comes to one whose vendor is [None], or whose vendor
    matches and whose model is [None], or whose vendor and model match and
    whose serial number is [None]; the collection is then unchanged.  A
    scan makes such an instrument of an identity response of more than 8
    characters with fewer than three commas and fewer than three
    white-space separated parts. *)
Theorem set_alias_partial :
  (forall self,
      Forall complete self ->
      forall alias vendor model serial,
      exists z, fst (upyvisa.set_alias self alias vendor model serial) = Ok z)
  /\ (forall self,
         ~ Forall complete self ->
         exists vendor model serial,
           forall alias,
             upyvisa.set_alias self alias vendor model serial
             = (Raise AttributeError, self))
  /\ (forall self alias vendor model serial e,
         fst (upyvisa.set_alias self alias vendor model serial) = Raise e
         <-> exists pre i post,
               self = (pre ++ i :: post)%list
               /\ Forall (fun j => upyvisa.identity_matches j vendor model serial
                                   = Ok false) pre
               /\ e = AttributeError /\ reaches_none i vendor model)
  /\ (forall old r response,
         8 < String.length response ->
         count_char "," response < 3 ->
         List.length (split_ws response) < 3 ->
         exists i,
           upyvisa.find_instruments old [(r, upyvisa.Idn response)] = [i]
           /\ ~ complete i).
Proof.
  split; [| split; [| split]].
  - intros self H alias vendor model serial. apply set_alias_complete, H.
  - apply set_alias_not_total.
  - intros self alias vendor model serial e. rewrite set_alias_raises.
    split; intros (pre & i & post & H1 & H2 & H3); exists pre, i, post;
      (split; [exact H1 |]); (split; [exact H2 |]).
    + apply (identity_matches_raises i vendor model serial e), H3.
    + apply (identity_matches_raises i vendor model serial e), H3.
  - intros old r response H1 H2 H3.
    destruct (scan_few_parts old r response H1 H2 H3) as (i & E & Hs & _).
    exists i. split; [exact E |]. intros (_ & _ & C). congruence.
Qed.

(** C9 as the specification has it: [set_alias] raises instead of
    returning failure whenever an instrument it passes has a field that is
    [None].  The scan below makes an instrument without model and serial
    number; a call for another vendor passes it and returns -1. *)
Lemma set_alias_passes_none :
  upyvisa.find_instruments [] [("GPIB0::5::INSTR", upyvisa.Idn "ACME-PSU-1")]
  = [Instrument.mk "GPIB0::5::INSTR" VISA (Some "ACME-PSU-1") None None None]
  /\ upyvisa.set_alias
       (upyvisa.find_instruments [] [("GPIB0::5::INSTR", upyvisa.Idn "ACME-PSU-1")])
       "psu" "Keysight" "E36312A" "MY5900"
     = (Ok (-1)%Z,
        [Instrument.mk "GPIB0::5::INSTR" VISA (Some "ACME-PSU-1") None None None]).
Proof. split; reflexivity. Qed.

End Registry.

(** ** Dispatch (C2, C3, C10) *)

Section Dispatch.

(** *** What goes over the bus *)

Lemma issued_nothing (b : bus) : issued b b [].
Proof. split; [symmetry; apply app_nil_r | reflexivity]. Qed.

Lemma issued_trans (b1 b2 b3 : bus) (c1 c2 : list io_call) :
  issued b1 b2 c1 -> issued b2 b3 c2 -> issued b1 b3 (c1 ++ c2)%list.
Proof.
  intros [H1 D1] [H2 D2]. split; [| congruence].
  rewrite H2, H1. symmetry. apply app_assoc.
Qed.

Lemma carries_more what (i : Instrument.t) (self : upyvisa.collection) alias cmd c :
  carries what self alias cmd c -> carries what (i :: self) alias cmd c.
Proof.
  intros (H1 & H2 & j & Hj & Hj'). repeat split; auto.
  exists j. split; [right; exact Hj | exact Hj'].
Qed.

Lemma instrument_query_issues (i : Instrument.t) (cmd : string) (b : bus) :
  issued b (snd (Instrument.query i cmd b))
         [mkCall IoQuery (Instrument.visa_name i) (Instrument.dev_kind i) cmd].
Proof.
  unfold Instrument.query, iobind, exchange. simpl.
  destruct (device b (history b) _); split; reflexivity.
Qed.

Lemma instrument_write_issues (i : Instrument.t) (cmd : string) (b : bus) :
  issued b (snd (Instrument.write i cmd b))
         [mkCall IoWrite (Instrument.visa_name i) (Instrument.dev_kind i) cmd].
Proof.
  unfold Instrument.write, iobind, exchange. simpl.
  destruct (device b (history b) _); split; reflexivity.
Qed.

Lemma query_from_issues (self : upyvisa.collection) (alias cmd : string) :
  forall acc b,
  exists calls,
    issued b (snd (upyvisa.query_from self alias cmd acc b)) calls
    /\ Forall (carries IoQuery self alias cmd) calls.
Proof.
  induction self as [| i self IH]; intros acc b; cbn [upyvisa.query_from].
  - exists []. split; [apply issued_nothing | constructor].
  - destruct (upyvisa.answers_to alias i) eqn:A.
    + pose proof (instrument_query_issues i cmd b) as Hq.
      unfold iobind. destruct (Instrument.query i cmd b) as [[r | e] b1]; simpl in Hq.
      * destruct (IH (r ++ acc) b1) as (calls & Hc & Hf).
        eexists. split; [eapply issued_trans; eassumption |].
        constructor.
        -- repeat split. exists i. repeat split; [left; reflexivity | exact A].
        -- eapply Forall_impl; [| exact Hf]. intros c. apply carries_more.
      * eexists. split; [exact Hq |]. constructor; [| constructor].
        repeat split. exists i. repeat split; [left; reflexivity | exact A].
    + destruct (IH acc b) as (calls & Hc & Hf).
      exists calls. split; [exact Hc |].
      eapply Forall_impl; [| exact Hf]. intros c. apply carries_more.
Qed.

Lemma write_issues (self : upyvisa.collection) (alias cmd : string) (b : bus) :
  exists calls,
    issued b (snd (upyvisa.write self alias cmd b)) calls
    /\ Forall (carries IoWrite self alias cmd) calls.
Proof.
  induction self as [| i self IH]; cbn [upyvisa.write].
  - exists []. split; [apply issued_nothing | constructor].
  - destruct (upyvisa.answers_to alias i) eqn:A.
    + eexists. split; [apply instrument_write_issues |].
      constructor; [| constructor].
      repeat split. exists i. repeat split; [left; reflexivity | exact A].
    + destruct IH as (calls & Hc & Hf).
      exists calls. split; [exact Hc |].
      eapply Forall_impl; [| exact Hf]. intros c. apply carries_more.
Qed.


Lemma filter_first {A} (f : A -> bool) (l : list A) :
  find f l = hd_error (filter f l).
Proof.
  induction l as [| x l IH]; cbn [find filter]; [reflexivity |].
  destruct (f x); [reflexivity | exact IH].
Qed.



(** *** Building the command *)

Lemma parse_template_plain (v : string) :
  char_in "\" v = false -> Re.parse_template v = Ok (plain v).
Proof.
  unfold Re.parse_template.
  induction v as [| c v IH]; cbn [char_in plain Re.parse_template_from];
    intros H; [reflexivity |].
  apply orb_false_iff in H. destruct H as [Hc Hv].
  rewrite Hc, (IH Hv). reflexivity.
Qed.

Lemma expand_plain (v matched : string) : Re.expand (plain v) matched = v.
Proof. induction v as [| c v IH]; simpl; [| rewrite IH]; reflexivity. Qed.

Lemma sub_tokens_plain (v : string) (ts : list Re.token) :
  Re.sub_tokens (plain v) ts = fill_with v ts.
Proof.
  induction ts as [| [c | inner] ts IH]; simpl; [reflexivity | |];
    rewrite IH, ?expand_plain; reflexivity.
Qed.

Lemma fill_with_nothing (v : string) (ts : list Re.token) :
  existsb Re.is_placeholder ts = false -> fill_with v ts = text ts.
Proof.
  induction ts as [| [c | inner] ts IH]; simpl; intros H;
    [reflexivity | rewrite (IH H); reflexivity | discriminate].
Qed.

Lemma substitute_needs_values (d : ParamDef.t) (defs : list ParamDef.t) (values : dict)
  (cmd w : string) :
  routes.substitute (d :: defs) values cmd = Ok (routes.Command w) ->
  values <> [].
Proof.
  intros H ->. simpl in H. discriminate.
Qed.

(** C3, as amended.  With at least one parameter defined and the named
    substitutions done, giving the working command [w]: the map of values
    is not empty; if a placeholder is left in [w], every placeholder of [w]
    is replaced by the trimmed first value of the map, in insertion order
    (for a first value without a backslash); if none is left, [w] is the
    command.  The step for left-over placeholders leaves [w] as it is when
    the map is empty. *)
Theorem leftover_placeholders (param_defs : list ParamDef.t) (values : dict) (cmd w : string) :
  param_defs <> [] ->
  routes.substitute param_defs values cmd = Ok (routes.Command w) ->
  (exists k first rest,
      values = (k, first) :: rest
      /\ (Re.search_placeholder w = true ->
          char_in "\" (strip first) = false ->
          routes.build param_defs values cmd
          = Ok (routes.Command (fill_with (strip first) (Re.placeholders w))))
      /\ (Re.search_placeholder w = false ->
          routes.build param_defs values cmd = Ok (routes.Command w)))
  /\ routes.fill_leftover [] w = Ok w.
Proof.
  intros Hne Hs. split.
  - destruct param_defs as [| d defs]; [congruence |].
    pose proof (substitute_needs_values d defs values cmd w Hs) as Hv.
    destruct values as [| [k first] rest]; [congruence |].
    exists k, first, rest. split; [reflexivity |].
    unfold routes.build. rewrite Hs. cbn [bind]. unfold routes.fill_leftover.
    split; intros Hp.
    + intros Hb. rewrite Hp. unfold Re.sub_placeholders.
      rewrite (parse_template_plain _ Hb). cbn [bind].
      rewrite sub_tokens_plain. reflexivity.
    + rewrite Hp. reflexivity.
  - unfold routes.fill_leftover. destruct (Re.search_placeholder w); reflexivity.
Qed.

Lemma leftover_placeholders_witness :
  routes.build [ParamDef.mk "range" FREE [] ""] [("range", " 10 "); ("unit", "V")]
               "SENS:RANGE {value} {unit}"
  = Ok (routes.Command "SENS:RANGE 10 10").
Proof.
  destruct (leftover_placeholders
              [ParamDef.mk "range" FREE [] ""] [("range", " 10 "); ("unit", "V")]
              "SENS:RANGE {value} {unit}" "SENS:RANGE {value} {unit}")
    as [(k & first & rest & E & H & _) _].
  - discriminate.
  - reflexivity.
  - inversion E; subst. apply H; reflexivity.
Defined.

(** C3 as the specification has it: the placeholders left over are
    replaced by the first value of the map.  The first value below is
    " 10 "; the command written has "10". *)
Lemma leftover_gets_trimmed_value :
  routes.substitute [ParamDef.mk "range" FREE [] ""] [("range", " 10 ")]
                    "SENS:RANGE {value}"
  = Ok (routes.Command "SENS:RANGE {value}")
  /\ routes.build [ParamDef.mk "range" FREE [] ""] [("range", " 10 ")]
                  "SENS:RANGE {value}"
     = Ok (routes.Command "SENS:RANGE 10")
  /\ fst (routes.api_run bench_defs
             (mkRun "psu" "RANGE" (Values [("range", " 10 ")]) "") bench)
     = Ran SET "SENS:RANGE 10" ""
  /\ fill_with " 10 " (Re.placeholders "SENS:RANGE {value}") = "SENS:RANGE  10 "
  /\ "SENS:RANGE 10" <> fill_with " 10 " (Re.placeholders "SENS:RANGE {value}").
Proof. repeat split. discriminate. Qed.

(** What [api_run] sends is the command built. *)
Lemma run_command_built (instruments : upyvisa.collection) (alias : string)
  (c : ScpiCommand.t) (param_defs : list ParamDef.t) (values : dict) (cmd' : string) :
  param_defs <> [] ->
  routes.build param_defs values (strip (ScpiCommand.cmd c)) = Ok (routes.Command cmd') ->
  routes.run_command instruments alias c param_defs values
  = match ScpiCommand.mode c with
    | GET => resp <- upyvisa.query instruments alias cmd' ;; ret (Ran GET cmd' resp)
    | SET => _ <- upyvisa.write instruments alias cmd' ;; ret (Ran SET cmd' EmptyString)
    end.
Proof.
  intros Hne Hb. unfold routes.run_command.
  destruct param_defs as [| d defs]; [congruence |].
  destruct (ScpiCommand.mode c); rewrite Hb; reflexivity.
Qed.

(** *** Missing values *)

Lemma substitute_missing (param_defs : list ParamDef.t) (values : dict) :
  existsb (lacks values) param_defs = true ->
  forall cmd,
    match routes.substitute param_defs values cmd with
    | Ok (routes.Command _) => False
    | Ok (routes.Missing p) =>
        exists d, In d param_defs /\ lacks values d = true /\ ParamDef.name d = p
    | Raise _ => True
    end.
Proof.
  induction param_defs as [| d defs IH]; simpl; intros H cmd; [discriminate |].
  unfold lacks in H at 1.
  destruct (routes.dict_get values (ParamDef.name d)) as [raw |] eqn:G.
  - destruct (String.eqb (strip raw) EmptyString) eqn:B.
    + exists d. unfold lacks. rewrite G, B. auto.
    + simpl in H.
      destruct (match ParamDef.kind d with FREE => _ | OPTIONS => _ end) as [v | e];
        cbn [bind]; [| exact I].
      destruct (Re.sub_named (ParamDef.name d) v cmd) as [cmd' | e]; simpl; [| exact I].
      specialize (IH H cmd').
      destruct (routes.substitute defs values cmd') as [[p | c] | e]; auto.
      destruct IH as (d' & Hin & Hd'). exists d'. auto.
  - exists d. unfold lacks. rewrite G. auto.
Qed.

(** With a parameter whose value is absent or blank, [api_run] refuses
    the request, with status 400 and the name of such a parameter or with
    status 500, and does not touch the bus or the collection. *)
Lemma run_command_missing (instruments : upyvisa.collection) (alias : string)
  (c : ScpiCommand.t) (param_defs : list ParamDef.t) (values : dict) (b : bus) :
  existsb (lacks values) param_defs = true ->
  exists status err,
    routes.catching (routes.run_command instruments alias c param_defs values) b
    = (Refused status err, b)
    /\ (status = 400
        /\ (exists d, In d param_defs /\ lacks values d = true
                      /\ err = MissingValue (ParamDef.name d))
        \/ status = 500 /\ exists e, err = Exception e).
Proof.
  intros H.
  destruct param_defs as [| d defs]; [discriminate |].
  pose proof (substitute_missing (d :: defs) values H (strip (ScpiCommand.cmd c))) as S.
  assert (B : routes.build (d :: defs) values (strip (ScpiCommand.cmd c))
              = routes.substitute (d :: defs) values (strip (ScpiCommand.cmd c))).
  { unfold routes.build.
    destruct (routes.substitute (d :: defs) values (strip (ScpiCommand.cmd c)))
      as [[p | w] | e]; [reflexivity | destruct S | reflexivity]. }
  assert (R : routes.catching
                (routes.run_command instruments alias c (d :: defs) values) b
              = match routes.substitute (d :: defs) values (strip (ScpiCommand.cmd c)) with
                | Ok (routes.Missing p) => (Refused 400 (MissingValue p), b)
                | Ok (routes.Command w) => (Refused 400 AliasNotFound, b)
                | Raise e => (Refused 500 (Exception e), b)
                end).
  { unfold routes.catching, routes.run_command.
    destruct (ScpiCommand.mode c); unfold iobind; rewrite B;
      destruct (routes.substitute (d :: defs) values (strip (ScpiCommand.cmd c)))
        as [[p | w] | e]; try destruct S; reflexivity. }
  rewrite R.
  destruct (routes.substitute (d :: defs) values (strip (ScpiCommand.cmd c)))
    as [[p | w] | e]; [| destruct S |].
  - destruct S as (d' & Hin & Hl & <-).
    exists 400, (MissingValue (ParamDef.name d')). split; [reflexivity |].
    left. split; [reflexivity |]. exists d'. auto.
  - exists 500, (Exception e). split; [reflexivity |].
    right. split; [reflexivity |]. exists e. reflexivity.
Qed.

Lemma api_run_missing (SCPI_DEFS : catalog) (data : run_request) (s : server)
  (inst : Instrument.t) (c : ScpiCommand.t) (values : dict) :
  strip (run_alias data) <> "" -> strip (run_name data) <> "" ->
  routes.find_alias (mgr s) (strip (run_alias data)) = Some inst ->
  routes.find_command (routes.defs_get SCPI_DEFS (Instrument.model inst))
                      (strip (run_name data)) = Some c ->
  routes.default_values (run_values data) (strip (run_value data))
                        (app.parse_param_defs (ScpiCommand.parameters_raw c) (ScpiCommand.cmd c))
  = Values values ->
  existsb (lacks values) (app.parse_param_defs (ScpiCommand.parameters_raw c) (ScpiCommand.cmd c)) = true ->
  exists status err,
    routes.api_run SCPI_DEFS data s = (Refused status err, s)
    /\ (status = 400
        /\ (exists d, In d (app.parse_param_defs (ScpiCommand.parameters_raw c) (ScpiCommand.cmd c))
                      /\ lacks values d = true /\ err = MissingValue (ParamDef.name d))
        \/ status = 500 /\ exists e, err = Exception e).
Proof.
  intros Ha Hn Hi Hc Hv Hl.
  destruct (run_command_missing (mgr s) (strip (run_alias data)) c _ values (wire s) Hl)
    as (status & err & E & D).
  exists status, err. split; [| exact D].
  unfold routes.api_run.
  rewrite (proj2 (truthy_true _) Ha), (proj2 (truthy_true _) Hn). cbn [negb orb].
  rewrite Hi, Hc. cbv zeta. rewrite Hv, E. destruct s; reflexivity.
Qed.

Lemma format_fixed_no_backslash (x : PyFloat.pyfloat) (k : nat) :
  char_in "\" (PyFloat.format_fixed x k) = false.
Proof.
  assert (D : forall n, char_in "\" (PyFloat.digits n) = false).
  { intros n. apply digits_no_char; [reflexivity |].
    apply (digits_fuel_digits (Z.to_nat (Z.log2 n)) n). }
  destruct x as [| [|] | neg m e]; try reflexivity.
  unfold PyFloat.format_fixed.
  assert (B : forall body, char_in "\" body = false ->
                           char_in "\" (if neg then String "-" body else body) = false).
  { intros body H. destruct neg; [simpl; exact H | exact H]. }
  apply B. destruct k as [| k]; [apply D |].
  set (p := (10 ^ Z.of_nat (S k))%Z).
  set (r := PyFloat.scaled_round m e (S k)).
  change ("." ++ PyFloat.digits_fixed (S k) (r mod p))
    with (String "." (PyFloat.digits_fixed (S k) (r mod p))).
  rewrite char_in_app, D. cbn [char_in orb]. 
  replace (Ascii.eqb "." "\") with false by reflexivity. cbn [orb].
  apply digits_no_char; [reflexivity |].
  apply (digits_fixed_digits (S k) (r mod p)).
Qed.

Lemma apply_format_spec_no_backslash (v fmt v' : string) :
  char_in "\" v = false -> app._apply_format_spec v fmt = Ok v' ->
  char_in "\" v' = false.
Proof.
  intros H. unfold app._apply_format_spec.
  destruct (negb (truthy fmt)); [intros E; inversion E; subst; exact H |].
  destruct (app.match_decimals (strip fmt)) as [[n digits] |];
    [| intros E; inversion E; subst; exact H].
  destruct (app.int_group1 n digits) as [k | e]; cbn [bind]; [| discriminate].
  destruct (PyFloat.float v); [| intros E; inversion E; subst; exact H].
  unfold PyFloat.format_f. destruct (PyFloat.max_precision <? k)%Z; [discriminate |].
  intros E; inversion E; subst. apply format_fixed_no_backslash.
Qed.

(** What [_apply_format_spec] raises is [ValueError]. *)
Lemma apply_format_spec_raise (v fmt : string) (e : exn) :
  app._apply_format_spec v fmt = Raise e -> e = ValueError.
Proof.
  unfold app._apply_format_spec.
  destruct (negb (truthy fmt)); [discriminate |].
  destruct (app.match_decimals (strip fmt)) as [[n digits] |]; [| discriminate].
  unfold app.int_group1.
  destruct (Nat.ltb max_str_digits digits); cbn [bind];
    [intros E; inversion E; reflexivity |].
  destruct (PyFloat.float v); [| discriminate].
  unfold PyFloat.format_f. destruct (PyFloat.max_precision <? n)%Z;
    [intros E; inversion E; reflexivity | discriminate].
Qed.

Lemma dict_get_in (values : dict) (k v : string) :
  routes.dict_get values k = Some v -> In v (map snd values).
Proof.
  induction values as [| [k' v'] values IH]; simpl; [discriminate |].
  destruct (String.eqb k' k); intros H; [inversion H; auto | right; auto].
Qed.

(** When no value holds a backslash, the first parameter in parse order
    whose value is absent or blank is the one reported, unless the
    formatting of a value before it raises. *)
Lemma substitute_reports_first (values : dict) :
  Forall (fun v => char_in "\" v = false) (map snd values) ->
  forall param_defs d cmd,
    find (lacks values) param_defs = Some d ->
    routes.substitute param_defs values cmd = Ok (routes.Missing (ParamDef.name d))
    \/ routes.substitute param_defs values cmd = Raise ValueError.
Proof.
  intros Hplain. rewrite Forall_forall in Hplain.
  induction param_defs as [| d0 defs IH]; simpl; intros d cmd H; [discriminate |].
  unfold lacks in H at 1.
  destruct (routes.dict_get values (ParamDef.name d0)) as [raw |] eqn:G.
  - destruct (String.eqb (strip raw) EmptyString) eqn:B.
    + inversion H; subst. left. reflexivity.
    + assert (P : char_in "\" (strip raw) = false).
      { rewrite char_in_strip by reflexivity. apply Hplain.
        eapply dict_get_in, G. }
      unfold Re.sub_named.
      assert (T : forall v, char_in "\" v = false ->
                            Re.parse_template v = Ok (plain v))
        by apply parse_template_plain.
      destruct (ParamDef.kind d0); cbn [bind].
      * destruct (app._apply_format_spec (strip raw) (ParamDef.format_spec d0))
          as [v' | e] eqn:F; cbn [bind].
        -- rewrite (T _ (apply_format_spec_no_backslash _ _ _ P F)). cbn [bind].
           apply IH, H.
        -- right. rewrite (apply_format_spec_raise _ _ _ F). reflexivity.
      * rewrite (T _ P). cbn [bind]. apply IH, H.
  - inversion H; subst. left. reflexivity.
Qed.

(** *** On a bench *)

(** The end-to-end example of the specification *)
Example api_run_setv :
  routes.api_run bench_defs (mkRun "psu" "setv" NoValues "3.3") bench
  = (Ran SET "VOLT 3.3" "",
     mkServer (mgr bench)
              (mkBus [mkCall IoWrite "GPIB0::5::INSTR" VISA "VOLT 3.3"] bench_device)).
Proof. reflexivity. Qed.

(** With both values the command is built and written. *)
Example api_run_apply :
  fst (routes.api_run bench_defs
         (mkRun "psu" "APPLY" (Values [("V", "5"); ("I", "0.1")]) "") bench)
  = Ran SET "APPL 5,0.1" "".
Proof. reflexivity. Qed.

(** Without a value for I the request is refused and the bus is idle. *)
Example api_run_apply_missing :
  routes.api_run bench_defs (mkRun "psu" "APPLY" (Values [("V", "5")]) "") bench
  = (Refused 400 (MissingValue "I"), bench).
Proof. reflexivity. Qed.

(** C2: where the program departs from it.  The value of I is absent in
    both requests.  With "5" for V, which comes first, the request is
    refused for the missing value of I, as C2 says.  With a single
    backslash for V, [re.sub] reads the value as a replacement template and
    raises before I is looked at: the request is answered with status 500
    and the exception, and the missing value is not reported.  Nothing
    goes over the bus in either case. *)
Lemma api_run_backslash_hides_missing :
  lacks [("V", "\")] (ParamDef.mk "I" FREE [] "") = true
  /\ routes.api_run bench_defs (mkRun "psu" "APPLY" (Values [("V", "5")]) "") bench
     = (Refused 400 (MissingValue "I"), bench)
  /\ routes.api_run bench_defs (mkRun "psu" "APPLY" (Values [("V", "\")]) "") bench
     = (Refused 500 (Exception ReError), bench).
Proof.
  split; [reflexivity |]. split.
  - reflexivity.
  - unfold routes.api_run. cbn. reflexivity.
Qed.


End Dispatch.

(* ================================================================== *)
(** ** More on the string methods and on lists *)
(* ================================================================== *)

Section StripFacts.

Lemma rstrip_idempotent (s : string) : rstrip (rstrip s) = rstrip s.
Proof.
  induction s as [| c s IH]; [reflexivity |].
  cbn [rstrip]. destruct (rstrip s) as [| a t] eqn:E.
  - destruct (is_space c) eqn:Hc; [reflexivity |].
    cbn [rstrip]. rewrite Hc. reflexivity.
  - cbn [rstrip]. cbn [rstrip] in IH.
    destruct (match rstrip t with
              | "" => if is_space a then "" else String a ""
              | String a0 s0 => String a (String a0 s0)
              end) eqn:E2; [discriminate IH | rewrite IH; reflexivity].
Qed.

Lemma rstrip_head (c : ascii) (r : string) :
  is_space c = false -> exists r', rstrip (String c r) = String c r'.
Proof.
  intros Hc. cbn [rstrip]. destruct (rstrip r); [rewrite Hc |]; eauto.
Qed.

Lemma lstrip_head (s : string) :
  match lstrip s with
  | String c _ => is_space c = false
  | EmptyString => True
  end.
Proof.
  induction s as [| c s IH]; simpl; [exact I |].
  destruct (is_space c) eqn:Hc; [exact IH | exact Hc].
Qed.

(** Trimming what is trimmed changes nothing. *)
Lemma strip_idempotent (s : string) : strip (strip s) = strip s.
Proof.
  unfold strip. pose proof (lstrip_head s) as H.
  destruct (lstrip s) as [| c r]; [reflexivity |].
  destruct (rstrip_head c r H) as [r' E].
  rewrite E. cbn [lstrip]. rewrite H, <- E. apply rstrip_idempotent.
Qed.

Lemma split_whole (c : ascii) (s : string) :
  char_in c s = false -> split c s = [s].
Proof.
  induction s as [| a r IH]; cbn [split char_in]; intros H; [reflexivity |].
  apply orb_false_iff in H. destruct H as [Ha Hr]. rewrite Ha, (IH Hr). reflexivity.
Qed.

Lemma find_ext {A} (f g : A -> bool) (l : list A) :
  Forall (fun x => f x = g x) l -> find f l = find g l.
Proof.
  induction 1 as [| x l Hx _ IH]; simpl; [reflexivity |].
  rewrite Hx, IH. reflexivity.
Qed.

Lemma find_nobody {A} (f : A -> bool) (l : list A) :
  Forall (fun x => f x = false) l -> find f l = None.
Proof.
  induction 1 as [| x l Hx _ IH]; simpl; [reflexivity |]. rewrite Hx. exact IH.
Qed.

Lemma find_last {A} (f : A -> bool) (l : list A) :
  match find f (rev l) with
  | Some x =>
      exists before after,
        l = (before ++ x :: after)%list /\ f x = true
        /\ Forall (fun y => f y = false) after
  | None => Forall (fun y => f y = false) l
  end.
Proof.
  induction l as [| a l IH] using rev_ind; [constructor |].
  rewrite rev_unit. cbn [find]. destruct (f a) eqn:Fa.
  - exists l, []. repeat split; [exact Fa | constructor].
  - destruct (find f (rev l)) as [x |].
    + destruct IH as (before & after & -> & Hx & Hafter).
      exists before, (after ++ [a])%list. rewrite <- app_assoc. repeat split; auto.
      apply Forall_app. split; [exact Hafter | repeat constructor; exact Fa].
    + apply Forall_app. split; [exact IH | repeat constructor; exact Fa].
Qed.

End StripFacts.

(* ================================================================== *)
(** ** More on the registry *)
(* ================================================================== *)

Section RegistryMore.

(** *** [write] *)

Lemma instrument_write_bus (i : Instrument.t) (cmd : string) (b : bus) :
  snd (Instrument.write i cmd b)
  = mkBus (history b ++ [call_to IoWrite cmd i])%list (device b).
Proof.
  unfold Instrument.write, iobind, exchange, call_to. simpl.
  destruct (device b (history b) _); reflexivity.
Qed.

Lemma instrument_write_raise (i : Instrument.t) (cmd : string) (b b' : bus) (e : exn) :
  Instrument.write i cmd b = (Raise e, b') ->
  e = VisaIOError /\ ends_in_failure b b'.
Proof.
  unfold Instrument.write, iobind, exchange, ret, raise.
  destruct (device b (history b) _) eqn:D; intros H; inversion H; subst.
  split; [reflexivity |]. exists [], (call_to IoWrite cmd i).
  simpl. rewrite app_nil_r. auto.
Qed.

Lemma write_bus (self : upyvisa.collection) (alias cmd : string) (b : bus) :
  snd (upyvisa.write self alias cmd b)
  = match find (upyvisa.answers_to alias) self with
    | Some i => mkBus (history b ++ [call_to IoWrite cmd i])%list (device b)
    | None => b
    end.
Proof.
  induction self as [| i self IH]; cbn [find upyvisa.write]; [reflexivity |].
  destruct (upyvisa.answers_to alias i); [apply instrument_write_bus | exact IH].
Qed.

Lemma write_raise (self : upyvisa.collection) (alias cmd : string) (b b' : bus)
  (e : exn) :
  upyvisa.write self alias cmd b = (Raise e, b') ->
  e = VisaIOError /\ ends_in_failure b b'.
Proof.
  induction self as [| i self IH]; cbn [upyvisa.write]; [discriminate |].
  destruct (upyvisa.answers_to alias i); [apply instrument_write_raise | exact IH].
Qed.

(** X1. [write] sends the command to the first instrument, in the order of
    the collection, that answers to the alias, and to no other: one write
    exchange goes over the bus, and [write] raises exactly when that
    exchange fails otherwise than by a timeout.  When no instrument
    answers, nothing goes over the bus and [write] returns. *)
Theorem write_first (self : upyvisa.collection) (alias cmd : string) (b : bus) :
  match find (upyvisa.answers_to alias) self with
  | Some i =>
      snd (upyvisa.write self alias cmd b)
      = mkBus (history b ++ [call_to IoWrite cmd i])%list (device b)
      /\ fst (upyvisa.write self alias cmd b)
         = match device b (history b) (call_to IoWrite cmd i) with
           | Failure => Raise VisaIOError
           | _ => Ok tt
           end
  | None => upyvisa.write self alias cmd b = (Ok tt, b)
  end.
Proof.
  induction self as [| i self IH]; cbn [find upyvisa.write]; [reflexivity |].
  destruct (upyvisa.answers_to alias i); [| exact IH].
  split; [apply instrument_write_bus |].
  unfold Instrument.write, iobind, exchange, call_to. simpl.
  destruct (device b (history b) _); reflexivity.
Qed.

(** *** [query] *)

Lemma instrument_query_bus (i : Instrument.t) (cmd : string) (b : bus) :
  snd (Instrument.query i cmd b)
  = mkBus (history b ++ [call_to IoQuery cmd i])%list (device b).
Proof.
  unfold Instrument.query, iobind, exchange, call_to. simpl.
  destruct (device b (history b) _); reflexivity.
Qed.

Lemma instrument_query_raise (i : Instrument.t) (cmd : string) (b b' : bus) (e : exn) :
  Instrument.query i cmd b = (Raise e, b') ->
  e = VisaIOError /\ ends_in_failure b b'.
Proof.
  unfold Instrument.query, iobind, exchange, ret, raise.
  destruct (device b (history b) _) eqn:D; intros H; inversion H; subst.
  split; [reflexivity |]. exists [], (call_to IoQuery cmd i).
  simpl. rewrite app_nil_r. auto.
Qed.

Lemma query_each_bus (targets : list Instrument.t) (cmd : string) :
  forall b,
    match query_each targets cmd b with
    | (Ok rs, b') =>
        List.length rs = List.length targets
        /\ b' = mkBus (history b ++ map (call_to IoQuery cmd) targets)%list (device b)
    | (Raise e, b') =>
        exists n, n < List.length targets
                  /\ b' = mkBus (history b
                                 ++ map (call_to IoQuery cmd) (firstn (S n) targets))%list
                                (device b)
    end.
Proof.
  induction targets as [| i targets IH]; intros b; cbn [query_each].
  - unfold ret. split; [reflexivity |]. simpl. rewrite app_nil_r.
    destruct b; reflexivity.
  - unfold iobind. pose proof (instrument_query_bus i cmd b) as Hq.
    destruct (Instrument.query i cmd b) as [[r | e] b1]; simpl in Hq; subst b1.
    + specialize (IH (mkBus (history b ++ [call_to IoQuery cmd i])%list (device b))).
      destruct (query_each targets cmd _) as [[rs | e] b2].
      * destruct IH as [Hl ->]. unfold ret. simpl. split; [lia |].
        rewrite <- app_assoc. reflexivity.
      * destruct IH as (n & Hn & ->). exists (S n). simpl. split; [lia |].
        rewrite <- app_assoc. reflexivity.
    + exists 0. simpl. split; [lia | reflexivity].
Qed.

Lemma query_each_raise (targets : list Instrument.t) (cmd : string) (e : exn) :
  forall b b',
    query_each targets cmd b = (Raise e, b') ->
    e = VisaIOError /\ ends_in_failure b b'.
Proof.
  induction targets as [| i targets IH]; intros b b'; cbn [query_each];
    [discriminate |].
  unfold iobind at 1.
  pose proof (instrument_query_bus i cmd b) as Hb.
  destruct (Instrument.query i cmd b) as [[r | e0] b1] eqn:Q.
  - cbn [snd] in Hb. unfold iobind, ret.
    destruct (query_each targets cmd b1) as [[rs | e1] b2] eqn:R; [discriminate |].
    intros H. inversion H; subst e1 b2.
    destruct (IH _ _ R) as [-> (calls & c & Hh & Hd & Hf)].
    split; [reflexivity |]. subst b1. cbn [history device] in *.
    exists (call_to IoQuery cmd i :: calls), c.
    rewrite <- app_assoc in Hh, Hf. auto.
  - intros H. inversion H; subst. eapply instrument_query_raise, Q.
Qed.

Lemma query_bus (self : upyvisa.collection) (alias cmd resp : string) (b b' : bus) :
  upyvisa.query self alias cmd b = (Ok resp, b') ->
  b' = mkBus (history b
              ++ map (call_to IoQuery cmd) (filter (upyvisa.answers_to alias) self))%list
             (device b).
Proof.
  unfold upyvisa.query. rewrite query_from_each.
  pose proof (query_each_bus (filter (upyvisa.answers_to alias) self) cmd b) as H.
  destruct (query_each _ cmd b) as [[rs | e] b0]; [| discriminate].
  intros E. inversion E; subst. apply H.
Qed.

Lemma query_raise (self : upyvisa.collection) (alias cmd : string) (b b' : bus)
  (e : exn) :
  upyvisa.query self alias cmd b = (Raise e, b') ->
  e = VisaIOError /\ ends_in_failure b b'.
Proof.
  unfold upyvisa.query. rewrite query_from_each.
  destruct (query_each _ cmd b) as [[rs | e0] b0] eqn:Q; [discriminate |].
  intros H. inversion H; subst. eapply query_each_raise, Q.
Qed.

(** X2. [query] sends the command once to each instrument that answers to
    the alias, in the order of the collection, until one fails: when it
    returns, the exchanges added to the bus are the queries to all of
    them; when it raises, they are the queries to the first ones up to the
    one that failed. *)
Theorem query_exchanges (self : upyvisa.collection) (alias cmd : string) (b : bus) :
  let targets := filter (upyvisa.answers_to alias) self in
  match upyvisa.query self alias cmd b with
  | (Ok _, b') =>
      b' = mkBus (history b ++ map (call_to IoQuery cmd) targets)%list (device b)
  | (Raise e, b') =>
      exists n, n < List.length targets
                /\ b' = mkBus (history b
                               ++ map (call_to IoQuery cmd) (firstn (S n) targets))%list
                              (device b)
  end.
Proof.
  intros targets. unfold upyvisa.query. rewrite query_from_each. fold targets.
  pose proof (query_each_bus targets cmd b) as H.
  destruct (query_each targets cmd b) as [[rs | e] b']; [apply H | exact H].
Qed.

(** *** [set_alias] *)

Lemma set_alias_cases (self : upyvisa.collection) (alias vendor model serial : string) :
  match upyvisa.set_alias self alias vendor model serial with
  | (Ok z, new) =>
      (z = 1%Z
       /\ exists pre i post,
            self = (pre ++ i :: post)%list
            /\ new = (pre ++ upyvisa.with_alias i alias :: post)%list
            /\ Forall (fun j => upyvisa.identity_matches j vendor model serial
                                = Ok false) pre
            /\ upyvisa.identity_matches i vendor model serial = Ok true)
      \/ (z = (-1)%Z /\ new = self
          /\ Forall (fun j => upyvisa.identity_matches j vendor model serial
                              = Ok false) self)
  | (Raise e, new) => new = self
  end.
Proof.
  induction self as [| i self IH]; cbn [upyvisa.set_alias].
  - right. repeat split. constructor.
  - destruct (upyvisa.identity_matches i vendor model serial) as [[|] | e] eqn:M.
    + left. split; [reflexivity |]. exists [], i, self.
      repeat split; [constructor | exact M].
    + destruct (upyvisa.set_alias self alias vendor model serial) as [[z | e] new].
      * destruct IH as [[-> (pre & j & post & -> & -> & Hpre & Hj)] | [-> [-> Hall]]].
        -- left. split; [reflexivity |]. exists (i :: pre), j, post.
           repeat split; [constructor; assumption | exact Hj].
        -- right. repeat split. constructor; assumption.
      * subst new. reflexivity.
    + reflexivity.
Qed.

(** X3. What [set_alias] does to the collection.  It returns 1, -1 or
    raises.  When it returns 1, the instrument changed is the first whose
    vendor, model and serial number match, those before it do not match,
    and only its alias changes: every other instrument, the alias of each
    included, and the order stay.  When it returns -1 no instrument
    matches and the collection is unchanged, as it is when it raises. *)
Theorem set_alias_frame (self : upyvisa.collection) (alias vendor model serial : string) :
  let '(r, new) := upyvisa.set_alias self alias vendor model serial in
  List.length new = List.length self
  /\ match r with
     | Ok z =>
         (z = 1%Z
          /\ exists pre i post,
               self = (pre ++ i :: post)%list
               /\ new = (pre ++ upyvisa.with_alias i alias :: post)%list
               /\ Forall (fun j => upyvisa.identity_matches j vendor model serial
                                   = Ok false) pre
               /\ upyvisa.identity_matches i vendor model serial = Ok true)
         \/ (z = (-1)%Z /\ new = self
             /\ Forall (fun j => upyvisa.identity_matches j vendor model serial
                                 = Ok false) self)
     | Raise e => new = self
     end.
Proof.
  pose proof (set_alias_cases self alias vendor model serial) as C.
  destruct (upyvisa.set_alias self alias vendor model serial) as [[z | e] new].
  - split; [| exact C].
    destruct C as [[_ (pre & i & post & -> & -> & _)] | [_ [-> _]]]; [| reflexivity].
    rewrite !length_app. reflexivity.
  - split; [subst new; reflexivity | exact C].
Qed.

Lemma answers_to_with_alias (a alias : string) (i : Instrument.t) :
  upyvisa.answers_to a (upyvisa.with_alias i alias) = upyvisa.same_text alias a.
Proof. reflexivity. Qed.

(** X4. [set_alias] does not keep aliases apart: after a call that
    returned 1, the instruments that answer to an alias are those that
    answered to it before, the one changed left aside, and the one changed
    if the alias given equals it after trimming and case folding.  An
    alias that another instrument has already is then answered by both. *)
Theorem set_alias_shares (self : upyvisa.collection) (alias vendor model serial a : string) :
  fst (upyvisa.set_alias self alias vendor model serial) = Ok 1%Z ->
  exists pre i post,
    self = (pre ++ i :: post)%list
    /\ upyvisa.identity_matches i vendor model serial = Ok true
    /\ filter (upyvisa.answers_to a)
              (snd (upyvisa.set_alias self alias vendor model serial))
       = (filter (upyvisa.answers_to a) pre
          ++ (if upyvisa.same_text alias a then [upyvisa.with_alias i alias] else [])
          ++ filter (upyvisa.answers_to a) post)%list.
Proof.
  intros H. pose proof (set_alias_cases self alias vendor model serial) as F.
  destruct (upyvisa.set_alias self alias vendor model serial) as [[z | e] new];
    simpl in *; [| discriminate].
  inversion H; subst z.
  destruct F as [[_ (pre & i & post & -> & -> & _ & Hi)] | [Hz _]]; [| discriminate].
  exists pre, i, post. repeat split; [exact Hi |].
  rewrite filter_app. cbn [filter]. rewrite answers_to_with_alias.
  destruct (upyvisa.same_text alias a); reflexivity.
Qed.

Lemma set_alias_shares_witness :
  fst (upyvisa.set_alias bench_two "PSU " "rigol" " dm3058" "DM3O151200124")
  = Ok 1%Z
  /\ exists pre i post,
       bench_two = (pre ++ i :: post)%list
       /\ upyvisa.identity_matches i "rigol" " dm3058" "DM3O151200124" = Ok true
       /\ filter (upyvisa.answers_to "psu")
                 (snd (upyvisa.set_alias bench_two "PSU " "rigol" " dm3058"
                                         "DM3O151200124"))
          = (filter (upyvisa.answers_to "psu") pre
             ++ (if upyvisa.same_text "PSU " "psu"
                 then [upyvisa.with_alias i "PSU "] else [])
             ++ filter (upyvisa.answers_to "psu") post)%list.
Proof.
  split; [reflexivity |].
  apply (set_alias_shares bench_two "PSU " "rigol" " dm3058"
                          "DM3O151200124" "psu").
  reflexivity.
Defined.

(** Two instruments under one alias after [set_alias]: a query for "psu"
    reaches both. *)
Example set_alias_shared_alias :
  filter (upyvisa.answers_to "psu")
         (snd (upyvisa.set_alias bench_two "PSU " "rigol" " dm3058"
                                 "DM3O151200124"))
  = (mgr bench ++ [upyvisa.with_alias dmm "PSU "])%list.
Proof. reflexivity. Qed.

(** X5. In a collection where every instrument has a vendor, a model and a
    serial number, [set_alias] called with the vendor, model and serial
    number of one of them returns 1.  (The alias goes to the first
    instrument with those three.) *)
Theorem set_alias_own_identity (self : upyvisa.collection) (i : Instrument.t)
  (alias v m s : string) :
  Forall complete self -> In i self ->
  Instrument.vendor i = Some v -> Instrument.model i = Some m ->
  Instrument.serial i = Some s ->
  fst (upyvisa.set_alias self alias v m s) = Ok 1%Z.
Proof.
  intros Hc Hin Hv Hm Hs.
  induction Hc as [| j self Hj _ IH]; [destruct Hin |].
  cbn [upyvisa.set_alias].
  destruct (identity_matches_complete j v m s Hj) as [[|] M]; rewrite M.
  - reflexivity.
  - destruct Hin as [-> | Hin].
    + unfold upyvisa.identity_matches in M. rewrite Hv, Hm, Hs in M. simpl in M.
      rewrite !same_text_refl in M. discriminate.
    + specialize (IH Hin).
      destruct (upyvisa.set_alias self alias v m s). exact IH.
Qed.

Lemma set_alias_own_identity_witness :
  Forall complete bench_two /\ In dmm bench_two
  /\ fst (upyvisa.set_alias bench_two "meter"
                            "Rigol" "DM3058" "DM3O151200124") = Ok 1%Z.
Proof.
  assert (C : Forall complete bench_two)
    by (repeat constructor; discriminate).
  assert (M : In dmm bench_two) by (right; left; reflexivity).
  split; [exact C |]. split; [exact M |].
  apply (set_alias_own_identity bench_two dmm "meter"
                                "Rigol" "DM3058" "DM3O151200124" C M);
    reflexivity.
Defined.

(** *** Discovery *)

Lemma scan_loop_app (rs : list (string * upyvisa.idn)) :
  forall acc,
    fold_left upyvisa.scan_resource rs acc
    = (acc ++ fold_left upyvisa.scan_resource rs [])%list.
Proof.
  induction rs as [| res rs IH]; intros acc; cbn [fold_left].
  - symmetry. apply app_nil_r.
  - rewrite (IH (upyvisa.scan_resource acc res)),
            (IH (upyvisa.scan_resource [] res)).
    rewrite app_assoc. f_equal.
    destruct res as [r [response |]]; cbn [upyvisa.scan_resource];
      [| symmetry; apply app_nil_r].
    destruct (Nat.ltb 8 (String.length response)); [reflexivity |].
    symmetry. apply app_nil_r.
Qed.

Lemma scan_loop_names (rs : list (string * upyvisa.idn)) :
  map Instrument.visa_name (fold_left upyvisa.scan_resource rs [])
  = map fst (filter identified rs).
Proof.
  induction rs as [| [r o] rs IH]; cbn [fold_left filter]; [reflexivity |].
  rewrite scan_loop_app, map_app, IH. unfold identified at 2. cbn [snd].
  destruct o as [response |]; cbn [upyvisa.scan_resource]; [| reflexivity].
  destruct (Nat.ltb 8 (String.length response)); reflexivity.
Qed.

Lemma scan_loop_kinds (rs : list (string * upyvisa.idn)) :
  Forall (fun i => Instrument.dev_kind i
                   = if startswith "ASRL" (Instrument.visa_name i)
                     then SERIAL_115200_LF else VISA)
         (fold_left upyvisa.scan_resource rs []).
Proof.
  induction rs as [| [r o] rs IH]; cbn [fold_left]; [constructor |].
  rewrite scan_loop_app. apply Forall_app. split; [| exact IH].
  destruct o as [response |]; cbn [upyvisa.scan_resource]; [| constructor].
  destruct (Nat.ltb 8 (String.length response)); [| constructor].
  constructor; [reflexivity | constructor].
Qed.

(** X6. A scan makes one instrument for each resource that answered
    [*IDN?] with more than 8 characters, in the order of the listing, and
    none for the others; the instrument has the name of the resource, and
    the serial configuration exactly when that name starts with "ASRL". *)
Theorem find_instruments_listing
  (old : upyvisa.collection) (resources : list (string * upyvisa.idn)) :
  map Instrument.visa_name (upyvisa.find_instruments old resources)
  = map fst (filter identified resources)
  /\ Forall (fun i => Instrument.dev_kind i
                      = if startswith "ASRL" (Instrument.visa_name i)
                        then SERIAL_115200_LF else VISA)
            (upyvisa.find_instruments old resources).
Proof.
  unfold upyvisa.find_instruments. cbv zeta.
  split; [apply scan_loop_names | apply scan_loop_kinds].
Qed.

Lemma scan_resource_complete (res : string * upyvisa.idn) :
  Forall complete (upyvisa.scan_resource [] res) <-> three_parts res.
Proof.
  destruct res as [r [response |]]; unfold three_parts; cbn [snd upyvisa.scan_resource];
    [| split; [auto | constructor]].
  destruct (Nat.ltb 8 (String.length response)) eqn:L.
  - apply Nat.ltb_lt in L. cbn [List.app]. split.
    + intros H _. apply Forall_inv in H. destruct H as (_ & _ & Hs).
      cbn [Instrument.init Instrument.serial] in Hs.
      destruct (Nat.ltb 2 (List.length (upyvisa.idn_parts response))) eqn:P;
        [apply Nat.ltb_lt in P; lia | congruence].
    + intros H. specialize (H L). repeat constructor;
        cbn [Instrument.init Instrument.vendor Instrument.model Instrument.serial].
      * destruct (upyvisa.idn_parts response) as [| a l]; [simpl in H; lia | discriminate].
      * destruct (upyvisa.idn_parts response) as [| a [| b l]];
          [simpl in H; lia | simpl in H; lia | discriminate].
      * destruct (Nat.ltb 2 (List.length (upyvisa.idn_parts response))) eqn:P;
          [discriminate | apply Nat.ltb_ge in P; lia].
  - apply Nat.ltb_ge in L. split; [intros _ H; lia | constructor].
Qed.

Lemma scan_complete (rs : list (string * upyvisa.idn)) :
  Forall complete (fold_left upyvisa.scan_resource rs []) <-> Forall three_parts rs.
Proof.
  induction rs as [| res rs IH]; cbn [fold_left].
  - split; constructor.
  - rewrite scan_loop_app, Forall_app, scan_resource_complete, IH. split.
    + intros [A B]. constructor; assumption.
    + intros H. inversion H; subst. split; assumption.
Qed.

(** X7. After a scan every instrument has a vendor, a model and a serial
    number exactly when every identity response the scan made an
    instrument of has three parts or more; [set_alias] then returns 1 or
    -1 whatever it is called with, and never raises. *)
Theorem find_instruments_complete
  (old : upyvisa.collection) (resources : list (string * upyvisa.idn)) :
  (Forall complete (upyvisa.find_instruments old resources)
   <-> Forall three_parts resources)
  /\ (Forall three_parts resources ->
      forall alias vendor model serial,
        let r := fst (upyvisa.set_alias (upyvisa.find_instruments old resources)
                                        alias vendor model serial) in
        r = Ok 1%Z \/ r = Ok (-1)%Z).
Proof.
  unfold upyvisa.find_instruments. cbv zeta. split; [apply scan_complete |].
  intros H alias vendor model serial. apply scan_complete in H.
  destruct (set_alias_complete _ alias vendor model serial H) as [z Hz].
  pose proof (set_alias_cases (fold_left upyvisa.scan_resource resources [])
                              alias vendor model serial) as F.
  destruct (upyvisa.set_alias _ alias vendor model serial) as [[z' | e] new];
    simpl in *; [| discriminate].
  destruct F as [[-> _] | [-> _]]; auto.
Qed.

End RegistryMore.

(* ================================================================== *)
(** ** More on the parameter specification *)
(* ================================================================== *)

Section ParseMore.

Lemma options_are_texts (r : string) :
  Forall option_text (filter truthy (map strip (split ";" r))).
Proof.
  pose proof (split_pieces ";" r) as P.
  induction P as [| x l Hx _ IH]; simpl; [constructor |].
  destruct (truthy (strip x)) eqn:T; [| exact IH].
  constructor; [| exact IH]. split; [apply truthy_true, T |].
  split; [apply strip_idempotent |].
  rewrite char_in_strip by reflexivity. exact Hx.
Qed.

Lemma param_of_part_shape (p : string) :
  char_in "|" p = false ->
  let d := param_of_part (strip p) in
  param_shape d
  /\ char_in "|" (ParamDef.name d) = false /\ char_in ":" (ParamDef.name d) = false.
Proof.
  intros Hp. cbv zeta. unfold param_of_part.
  assert (Hb : char_in "|" (strip p) = false)
    by (rewrite char_in_strip by reflexivity; exact Hp).
  destruct (split_once ":" (strip p)) as [[l r] |] eqn:E.
  - apply split_once_some in E. destruct E as [E Hl].
    rewrite E, char_in_app in Hb. apply orb_false_iff in Hb. destruct Hb as [Hb _].
    destruct (char_in ";" (strip r)) eqn:S;
      rewrite (char_in_strip ";" r eq_refl) in S; unfold param_shape; simpl;
      rewrite !strip_idempotent, ?char_in_strip by reflexivity;
      repeat split; auto using options_are_texts.
  - apply split_once_none in E.
    unfold param_shape; simpl. rewrite strip_idempotent. repeat split; auto.
Qed.

(** X8. The parameters that [parse_param_defs] returns are well formed.
    Each has a trimmed name; a free parameter has no options and a
    trimmed format without a semicolon; a parameter of options has no
    format, and each of its options is trimmed, not empty and without a
    semicolon.  Read from a specification, a name holds no bar and no
    colon; read from the template, a parameter is free, without a format,
    and its name holds no closing brace. *)
Theorem parse_param_defs_shape (raw tpl : string) :
  Forall (fun d =>
            param_shape d
            /\ if names_no_spec (strip raw)
               then ParamDef.kind d = FREE /\ ParamDef.format_spec d = EmptyString
                    /\ char_in "}" (ParamDef.name d) = false
               else char_in "|" (ParamDef.name d) = false
                    /\ char_in ":" (ParamDef.name d) = false)
         (app.parse_param_defs raw tpl).
Proof.
  destruct (names_no_spec (strip raw)) eqn:N.
  - rewrite (parse_param_defs_absent raw tpl N).
    unfold Re.finditer_group1, Re.placeholders.
    pose proof (scan_well_formed tpl None I) as W.
    induction W as [| [c | inner] ts Ht _ IH]; simpl; [constructor | exact IH |].
    constructor; [| exact IH]. destruct Ht as [_ Ht].
    unfold param_shape; simpl. rewrite strip_idempotent.
    rewrite char_in_strip by reflexivity. repeat split; auto.
  - rewrite (parse_param_defs_given raw tpl N).
    pose proof (split_pieces "|" (strip raw)) as P.
    induction P as [| x l Hx _ IH]; simpl; [constructor |].
    destruct (truthy (strip x)); [| exact IH].
    constructor; [| exact IH]. apply (param_of_part_shape x Hx).
Qed.

(** X9. [_parse_parameter] reads a specification without a bar as
    [parse_param_defs] does: "options" and "free" with the options, name
    and format of the one parameter parsed.  Without a specification it
    looks at the first placeholder of the template only: "free" with the
    name of the first parameter parsed when that name is not empty,
    "none" when nothing is parsed or the first name is empty, and "none"
    in no other case. *)
Theorem parse_parameter_agrees (raw tpl : string) :
  char_in "|" raw = false ->
  let '(ty, opts, name, fmt) := app._parse_parameter raw tpl in
  let parsed := app.parse_param_defs raw tpl in
  match ty with
  | app.T_NONE =>
      opts = [] /\ name = EmptyString /\ fmt = EmptyString
      /\ names_no_spec (strip raw) = true
      /\ match parsed with
         | d :: _ => ParamDef.name d = EmptyString
         | [] => True
         end
  | app.T_FREE =>
      opts = []
      /\ hd_error parsed = Some (ParamDef.mk name FREE [] fmt)
      /\ (names_no_spec (strip raw) = false -> List.length parsed = 1)
      /\ (names_no_spec (strip raw) = true -> name <> EmptyString)
  | app.T_OPTIONS =>
      parsed = [ParamDef.mk name OPTIONS opts fmt]
      /\ names_no_spec (strip raw) = false
  end.
Proof.
  intros Hb. unfold app._parse_parameter. fold (names_no_spec (strip raw)).
  destruct (names_no_spec (strip raw)) eqn:N.
  - rewrite (parse_param_defs_absent raw tpl N).
    unfold app._first_placeholder_name.
    destruct (Re.finditer_group1 tpl) as [| g gs]; simpl; [auto |].
    destruct (truthy (strip g)) eqn:T; simpl.
    + repeat split; [discriminate |]. intros _. apply truthy_true, T.
    + repeat split. destruct (strip g); [reflexivity | discriminate].
  - rewrite (parse_param_defs_given raw tpl N).
    assert (Hs : char_in "|" (strip raw) = false)
      by (rewrite char_in_strip by reflexivity; exact Hb).
    rewrite (split_whole _ _ Hs). cbn [map filter]. rewrite strip_idempotent.
    assert (T : truthy (strip raw) = true).
    { unfold names_no_spec in N. destruct (strip raw); [discriminate | reflexivity]. }
    rewrite T. cbn [map]. unfold param_of_part.
    destruct (split_once ":" (strip raw)) as [[l r] |].
    + destruct (char_in ";" (strip r)); simpl; repeat split; auto; discriminate.
    + simpl. repeat split; auto; discriminate.
Qed.

Lemma parse_parameter_agrees_witness :
  char_in "|" " MODE: AUTO; MANUAL;" = false
  /\ app._parse_parameter " MODE: AUTO; MANUAL;" "CONF {MODE}"
     = (app.T_OPTIONS, ["AUTO"; "MANUAL"], "MODE", "")
  /\ app.parse_param_defs " MODE: AUTO; MANUAL;" "CONF {MODE}"
     = [ParamDef.mk "MODE" OPTIONS ["AUTO"; "MANUAL"] ""].
Proof.
  split; [reflexivity |]. split; [reflexivity |].
  exact (proj1 (parse_parameter_agrees " MODE: AUTO; MANUAL;" "CONF {MODE}" eq_refl)).
Defined.

(** The first placeholder only: a template with two gives two parameters
    and one name. *)
Example parse_parameter_first :
  app._parse_parameter "" "APPL {V},{I}" = (app.T_FREE, [], "V", "")
  /\ List.length (app.parse_param_defs "" "APPL {V},{I}") = 2.
Proof. split; reflexivity. Qed.

(** A blank first placeholder: "none", though a parameter with an empty
    name is parsed. *)
Example parse_parameter_blank :
  app._parse_parameter "nan" "SET { } {x}" = (app.T_NONE, [], "", "")
  /\ app.parse_param_defs "nan" "SET { } {x}"
     = [ParamDef.mk "" FREE [] ""; ParamDef.mk "x" FREE [] ""].
Proof. split; reflexivity. Qed.

End ParseMore.

(* ================================================================== *)
(** ** The loader *)
(* ================================================================== *)

Section Loader.

(** X10. [_find_col] goes through the wanted names in order and returns,
    for the first that some label stands for, the last column with such a
    label; it returns [None] exactly when no label stands for any wanted
    name.  A label stands for a name when they are equal after trimming
    the label and case folding both. *)
Theorem find_col_cases (df : app.DataFrame) (wanted : list string) :
  match app._find_col df wanted with
  | Some c =>
      exists pre w post before after,
        wanted = (pre ++ w :: post)%list
        /\ Forall (fun w' => Forall (fun c' => label_for w' c' = false)
                                    (app.columns df)) pre
        /\ app.columns df = (before ++ c :: after)%list
        /\ label_for w c = true
        /\ Forall (fun c' => label_for w c' = false) after
  | None =>
      Forall (fun w => Forall (fun c => label_for w c = false) (app.columns df)) wanted
  end.
Proof.
  induction wanted as [| w wanted IH]; cbn [app._find_col]; [constructor |].
  unfold app.cols_get. pose proof (find_last (label_for w) (app.columns df)) as L.
  unfold label_for at 1 2 in L.
  destruct (find _ (rev (app.columns df))) as [c |].
  - destruct L as (before & after & E & Hc & Hafter).
    exists [], w, wanted, before, after. repeat split; auto.
  - destruct (app._find_col df wanted) as [c |].
    + destruct IH as (pre & w' & post & before & after & -> & Hpre & E & Hc & Hafter).
      exists (w :: pre), w', post, before, after. repeat split; auto.
    + constructor; assumption.
Qed.

Lemma cell_text_trimmed (x : app.cell) : strip (app.cell_text x) = app.cell_text x.
Proof. destruct x; simpl; [reflexivity | apply strip_idempotent]. Qed.

Lemma load_row_loaded (nc cc mc : string) (pc : option string) (row : string -> app.cell)
  (c : ScpiCommand.t) :
  app.load_row nc cc mc pc row = Some c -> loaded_command c.
Proof.
  unfold app.load_row. cbv zeta.
  destruct (truthy (app.cell_text (row nc))) eqn:Tn; [| discriminate].
  destruct (truthy (app.cell_text (row cc))) eqn:Tc; [| discriminate].
  cbn [negb orb].
  assert (P : strip (match pc with
                     | Some pc0 => if truthy pc0 then app.cell_text (row pc0)
                                   else EmptyString
                     | None => EmptyString
                     end)
              = match pc with
                | Some pc0 => if truthy pc0 then app.cell_text (row pc0)
                              else EmptyString
                | None => EmptyString
                end).
  { destruct pc as [pc0 |]; [| reflexivity].
    destruct (truthy pc0); [apply cell_text_trimmed | reflexivity]. }
  apply truthy_true in Tn, Tc.
  destruct (String.eqb _ "GET");
    [| destruct (String.eqb _ "SET"); [| discriminate]];
    intros H; inversion H; subst c; unfold loaded_command; simpl;
    rewrite !cell_text_trimmed; auto.
Qed.

Lemma load_rows_loaded (nc cc mc : string) (pc : option string) :
  forall rs out,
    Forall loaded_command out ->
    Forall loaded_command (app.load_rows nc cc mc pc rs out).
Proof.
  induction rs as [| row rs IH]; intros out H; cbn [app.load_rows]; [exact H |].
  destruct (app.load_row nc cc mc pc row) as [c |] eqn:R; [| apply IH, H].
  apply IH, Forall_app. split; [exact H |].
  constructor; [eapply load_row_loaded; exact R | constructor].
Qed.

Lemma defs_set_keys (defs : list (string * list ScpiCommand.t)) (sheet : string)
  (out : list ScpiCommand.t) :
  (forall k, In k (map fst (app.defs_set defs sheet out))
             <-> k = sheet \/ In k (map fst defs))
  /\ (NoDup (map fst defs) -> NoDup (map fst (app.defs_set defs sheet out)))
  /\ forall P : string * list ScpiCommand.t -> Prop,
       P (sheet, out) -> Forall P defs -> Forall P (app.defs_set defs sheet out).
Proof.
  induction defs as [| [k v] defs (IH1 & IH2 & IH3)]; cbn [app.defs_set].
  - split; [| split].
    + intros k. simpl. intuition.
    + intros _. simpl. constructor; [intros [] | constructor].
    + intros P Hp _. repeat constructor. exact Hp.
  - destruct (String.eqb k sheet) eqn:E.
    + apply String.eqb_eq in E. subst k. split; [| split].
      * intros k. simpl. intuition.
      * intros H. exact H.
      * intros P Hp H. inversion H; subst. constructor; assumption.
    + apply String.eqb_neq in E. split; [| split].
      * intros x. cbn [map fst In]. rewrite IH1. intuition.
      * intros H. cbn [map fst] in *. inversion H; subst.
        constructor; [| auto]. rewrite IH1. intros [-> | Hin]; auto.
      * intros P Hp H. inversion H; subst. constructor; auto.
Qed.

Lemma load_sheet_cases (defs : list (string * list ScpiCommand.t)) (sheet : string)
  (df : app.DataFrame) :
  if usable df
  then exists out, app.load_sheet defs (sheet, df) = app.defs_set defs sheet out
                   /\ Forall loaded_command out
  else app.load_sheet defs (sheet, df) = defs.
Proof.
  unfold usable, app.load_sheet.
  destruct (app._find_col df ["Name"]) as [nc |]; [| reflexivity].
  destruct (app._find_col df ["CMD"]) as [cc |];
    [| cbn [app.no_col]; rewrite orb_true_r; reflexivity].
  destruct (app._find_col df ["GET/SET"]) as [mc |];
    [| cbn [app.no_col]; rewrite orb_true_r; reflexivity].
  destruct (app.no_col (Some nc) || app.no_col (Some cc) || app.no_col (Some mc))%bool;
    cbn [negb]; [reflexivity |].
  eexists. split; [reflexivity |]. apply load_rows_loaded. constructor.
Qed.

Lemma load_loop (sheets : list (string * app.DataFrame)) :
  forall defs,
    NoDup (map fst defs) ->
    Forall (fun kv => Forall loaded_command (snd kv)) defs ->
    let defs' := fold_left app.load_sheet sheets defs in
    NoDup (map fst defs')
    /\ Forall (fun kv => Forall loaded_command (snd kv)) defs'
    /\ forall k, In k (map fst defs')
                 <-> In k (map fst defs)
                     \/ exists df, In (k, df) sheets /\ usable df = true.
Proof.
  induction sheets as [| [sheet df] sheets IH]; intros defs Hn Hl; cbn [fold_left].
  - cbv zeta. repeat split; auto. intros [H | (df & [] & _)]. exact H.
  - pose proof (load_sheet_cases defs sheet df) as C.
    destruct (usable df) eqn:U.
    + destruct C as (out & -> & Hout).
      destruct (defs_set_keys defs sheet out) as (K1 & K2 & K3).
      specialize (IH (app.defs_set defs sheet out) (K2 Hn)
                     (K3 _ Hout Hl)).
      cbv zeta in *. destruct IH as (I1 & I2 & I3).
      split; [exact I1 |]. split; [exact I2 |].
      intros k. rewrite I3, K1. split.
      * intros [[-> | H] | (df' & Hin & Hu)]; eauto.
        -- right. exists df. split; [left; reflexivity | exact U].
        -- right. exists df'. split; [right; exact Hin | exact Hu].
      * intros [H | (df' & [E | Hin] & Hu)]; eauto.
        inversion E; subst. auto.
    + rewrite C. specialize (IH defs Hn Hl). cbv zeta in *.
      destruct IH as (I1 & I2 & I3).
      split; [exact I1 |]. split; [exact I2 |].
      intros k. rewrite I3. split.
      * intros [H | (df' & Hin & Hu)]; eauto.
        right. exists df'. split; [right; exact Hin | exact Hu].
      * intros [H | (df' & [E | Hin] & Hu)]; eauto.
        inversion E; subst. congruence.
Qed.

Lemma loaded_catalog (sheets : list (string * app.DataFrame)) :
  Forall (fun kv => Forall loaded_command (snd kv)) (app.load_scpi_definitions sheets).
Proof.
  unfold app.load_scpi_definitions.
  apply (load_loop sheets [] (NoDup_nil _) (Forall_nil _)).
Qed.

(** X11. The catalog that [load_scpi_definitions] makes has one entry for
    each name of a sheet that has the columns Name, CMD and GET/SET under
    labels that are not empty, and no other entry; sheets without them are
    passed over.  Every command in it has a name and a template that are
    trimmed and not empty, and a trimmed parameter specification. *)
Theorem load_scpi_definitions_catalog (sheets : list (string * app.DataFrame)) :
  let defs := app.load_scpi_definitions sheets in
  NoDup (map fst defs)
  /\ Forall (fun kv => Forall loaded_command (snd kv)) defs
  /\ forall k, In k (map fst defs)
               <-> exists df, In (k, df) sheets /\ usable df = true.
Proof.
  unfold app.load_scpi_definitions.
  destruct (load_loop sheets [] (NoDup_nil _) (Forall_nil _)) as (A & B & C).
  cbv zeta. split; [exact A |]. split; [exact B |].
  intros k. rewrite C. split; [intros [[] | H]; exact H | auto].
Qed.

(** The catalog of the bench is what the loader makes of the bench's
    sheet: labels are found in any letter case and untrimmed, cells are
    trimmed, the mode is read in any letter case, and the rows without a
    template or with another mode are dropped. *)
Example load_bench_sheet :
  app.load_scpi_definitions [("E36312A", bench_sheet)] = bench_defs.
Proof. reflexivity. Qed.

End Loader.

(* ================================================================== *)
(** ** More on dispatch *)
(* ================================================================== *)

Section DispatchMore.

(** *** Looking up the alias *)

Lemma find_alias_answering (self : upyvisa.collection) (alias : string) :
  tidy self -> strip alias <> EmptyString ->
  routes.find_alias self (strip alias) = find (upyvisa.answers_to (strip alias)) self.
Proof.
  intros Ht Hne. unfold routes.find_alias. apply find_ext.
  eapply Forall_impl; [| exact Ht]. intros i Hi. cbv beta in *.
  unfold upyvisa.answers_to, upyvisa.same_text.
  destruct (Instrument.alias i) as [a |].
  - destruct Hi as [-> _]. rewrite strip_idempotent. reflexivity.
  - simpl. destruct (casefold (strip alias)) eqn:E; [| reflexivity].
    apply casefold_empty in E. congruence.
Qed.

(** X12. The routes and the registry compare aliases differently: the
    routes fold the case of the stored alias, the registry trims it
    first.  While every alias in the collection is trimmed and not empty
    the two agree: the instrument the routes look up for a trimmed,
    non-empty alias is the first instrument that [query] and [write] take
    to answer to that alias, and there is one exactly when some instrument
    answers. *)
Theorem find_alias_first_answering (self : upyvisa.collection) (alias : string) :
  tidy self -> strip alias <> EmptyString ->
  routes.find_alias self (strip alias) = find (upyvisa.answers_to (strip alias)) self
  /\ (routes.find_alias self (strip alias) = None
      <-> filter (upyvisa.answers_to (strip alias)) self = []).
Proof.
  intros Ht Hne. rewrite (find_alias_answering self alias Ht Hne).
  split; [reflexivity |].
  induction self as [| i self IH]; cbn [find filter]; [split; reflexivity |].
  inversion Ht; subst.
  destruct (upyvisa.answers_to (strip alias) i); [split; discriminate | auto].
Qed.

Lemma bench_tidy : tidy (mgr bench).
Proof. repeat constructor. discriminate. Qed.

Lemma find_alias_first_answering_witness :
  tidy (mgr bench) /\ strip " PSU " <> EmptyString
  /\ routes.find_alias (mgr bench) (strip " PSU ")
     = find (upyvisa.answers_to (strip " PSU ")) (mgr bench)
  /\ (routes.find_alias (mgr bench) (strip " PSU ") = None
      <-> filter (upyvisa.answers_to (strip " PSU ")) (mgr bench) = []).
Proof.
  assert (H : strip " PSU " <> EmptyString) by (vm_compute; discriminate).
  split; [exact bench_tidy |]. split; [exact H |].
  exact (find_alias_first_answering (mgr bench) " PSU " bench_tidy H).
Defined.

(** Without the trimming they part: an alias stored with a blank, as
    [set_alias] itself would store it, is answered by [query] and not
    found by the routes. *)
Example untidy_alias_not_found :
  let self := [upyvisa.with_alias dmm "dmm "] in
  routes.find_alias self "dmm" = None
  /\ find (upyvisa.answers_to "dmm") self = Some (upyvisa.with_alias dmm "dmm ").
Proof. split; reflexivity. Qed.

(** X13. The routes keep every alias trimmed and not empty: a scan leaves
    none, /api/set_alias stores the trimmed alias and refuses an empty one,
    and /api/run and /api/custom do not change the collection. *)
Theorem routes_keep_tidy (SCPI_DEFS : catalog) (s : server) :
  tidy (mgr s) ->
  (forall resources, tidy (mgr (routes.api_scan resources s)))
  /\ (forall data, tidy (mgr (snd (routes.api_set_alias SCPI_DEFS data s))))
  /\ (forall data, mgr (snd (routes.api_run SCPI_DEFS data s)) = mgr s)
  /\ (forall data, mgr (snd (routes.api_custom data s)) = mgr s).
Proof.
  intros Ht. split; [| split; [| split]].
  - intros resources. unfold routes.api_scan, tidy. simpl.
    eapply Forall_impl; [| apply (find_instruments_replaces_aliases (mgr s) resources)].
    intros i Hi. cbv beta in *. rewrite Hi. exact I.
  - intros data. unfold routes.api_set_alias.
    destruct (truthy (strip (routes.req_alias data))) eqn:Ta; [| exact Ht].
    destruct (negb true || negb (truthy (strip (routes.req_vendor data)))
              || negb (truthy (strip (routes.req_model data)))
              || negb (truthy (strip (routes.req_serial data))))%bool; [exact Ht |].
    pose proof (set_alias_cases (mgr s) (strip (routes.req_alias data))
                  (strip (routes.req_vendor data)) (strip (routes.req_model data))
                  (strip (routes.req_serial data))) as F.
    destruct (upyvisa.set_alias _ _ _ _ _) as [[z | e] new]; simpl;
      [| subst new; exact Ht].
    destruct F as [[_ (pre & i & post & E & -> & _)] | [_ [-> _]]]; [| exact Ht].
    unfold tidy in *. rewrite E in Ht.
    apply Forall_app in Ht. destruct Ht as [Hpre Hpost].
    apply Forall_app. split; [exact Hpre |].
    inversion Hpost; subst. constructor; [| assumption].
    simpl. split; [apply strip_idempotent | apply truthy_true, Ta].
  - intros data. unfold routes.api_run.
    destruct (negb _ || negb _)%bool; [reflexivity |].
    destruct (routes.find_alias _ _); [| reflexivity].
    destruct (routes.find_command _ _); [| reflexivity].
    destruct (routes.default_values _ _ _); try reflexivity.
    destruct (routes.catching _ _). reflexivity.
  - intros data. unfold routes.api_custom.
    destruct (negb _ || negb _)%bool; [reflexivity |].
    destruct (routes.catching _ _). reflexivity.
Qed.

Lemma routes_keep_tidy_witness :
  tidy (mgr bench)
  /\ tidy (mgr (snd (routes.api_set_alias
                       bench_defs
                       (routes.mkAlias " supply " "keysight" "e36312a" "my59001234")
                       bench))).
Proof.
  split; [exact bench_tidy |].
  apply (routes_keep_tidy bench_defs bench bench_tidy).
Defined.

(** *** What [api_run] has done when it answers *)

Lemma api_run_inv (SCPI_DEFS : catalog) (data : run_request) (s s' : server)
  (r : response) :
  routes.api_run SCPI_DEFS data s = (r, s') ->
  (s' = s /\ exists st err, r = Refused st err /\ (st = 400 \/ st = 404)
                            /\ forall p, err <> MissingValue p)
  \/ exists inst c values,
       resolves SCPI_DEFS data s inst c values
       /\ routes.catching
            (routes.run_command (mgr s) (strip (run_alias data)) c (params_of c) values)
            (wire s) = (r, wire s')
       /\ mgr s' = mgr s.
Proof.
  unfold routes.api_run. intros H.
  destruct (truthy (strip (run_alias data))) eqn:Ta.
  2:{ inversion H; subst. left. split; [reflexivity |].
      exists 400, MissingAliasName. repeat split; auto. discriminate. }
  destruct (truthy (strip (run_name data))) eqn:Tn.
  2:{ inversion H; subst. left. split; [reflexivity |].
      exists 400, MissingAliasName. repeat split; auto. discriminate. }
  cbn [negb orb] in H.
  destruct (routes.find_alias (mgr s) (strip (run_alias data))) as [inst |] eqn:Fa.
  2:{ inversion H; subst. left. split; [reflexivity |].
      exists 404, AliasNotFound. repeat split; auto. discriminate. }
  destruct (routes.find_command _ (strip (run_name data))) as [c |] eqn:Fc.
  2:{ inversion H; subst. left. split; [reflexivity |].
      eexists 404, _. repeat split; auto. discriminate. }
  cbv zeta in H. fold (params_of c) in H.
  destruct (routes.default_values _ _ (params_of c)) as [| values |] eqn:Dv.
  - inversion H; subst. left. split; [reflexivity |].
    exists 400, ValuesNotDict. repeat split; auto. discriminate.
  - destruct (routes.catching _ (wire s)) as [r0 w] eqn:C.
    inversion H; subst. right. exists inst, c, values.
    split; [| split; [exact C | reflexivity]].
    repeat split; auto; apply truthy_true; assumption.
  - inversion H; subst. left. split; [reflexivity |].
    exists 400, ValuesNotDict. repeat split; auto. discriminate.
Qed.

Lemma substitute_missing_first (param_defs : list ParamDef.t) (values : dict) :
  forall cmd p,
    routes.substitute param_defs values cmd = Ok (routes.Missing p) ->
    exists pre d post,
      param_defs = (pre ++ d :: post)%list
      /\ Forall (fun x => lacks values x = false) pre
      /\ lacks values d = true /\ ParamDef.name d = p.
Proof.
  induction param_defs as [| d defs IH]; intros cmd p H; cbn [routes.substitute] in H;
    [discriminate |].
  destruct (routes.dict_get values (ParamDef.name d)) as [raw |] eqn:G.
  - destruct (String.eqb (strip raw) EmptyString) eqn:B.
    + inversion H; subst. exists [], d, defs.
      split; [reflexivity |]. split; [constructor |]. split; [| reflexivity].
      unfold lacks. rewrite G. exact B.
    + cbv zeta in H.
      destruct (match ParamDef.kind d with FREE => _ | OPTIONS => _ end) as [v | e];
        cbn [bind] in H; [| discriminate].
      destruct (Re.sub_named (ParamDef.name d) v cmd) as [cmd' | e]; [| discriminate].
      cbn [bind] in H. destruct (IH cmd' p H) as (pre & x & post & -> & Hpre & Hx).
      exists (d :: pre), x, post.
      split; [reflexivity |]. split; [| exact Hx].
      constructor; [| exact Hpre]. unfold lacks. rewrite G. exact B.
  - inversion H; subst. exists [], d, defs.
    split; [reflexivity |]. split; [constructor |]. split; [| reflexivity].
    unfold lacks. rewrite G. reflexivity.
Qed.

Lemma build_missing (param_defs : list ParamDef.t) (values : dict) (cmd p : string) :
  routes.build param_defs values cmd = Ok (routes.Missing p) ->
  routes.substitute param_defs values cmd = Ok (routes.Missing p).
Proof.
  unfold routes.build.
  destruct (routes.substitute param_defs values cmd) as [[q | w] | e]; simpl;
    [auto | | discriminate].
  destruct (routes.fill_leftover values w); discriminate.
Qed.

Lemma run_command_inv (instruments : upyvisa.collection) (alias : string)
  (c : ScpiCommand.t) (param_defs : list ParamDef.t) (values : dict)
  (b b' : bus) (r : response) :
  routes.catching (routes.run_command instruments alias c param_defs values) b = (r, b') ->
  match r with
  | Ran m cmd resp =>
      m = ScpiCommand.mode c
      /\ (param_defs = [] /\ cmd = strip (ScpiCommand.cmd c)
          \/ param_defs <> []
             /\ routes.build param_defs values (strip (ScpiCommand.cmd c))
                = Ok (routes.Command cmd))
      /\ match m with
         | GET => upyvisa.query instruments alias cmd b = (Ok resp, b')
         | SET => upyvisa.write instruments alias cmd b = (Ok tt, b')
                  /\ resp = EmptyString
         end
  | Refused st err =>
      (st = 400 /\ b' = b
       /\ exists p, err = MissingValue p
                    /\ routes.build param_defs values (strip (ScpiCommand.cmd c))
                       = Ok (routes.Missing p))
      \/ (st = 500 /\ exists e,
             err = Exception e
             /\ routes.run_command instruments alias c param_defs values b
                = (Raise e, b'))
  | RanCustom _ _ => False
  end.
Proof.
  unfold routes.catching, routes.run_command.
  destruct (ScpiCommand.mode c), param_defs as [| d defs]; unfold iobind, routes.lift.
  - destruct (upyvisa.query instruments alias _ b) as [[resp | e] b1] eqn:Q;
      intros H; inversion H; subst.
    + repeat split; auto.
    + right. eauto.
  - destruct (routes.build (d :: defs) values _) as [[p | cmd] | e] eqn:B; unfold ret, raise.
    + intros H; inversion H; subst. left. repeat split. eauto.
    + destruct (upyvisa.query instruments alias cmd b) as [[resp | e] b1] eqn:Q;
        intros H; inversion H; subst.
      * repeat split; auto. right. split; [discriminate | reflexivity].
      * right. eauto.
    + intros H; inversion H; subst. right. eauto.
  - destruct (upyvisa.write instruments alias _ b) as [[[] | e] b1] eqn:Q;
      intros H; inversion H; subst.
    + repeat split; auto.
    + right. eauto.
  - destruct (routes.build (d :: defs) values _) as [[p | cmd] | e] eqn:B; unfold ret, raise.
    + intros H; inversion H; subst. left. repeat split. eauto.
    + destruct (upyvisa.write instruments alias cmd b) as [[[] | e] b1] eqn:Q;
        intros H; inversion H; subst.
      * repeat split; auto. right. split; [discriminate | reflexivity].
      * right. eauto.
    + intros H; inversion H; subst. right. eauto.
Qed.

Lemma server_eq (s s' : server) : mgr s' = mgr s -> wire s' = wire s -> s' = s.
Proof. destruct s, s'; simpl; congruence. Qed.

(** *** Refusals *)

(** X14. A request that [api_run] refuses with a status other than 500 has
    started no exchange and changed nothing: the server is as before. *)
Theorem api_run_refusal_untouched (SCPI_DEFS : catalog) (data : run_request)
  (s s' : server) (st : nat) (err : error) :
  routes.api_run SCPI_DEFS data s = (Refused st err, s') ->
  st <> 500 -> s' = s.
Proof.
  intros H Hst. apply api_run_inv in H.
  destruct H as [[-> _] | (inst & c & values & _ & C & Hm)]; [reflexivity |].
  apply run_command_inv in C.
  destruct C as [(_ & Hb & _) | (-> & _)]; [| congruence].
  apply server_eq; assumption.
Qed.

Lemma api_run_refusal_untouched_witness :
  routes.api_run bench_defs (mkRun "psu" "reset" NoValues "") bench
  = (Refused 404 (CommandNotFound "reset" (Some "E36312A")),
     snd (routes.api_run bench_defs (mkRun "psu" "reset" NoValues "") bench))
  /\ snd (routes.api_run bench_defs (mkRun "psu" "reset" NoValues "") bench) = bench.
Proof.
  split; [reflexivity |].
  apply (api_run_refusal_untouched
           bench_defs (mkRun "psu" "reset" NoValues "") bench _
           404 (CommandNotFound "reset" (Some "E36312A")));
    [reflexivity | discriminate].
Defined.

(** X15. [api_run] reports a missing value only for a parameter of the
    command that lacks one: when it answers "Missing value for p", the
    status is 400, the server is untouched, and p is the name of the first
    parameter, in parse order, whose value is absent or blank. *)
Theorem api_run_missing_sound (SCPI_DEFS : catalog) (data : run_request)
  (s s' : server) (st : nat) (p : string) :
  routes.api_run SCPI_DEFS data s = (Refused st (MissingValue p), s') ->
  st = 400 /\ s' = s
  /\ exists inst c values pre d post,
       resolves SCPI_DEFS data s inst c values
       /\ params_of c = (pre ++ d :: post)%list
       /\ Forall (fun x => lacks values x = false) pre
       /\ lacks values d = true /\ ParamDef.name d = p.
Proof.
  intros H. apply api_run_inv in H.
  destruct H as [[_ (st' & err & E & _ & N)] | (inst & c & values & R & C & Hm)].
  - inversion E; subst. destruct (N p eq_refl).
  - apply run_command_inv in C.
    destruct C as [(-> & Hb & q & E & B) | (_ & e & E & _)]; [| discriminate].
    inversion E; subst q.
    split; [reflexivity |]. split; [apply server_eq; assumption |].
    apply build_missing, substitute_missing_first in B.
    destruct B as (pre & d & post & Hd). exists inst, c, values, pre, d, post.
    split; [exact R | exact Hd].
Qed.

Lemma api_run_missing_sound_witness :
  routes.api_run bench_defs (mkRun "psu" "APPLY" (Values [("V", "5"); ("I", " ")]) "")
                 bench
  = (Refused 400 (MissingValue "I"), bench)
  /\ exists inst c values pre d post,
       resolves bench_defs (mkRun "psu" "APPLY" (Values [("V", "5"); ("I", " ")]) "")
                bench inst c values
       /\ params_of c = (pre ++ d :: post)%list
       /\ Forall (fun x => lacks values x = false) pre
       /\ lacks values d = true /\ ParamDef.name d = "I".
Proof.
  split; [reflexivity |].
  apply (api_run_missing_sound
           bench_defs (mkRun "psu" "APPLY" (Values [("V", "5"); ("I", " ")]) "")
           bench bench 400 "I").
  reflexivity.
Defined.

(** *** What goes over the bus, exactly *)

Lemma api_run_ran (SCPI_DEFS : catalog) (data : run_request)
  (s s' : server) (m : Mode) (cmd resp : string) :
  routes.api_run SCPI_DEFS data s = (Ran m cmd resp, s') ->
  exists inst c values,
    resolves SCPI_DEFS data s inst c values
    /\ ScpiCommand.mode c = m /\ mgr s' = mgr s
    /\ match m with
       | GET => upyvisa.query (mgr s) (strip (run_alias data)) cmd (wire s)
                = (Ok resp, wire s')
       | SET => upyvisa.write (mgr s) (strip (run_alias data)) cmd (wire s)
                = (Ok tt, wire s')
                /\ resp = EmptyString
       end.
Proof.
  intros H. apply api_run_inv in H.
  destruct H as [[_ (st & err & E & _)] | (inst & c & values & R & C & Hm)];
    [discriminate |].
  apply run_command_inv in C. destruct C as (Hmode & _ & D).
  exists inst, c, values. auto.
Qed.

(** X16. The command that [api_run] reports is the command that went over
    the bus.  After a GET that is answered, the exchanges added are the
    queries, with the command reported, to every instrument that answers
    to the alias; after a SET, the response is empty and the one exchange
    added is the write, with the command reported, to the first such
    instrument (none if there is none).  The collection is unchanged. *)
Theorem api_run_sends_reported (SCPI_DEFS : catalog) (data : run_request)
  (s s' : server) (m : Mode) (cmd resp : string) :
  routes.api_run SCPI_DEFS data s = (Ran m cmd resp, s') ->
  let alias := strip (run_alias data) in
  mgr s' = mgr s
  /\ device (wire s') = device (wire s)
  /\ match m with
     | GET =>
         history (wire s')
         = (history (wire s)
            ++ map (call_to IoQuery cmd) (filter (upyvisa.answers_to alias) (mgr s)))%list
     | SET =>
         resp = EmptyString
         /\ history (wire s')
            = (history (wire s)
               ++ match find (upyvisa.answers_to alias) (mgr s) with
                  | Some i => [call_to IoWrite cmd i]
                  | None => []
                  end)%list
     end.
Proof.
  intros H alias. apply api_run_ran in H.
  destruct H as (inst & c & values & _ & _ & Hm & D).
  split; [exact Hm |]. fold alias in D.
  destruct m.
  - apply query_bus in D. rewrite D. split; reflexivity.
  - destruct D as [W ->]. pose proof (write_bus (mgr s) alias cmd (wire s)) as F.
    rewrite W in F. cbn [snd] in F. rewrite F.
    destruct (find (upyvisa.answers_to alias) (mgr s)) as [i |]; cbn [history device].
    + repeat split; reflexivity.
    + rewrite app_nil_r. repeat split; reflexivity.
Qed.

Lemma api_run_sends_reported_witness :
  routes.api_run bench_defs (mkRun " PSU" "measv" NoValues "") bench
  = (Ran GET "MEAS:VOLT?" "3.300",
     snd (routes.api_run bench_defs (mkRun " PSU" "measv" NoValues "") bench))
  /\ history (wire (snd (routes.api_run bench_defs (mkRun " PSU" "measv" NoValues "")
                                        bench)))
     = [mkCall IoQuery "GPIB0::5::INSTR" VISA "MEAS:VOLT?"].
Proof.
  split; [reflexivity |].
  apply (api_run_sends_reported
           bench_defs (mkRun " PSU" "measv" NoValues "") bench _
           GET "MEAS:VOLT?" "3.300" eq_refl).
Defined.

(** X17. The instrument whose catalog [api_run] reads is the one a SET is
    written to: while every alias in the collection is trimmed and not
    empty, a SET that is answered has added exactly one exchange, the
    write of the command reported to the instrument that the alias was
    looked up to, whose model named the catalog. *)
Theorem api_run_set_target (SCPI_DEFS : catalog) (data : run_request)
  (s s' : server) (cmd resp : string) :
  tidy (mgr s) ->
  routes.api_run SCPI_DEFS data s = (Ran SET cmd resp, s') ->
  exists inst c,
    routes.find_alias (mgr s) (strip (run_alias data)) = Some inst
    /\ routes.find_command (routes.defs_get SCPI_DEFS (Instrument.model inst))
                           (strip (run_name data)) = Some c
    /\ ScpiCommand.mode c = SET
    /\ history (wire s') = (history (wire s) ++ [call_to IoWrite cmd inst])%list.
Proof.
  intros Ht H. apply api_run_ran in H.
  destruct H as (inst & c & values & (Ha & Hn & Fa & Fc & _) & Hmode & _ & W & _).
  exists inst, c. repeat split; auto.
  pose proof (write_bus (mgr s) (strip (run_alias data)) cmd (wire s)) as F.
  rewrite W in F. cbn [snd] in F.
  rewrite <- (find_alias_answering _ _ Ht Ha), Fa in F. rewrite F. reflexivity.
Qed.

Lemma api_run_set_target_witness :
  tidy (mgr bench)
  /\ routes.api_run bench_defs (mkRun "psu" "setv" NoValues "3.3") bench
     = (Ran SET "VOLT 3.3" "",
        snd (routes.api_run bench_defs (mkRun "psu" "setv" NoValues "3.3") bench))
  /\ exists inst c,
       routes.find_alias (mgr bench) (strip "psu") = Some inst
       /\ routes.find_command (routes.defs_get bench_defs (Instrument.model inst))
                              (strip "setv") = Some c
       /\ ScpiCommand.mode c = SET
       /\ history (wire (snd (routes.api_run bench_defs
                                (mkRun "psu" "setv" NoValues "3.3") bench)))
          = (history (wire bench) ++ [call_to IoWrite "VOLT 3.3" inst])%list.
Proof.
  split; [exact bench_tidy |]. split; [reflexivity |].
  apply (api_run_set_target
           bench_defs (mkRun "psu" "setv" NoValues "3.3") bench _
           "VOLT 3.3" "" bench_tidy eq_refl).
Defined.

(** *** Failures *)

(** X18. All the refusals of /api/custom.  A request whose alias or
    command is blank is refused with status 400, and nothing is touched.
    No other request is refused with status 400; a request is refused
    with status 500, and an exception, only after an exchange that it
    started has failed otherwise than by a timeout, that exchange being
    the last on the bus, and the collection is unchanged.  A timeout is
    never an error. *)
Theorem api_custom_refusals (data : custom_request) (s : server) :
  let alias := strip (custom_alias data) in
  let cmd := strip (custom_cmd data) in
  (alias = EmptyString \/ cmd = EmptyString <->
   routes.api_custom data s = (Refused 400 MissingAliasCmd, s))
  /\ forall (st : nat) (err : error) (s' : server),
       routes.api_custom data s = (Refused st err, s') ->
       (st = 400 /\ err = MissingAliasCmd /\ s' = s
        /\ (alias = EmptyString \/ cmd = EmptyString))
       \/ (st = 500 /\ (exists e, err = Exception e)
           /\ alias <> EmptyString /\ cmd <> EmptyString
           /\ mgr s' = mgr s /\ ends_in_failure (wire s) (wire s')).
Proof.
  cbv zeta.
  assert (R : forall st err s',
             routes.api_custom data s = (Refused st err, s') ->
             (st = 400 /\ err = MissingAliasCmd /\ s' = s
              /\ (strip (custom_alias data) = EmptyString
                  \/ strip (custom_cmd data) = EmptyString))
             \/ (st = 500 /\ (exists e, err = Exception e)
                 /\ strip (custom_alias data) <> EmptyString
                 /\ strip (custom_cmd data) <> EmptyString
                 /\ mgr s' = mgr s /\ ends_in_failure (wire s) (wire s'))).
  { unfold routes.api_custom. intros st err s'.
    destruct (truthy (strip (custom_alias data))) eqn:Ta.
    2:{ intros H; inversion H; subst. left. repeat split. left.
        destruct (strip (custom_alias data)); [reflexivity | discriminate]. }
    destruct (truthy (strip (custom_cmd data))) eqn:Tc.
    2:{ intros H; inversion H; subst. left. repeat split. right.
        destruct (strip (custom_cmd data)); [reflexivity | discriminate]. }
    cbn [negb orb]. apply truthy_true in Ta, Tc.
    unfold routes.catching, iobind, ret.
    destruct (char_in "?" (strip (custom_cmd data))).
    - destruct (upyvisa.query _ _ _ (wire s)) as [[resp | e] w] eqn:Q;
        intros H; inversion H; subst.
      destruct (query_raise _ _ _ _ _ _ Q) as [_ F]. right. eauto 10.
    - destruct (upyvisa.write _ _ _ (wire s)) as [[[] | e] w] eqn:Q;
        intros H; inversion H; subst.
      destruct (write_raise _ _ _ _ _ _ Q) as [_ F]. right. eauto 10. }
  split; [| exact R]. split.
  - intros H. unfold routes.api_custom.
    destruct H as [H | H]; rewrite H; [reflexivity |].
    destruct (truthy (strip (custom_alias data))); reflexivity.
  - intros H. destruct (R _ _ _ H) as [(_ & _ & _ & B) | (N & _)];
      [exact B | discriminate].
Qed.

Lemma api_custom_refusals_witness :
  routes.api_custom (mkCustom "psu" "  ") bench = (Refused 400 MissingAliasCmd, bench)
  /\ ends_in_failure
       (mkBus [] dead_device)
       (mkBus [mkCall IoWrite "GPIB0::5::INSTR" VISA "*RST"] dead_device).
Proof.
  split.
  - apply (api_custom_refusals (mkCustom "psu" "  ") bench). right. reflexivity.
  - destruct (api_custom_refusals
                (mkCustom "psu" "*RST") (mkServer (mgr bench) (mkBus [] dead_device)))
      as [_ R].
    destruct (R 500 (Exception VisaIOError)
                (mkServer (mgr bench)
                          (mkBus [mkCall IoWrite "GPIB0::5::INSTR" VISA "*RST"]
                                 dead_device))
                eq_refl)
      as [(H & _) | (_ & _ & _ & _ & _ & F)]; [discriminate H | exact F].
Defined.

Lemma run_command_raise (instruments : upyvisa.collection) (alias : string)
  (c : ScpiCommand.t) (param_defs : list ParamDef.t) (values : dict)
  (b b' : bus) (e : exn) :
  routes.run_command instruments alias c param_defs values b = (Raise e, b') ->
  (param_defs <> []
   /\ routes.build param_defs values (strip (ScpiCommand.cmd c)) = Raise e /\ b' = b)
  \/ ends_in_failure b b'.
Proof.
  unfold routes.run_command.
  destruct (ScpiCommand.mode c), param_defs as [| d defs]; unfold iobind, routes.lift.
  - destruct (upyvisa.query instruments alias _ b) as [[resp | e0] b1] eqn:Q;
      intros H; inversion H; subst. right. eapply query_raise, Q.
  - destruct (routes.build (d :: defs) values _) as [[p | cmd] | e0] eqn:B;
      unfold ret, raise.
    + discriminate.
    + destruct (upyvisa.query instruments alias cmd b) as [[resp | e1] b1] eqn:Q;
        intros H; inversion H; subst. right. eapply query_raise, Q.
    + intros H; inversion H; subst. left. repeat split. discriminate.
  - destruct (upyvisa.write instruments alias _ b) as [[[] | e0] b1] eqn:Q;
      intros H; inversion H; subst. right. eapply write_raise, Q.
  - destruct (routes.build (d :: defs) values _) as [[p | cmd] | e0] eqn:B;
      unfold ret, raise.
    + discriminate.
    + destruct (upyvisa.write instruments alias cmd b) as [[[] | e1] b1] eqn:Q;
        intros H; inversion H; subst. right. eapply write_raise, Q.
    + intros H; inversion H; subst. left. repeat split. discriminate.
Qed.

(** X19. When /api/run answers with status 500 it answers with an
    exception, the alias and the command were found, and the collection
    is unchanged; either the building of the command raised the
    exception, and then no exchange was started and the server is as
    before, or an exchange that it started failed otherwise than by a
    timeout, that exchange being the last on the bus. *)
Theorem api_run_500 (SCPI_DEFS : catalog) (data : run_request) (s s' : server)
  (err : error) :
  routes.api_run SCPI_DEFS data s = (Refused 500 err, s') ->
  exists e inst c values,
    err = Exception e
    /\ resolves SCPI_DEFS data s inst c values
    /\ mgr s' = mgr s
    /\ ((params_of c <> []
         /\ routes.build (params_of c) values (strip (ScpiCommand.cmd c)) = Raise e
         /\ s' = s)
        \/ ends_in_failure (wire s) (wire s')).
Proof.
  intros H. apply api_run_inv in H.
  destruct H as [[_ (st & e & E & [St | St] & _)] | (inst & c & values & Rv & C & Hm)];
    [inversion E; subst; discriminate | inversion E; subst; discriminate |].
  apply run_command_inv in C.
  destruct C as [(St & _) | (_ & e & -> & R)]; [discriminate |].
  exists e, inst, c, values. repeat split; try assumption; try apply Rv.
  destruct (run_command_raise _ _ _ _ _ _ _ _ R) as [(Hn & B & Hb) | F].
  - left. repeat split; [exact Hn | exact B | apply server_eq; assumption].
  - right. exact F.
Qed.

Lemma api_run_500_witness :
  routes.api_run bench_defs (mkRun "psu" "SETV" NoValues "\g<value>") bench
  = (Refused 500 (Exception IndexError),
     snd (routes.api_run bench_defs (mkRun "psu" "SETV" NoValues "\g<value>") bench))
  /\ exists e inst c values,
       Exception IndexError = Exception e
       /\ resolves bench_defs (mkRun "psu" "SETV" NoValues "\g<value>") bench
                   inst c values
       /\ mgr (snd (routes.api_run bench_defs (mkRun "psu" "SETV" NoValues "\g<value>")
                                   bench))
          = mgr bench
       /\ ((params_of c <> []
            /\ routes.build (params_of c) values (strip (ScpiCommand.cmd c)) = Raise e
            /\ snd (routes.api_run bench_defs (mkRun "psu" "SETV" NoValues "\g<value>")
                                   bench)
               = bench)
           \/ ends_in_failure
                (wire bench)
                (wire (snd (routes.api_run bench_defs
                              (mkRun "psu" "SETV" NoValues "\g<value>") bench)))).
Proof.
  split; [reflexivity |].
  apply (api_run_500 bench_defs (mkRun "psu" "SETV" NoValues "\g<value>") bench _
                     (Exception IndexError) eq_refl).
Defined.

(** The three ways to status 500: a value that is read as a template,
    a precision beyond the limit, and an exchange that fails. *)
Example api_run_500_ways :
  routes.api_run bench_defs (mkRun "psu" "SETV" NoValues "\g<value>") bench
  = (Refused 500 (Exception IndexError), bench)
  /\ routes.api_run
       [("E36312A", [ScpiCommand.mk "SETV" "VOLT {v}" SET "v:V.2147483648f"])]
       (mkRun "psu" "SETV" NoValues "3.3") bench
     = (Refused 500 (Exception ValueError), bench)
  /\ routes.api_run bench_defs (mkRun "psu" "SETV" NoValues "3.3")
                    (mkServer (mgr bench) (mkBus [] dead_device))
     = (Refused 500 (Exception VisaIOError),
        mkServer (mgr bench)
                 (mkBus [mkCall IoWrite "GPIB0::5::INSTR" VISA "VOLT 3.3"] dead_device)).
Proof. repeat split. Qed.

(** *** The values of a request *)

Lemma substitute_trimmed (k v : string) (param_defs : list ParamDef.t) :
  forall cmd,
    routes.substitute param_defs [(k, strip v)] cmd
    = routes.substitute param_defs [(k, v)] cmd.
Proof.
  induction param_defs as [| d defs IH]; intros cmd; cbn [routes.substitute];
    [reflexivity |].
  cbn [routes.dict_get]. destruct (String.eqb k (ParamDef.name d)); [| reflexivity].
  rewrite strip_idempotent.
  destruct (String.eqb (strip v) EmptyString); [reflexivity |]. cbv zeta.
  destruct (match ParamDef.kind _ with FREE => _ | OPTIONS => _ end) as [fv | e];
    cbn [bind]; [| reflexivity].
  destruct (Re.sub_named _ fv cmd); cbn [bind]; [apply IH | reflexivity].
Qed.

Lemma build_trimmed (k v : string) (param_defs : list ParamDef.t) (cmd : string) :
  routes.build param_defs [(k, strip v)] cmd = routes.build param_defs [(k, v)] cmd.
Proof.
  unfold routes.build. rewrite substitute_trimmed.
  destruct (routes.substitute param_defs [(k, v)] cmd) as [[p | c] | e];
    cbn [bind]; try reflexivity.
  unfold routes.fill_leftover. rewrite strip_idempotent. reflexivity.
Qed.

Lemma run_command_trimmed (instruments : upyvisa.collection) (alias : string)
  (c : ScpiCommand.t) (param_defs : list ParamDef.t) (k v : string) :
  routes.run_command instruments alias c param_defs [(k, strip v)]
  = routes.run_command instruments alias c param_defs [(k, v)].
Proof.
  unfold routes.run_command.
  destruct (ScpiCommand.mode c), param_defs; try reflexivity;
    rewrite build_trimmed; reflexivity.
Qed.

(** X20. The member "value" of a request to /api/run counts only when
    "values" is absent: with "values" given, as an object or not, the
    answer and the server afterwards are the same whatever "value" is. *)
Theorem api_run_value_unused (SCPI_DEFS : catalog) (alias name : string)
  (values : json_values) (value value' : string) (s : server) :
  values <> NoValues ->
  routes.api_run SCPI_DEFS (mkRun alias name values value) s
  = routes.api_run SCPI_DEFS (mkRun alias name values value') s.
Proof.
  intros Hv. unfold routes.api_run. cbn [run_alias run_name run_values run_value].
  destruct (negb (truthy (strip alias)) || negb (truthy (strip name)))%bool;
    [reflexivity |].
  destruct (routes.find_alias (mgr s) (strip alias)) as [inst |]; [| reflexivity].
  destruct (routes.find_command _ (strip name)) as [c |]; [| reflexivity].
  cbv zeta. unfold routes.default_values.
  destruct values as [| d |]; [congruence | reflexivity | reflexivity].
Qed.

Lemma api_run_value_unused_witness :
  Values [] <> NoValues
  /\ routes.api_run bench_defs (mkRun "psu" "SETV" (Values []) "3.3") bench
     = routes.api_run bench_defs (mkRun "psu" "SETV" (Values []) "") bench.
Proof.
  assert (H : Values [] <> NoValues) by discriminate.
  split; [exact H |].
  apply (api_run_value_unused bench_defs "psu" "SETV" (Values []) "3.3" "" bench H).
Defined.

(** With an empty "values" the value given alone is not looked at, and
    the request is refused for the value it lacks. *)
Example api_run_empty_values :
  routes.api_run bench_defs (mkRun "psu" "SETV" (Values []) "3.3") bench
  = (Refused 400 (MissingValue "value"), bench).
Proof. reflexivity. Qed.

(** X21. For a command with exactly one parameter, a request to /api/run
    that gives "value" and no "values" is answered as the request that
    gives the value under the parameter's name; with no parameter, or
    more than one, "value" is not used at all. *)
Theorem api_run_single_value (SCPI_DEFS : catalog) (alias name value : string)
  (s : server) (inst : Instrument.t) (c : ScpiCommand.t) :
  routes.find_alias (mgr s) (strip alias) = Some inst ->
  routes.find_command (routes.defs_get SCPI_DEFS (Instrument.model inst))
                      (strip name) = Some c ->
  strip value <> EmptyString ->
  routes.api_run SCPI_DEFS (mkRun alias name NoValues value) s
  = match params_of c with
    | [d] => routes.api_run SCPI_DEFS
               (mkRun alias name (Values [(ParamDef.name d, value)]) EmptyString) s
    | _ => routes.api_run SCPI_DEFS (mkRun alias name NoValues EmptyString) s
    end.
Proof.
  intros Fa Fc Hv. unfold routes.api_run.
  cbn [run_alias run_name run_values run_value].
  destruct (negb (truthy (strip alias)) || negb (truthy (strip name)))%bool.
  { destruct (params_of c) as [| d [| d' r]]; reflexivity. }
  rewrite Fa, Fc. cbv zeta. fold (params_of c).
  unfold routes.default_values.
  rewrite (proj2 (truthy_true _) Hv).
  destruct (params_of c) as [| d [| d' r]] eqn:P.
  - reflexivity.
  - rewrite run_command_trimmed. reflexivity.
  - reflexivity.
Qed.

Lemma api_run_single_value_witness :
  strip " 1 " <> EmptyString
  /\ routes.api_run bench_defs (mkRun "psu" "APPLY" NoValues " 1 ") bench
     = routes.api_run bench_defs (mkRun "psu" "APPLY" NoValues "") bench
  /\ routes.api_run bench_defs (mkRun "psu" "RANGE" NoValues " 1 ") bench
     = routes.api_run bench_defs (mkRun "psu" "RANGE" (Values [("range", " 1 ")]) "")
                      bench.
Proof.
  assert (H : strip " 1 " <> EmptyString) by (vm_compute; discriminate).
  split; [exact H |]. split.
  - exact (api_run_single_value
             bench_defs "psu" "APPLY" " 1 " bench
             (Instrument.mk "GPIB0::5::INSTR" VISA (Some "Keysight") (Some "E36312A")
                            (Some "MY59001234") (Some "psu"))
             (ScpiCommand.mk "APPLY" "APPL {V},{I}" SET "V|I")
             eq_refl eq_refl H).
  - exact (api_run_single_value
             bench_defs "psu" "RANGE" " 1 " bench
             (Instrument.mk "GPIB0::5::INSTR" VISA (Some "Keysight") (Some "E36312A")
                            (Some "MY59001234") (Some "psu"))
             (ScpiCommand.mk "RANGE" "SENS:RANGE {value}" SET "range")
             eq_refl eq_refl H).
Defined.

(** *** Building the command, again *)

Lemma substitute_same_but_options (values : dict) (defs defs' : list ParamDef.t) :
  Forall2 same_but_options defs defs' ->
  forall cmd, routes.substitute defs values cmd = routes.substitute defs' values cmd.
Proof.
  induction 1 as [| d d' defs defs' (Hn & Hk & Hf) _ IH]; intros cmd;
    cbn [routes.substitute]; [reflexivity |].
  rewrite Hn, Hk, Hf.
  destruct (routes.dict_get values (ParamDef.name d')); [| reflexivity].
  destruct (String.eqb (strip s) EmptyString); [reflexivity |]. cbv zeta.
  destruct (match ParamDef.kind _ with FREE => _ | OPTIONS => _ end) as [fv | e];
    cbn [bind]; [| reflexivity].
  destruct (Re.sub_named _ fv cmd); cbn [bind]; [apply IH | reflexivity].
Qed.

(** X22. The options listed for a parameter play no part in what
    [api_run] does with a value: the command built, the parameter reported
    missing or the exception raised are the same for parameters that
    differ in their options only.  A value outside the options is
    substituted like any other. *)
Theorem build_ignores_options (values : dict) (defs defs' : list ParamDef.t)
  (cmd : string) :
  Forall2 same_but_options defs defs' ->
  routes.build defs values cmd = routes.build defs' values cmd.
Proof.
  intros H. unfold routes.build.
  rewrite (substitute_same_but_options values defs defs' H). reflexivity.
Qed.

Lemma build_ignores_options_witness :
  Forall2 same_but_options
          [ParamDef.mk "MODE" OPTIONS ["AUTO"; "MANUAL"] ""]
          [ParamDef.mk "MODE" OPTIONS ["fast"] ""]
  /\ routes.build [ParamDef.mk "MODE" OPTIONS ["AUTO"; "MANUAL"] ""]
                  [("MODE", "fast")] "CONF {MODE}"
     = routes.build [ParamDef.mk "MODE" OPTIONS ["fast"] ""]
                    [("MODE", "fast")] "CONF {MODE}".
Proof.
  assert (H : Forall2 same_but_options
                      [ParamDef.mk "MODE" OPTIONS ["AUTO"; "MANUAL"] ""]
                      [ParamDef.mk "MODE" OPTIONS ["fast"] ""])
    by (repeat constructor).
  split; [exact H |].
  apply (build_ignores_options [("MODE", "fast")] _ _ "CONF {MODE}" H).
Defined.

(** A value that is none of the options goes into the command. *)
Example build_outside_options :
  routes.build [ParamDef.mk "MODE" OPTIONS ["AUTO"; "MANUAL"] ""]
               [("MODE", "fast")] "CONF {MODE}"
  = Ok (routes.Command "CONF fast").
Proof. reflexivity. Qed.

Lemma chars_no_placeholder (s : string) :
  existsb Re.is_placeholder (Re.chars s) = false.
Proof. induction s as [| c s IH]; simpl; auto. Qed.

Lemma scan_over (v s : string) :
  char_in "{" v = false -> Re.scan None (v ++ s) = (Re.chars v ++ Re.scan None s)%list.
Proof.
  induction v as [| c v IH]; cbn [append char_in Re.chars]; intros H; [reflexivity |].
  apply orb_false_iff in H. destruct H as [Hc Hv].
  cbn [Re.scan]. rewrite Hc, (IH Hv). reflexivity.
Qed.

Lemma scan_unclosed (s : string) :
  char_in "}" s = false ->
  forall acc, Re.scan (Some acc) s = Re.chars (String "{" (acc ++ s)).
Proof.
  induction s as [| c s IH]; cbn [char_in]; intros H acc.
  - rewrite append_empty. reflexivity.
  - apply orb_false_iff in H. destruct H as [Hc Hs].
    cbn [Re.scan]. rewrite Hc, (IH Hs), append_assoc. reflexivity.
Qed.

(** Filling the placeholders with a text that has no opening brace
    leaves no placeholder. *)
Lemma filled_no_placeholder (v s : string) :
  char_in "{" v = false ->
  forall open,
    match open with Some acc => char_in "}" acc = false | None => True end ->
    existsb Re.is_placeholder (Re.scan None (fill_with v (Re.scan open s))) = false.
Proof.
  intros Hv. induction s as [| c s IH]; intros [acc |] H; cbn [Re.scan].
  - change (fill_with v (Re.chars (String "{" acc)))
      with (String "{" (fill_with v (Re.chars acc))).
    rewrite (fill_with_nothing v _ (chars_no_placeholder acc)), text_chars.
    cbn [Re.scan]. rewrite Ascii.eqb_refl.
    rewrite (scan_unclosed acc H). apply chars_no_placeholder.
  - reflexivity.
  - destruct (Ascii.eqb c "}") eqn:E.
    + destruct acc as [| a acc].
      * cbn [fill_with Re.scan]. rewrite Ascii.eqb_refl.
        change (Ascii.eqb "}" "}") with true. cbn [existsb Re.is_placeholder orb].
        apply IH. exact I.
      * cbn [fill_with]. rewrite (scan_over _ _ Hv), existsb_app.
        rewrite chars_no_placeholder. apply IH. exact I.
    + apply IH. rewrite char_in_app, H. simpl. rewrite E. reflexivity.
  - destruct (Ascii.eqb c "{") eqn:E.
    + apply IH. reflexivity.
    + cbn [fill_with Re.scan]. rewrite E. cbn [existsb Re.is_placeholder orb].
      apply IH. exact I.
Qed.

(** X23. The command built for a command with parameters holds no
    placeholder, provided the first value of the map, trimmed, holds no
    backslash and no opening brace: whatever the named substitutions
    leave is filled by the fallback, and the filling brings no
    placeholder back. *)
Theorem build_no_placeholder (param_defs : list ParamDef.t) (values : dict)
  (cmd cmd_to_send : string) :
  param_defs <> [] ->
  (forall k first rest,
      values = (k, first) :: rest ->
      char_in "\" (strip first) = false /\ char_in "{" (strip first) = false) ->
  routes.build param_defs values cmd = Ok (routes.Command cmd_to_send) ->
  Re.search_placeholder cmd_to_send = false.
Proof.
  intros Hne Hfirst. unfold routes.build.
  destruct (routes.substitute param_defs values cmd) as [[p | w] | e] eqn:S;
    cbn [bind]; try discriminate.
  destruct param_defs as [| d defs]; [congruence |].
  pose proof (substitute_needs_values d defs values cmd w S) as Hv.
  destruct values as [| [k first] rest]; [congruence |].
  destruct (Hfirst k first rest eq_refl) as [Hb Ho].
  unfold routes.fill_leftover.
  destruct (Re.search_placeholder w) eqn:P; cbn [bind].
  - unfold Re.sub_placeholders. rewrite (parse_template_plain _ Hb). cbn [bind].
    rewrite sub_tokens_plain. intros H. inversion H; subst.
    apply (filled_no_placeholder _ w Ho None I).
  - intros H. inversion H; subst. exact P.
Qed.

Lemma build_no_placeholder_witness :
  routes.build [ParamDef.mk "range" FREE [] ""] [("range", " 10 "); ("unit", "V")]
               "SENS:RANGE {value} {unit}}"
  = Ok (routes.Command "SENS:RANGE 10 10}")
  /\ Re.search_placeholder "SENS:RANGE 10 10}" = false.
Proof.
  split; [reflexivity |].
  apply (build_no_placeholder
           [ParamDef.mk "range" FREE [] ""] [("range", " 10 "); ("unit", "V")]
           "SENS:RANGE {value} {unit}}" "SENS:RANGE 10 10}").
  - discriminate.
  - intros k first rest E. inversion E. split; reflexivity.
  - reflexivity.
Defined.

(** With an opening brace in the first value a placeholder can come
    back. *)
Example build_brings_placeholder :
  routes.build [ParamDef.mk "a" FREE [] ""] [("a", "{")] "SET {a} {b}x}"
  = Ok (routes.Command "SET {x}")
  /\ Re.search_placeholder "SET {x}" = true.
Proof. split; reflexivity. Qed.

(** *** Aliases and models without commands *)

Lemma defs_get_unknown (SCPI_DEFS : catalog) (model : option string) :
  routes.in_models SCPI_DEFS model = false -> routes.defs_get SCPI_DEFS model = [].
Proof.
  destruct model as [m |]; [| destruct SCPI_DEFS as [| [k v] r]; reflexivity].
  induction SCPI_DEFS as [| [k v] defs IH]; simpl; [reflexivity |].
  destruct (String.eqb k m); simpl; [discriminate | exact IH].
Qed.

(** X24. An instrument that /api/scan and /api/set_alias report without
    SCPI definitions ("has_scpi_def" false) has no command: for its alias
    /api/commands_for_alias lists none, and /api/run refuses every command
    name with status 404, naming the command and the model, and touches
    nothing. *)
Theorem no_scpi_def_no_command (SCPI_DEFS : catalog) (alias : string) (s : server)
  (inst : Instrument.t) :
  strip alias <> EmptyString ->
  routes.find_alias (mgr s) (strip alias) = Some inst ->
  routes.d_has_scpi_def (routes._instrument_to_dict SCPI_DEFS inst) = false ->
  routes.api_commands_for_alias SCPI_DEFS alias s
  = routes.Commands (Instrument.model inst) []
  /\ forall name values value,
       strip name <> EmptyString ->
       routes.api_run SCPI_DEFS (mkRun alias name values value) s
       = (Refused 404 (CommandNotFound (strip name) (Instrument.model inst)), s).
Proof.
  intros Ha Fa Hd. cbn [routes._instrument_to_dict routes.d_has_scpi_def] in Hd.
  apply defs_get_unknown in Hd. split.
  - unfold routes.api_commands_for_alias.
    rewrite (proj2 (truthy_true _) Ha), Fa. cbn [negb]. rewrite Hd. reflexivity.
  - intros name values value Hn. unfold routes.api_run.
    cbn [run_alias run_name run_values run_value].
    rewrite (proj2 (truthy_true _) Ha), (proj2 (truthy_true _) Hn), Fa.
    cbn [negb orb]. rewrite Hd. reflexivity.
Qed.

Lemma no_scpi_def_no_command_witness :
  strip "meter" <> EmptyString
  /\ routes.api_commands_for_alias
       bench_defs "meter"
       (mkServer [upyvisa.with_alias dmm "meter"] (wire bench))
     = routes.Commands (Some "DM3058") []
  /\ forall name values value,
       strip name <> EmptyString ->
       routes.api_run bench_defs (mkRun "meter" name values value)
                      (mkServer [upyvisa.with_alias dmm "meter"] (wire bench))
       = (Refused 404 (CommandNotFound (strip name) (Some "DM3058")),
          mkServer [upyvisa.with_alias dmm "meter"] (wire bench)).
Proof.
  assert (H : strip "meter" <> EmptyString) by (vm_compute; discriminate).
  split; [exact H |].
  apply (no_scpi_def_no_command
           bench_defs "meter" (mkServer [upyvisa.with_alias dmm "meter"] (wire bench))
           (upyvisa.with_alias dmm "meter") H);
    reflexivity.
Defined.

(** X25. An alias that no instrument answers to is an error for /api/run
    and none for /api/custom: while every alias in the collection is
    trimmed and not empty, /api/run refuses with status 404, and
    /api/custom answers "ok" with the trimmed command and an empty
    response; neither starts an exchange. *)
Theorem nobody_answers (SCPI_DEFS : catalog) (alias name cmd : string)
  (values : json_values) (value : string) (s : server) :
  tidy (mgr s) ->
  strip alias <> EmptyString -> strip name <> EmptyString -> strip cmd <> EmptyString ->
  Forall (fun i => upyvisa.answers_to (strip alias) i = false) (mgr s) ->
  routes.api_run SCPI_DEFS (mkRun alias name values value) s
  = (Refused 404 AliasNotFound, s)
  /\ routes.api_custom (mkCustom alias cmd) s = (RanCustom (strip cmd) EmptyString, s).
Proof.
  intros Ht Ha Hn Hc Hno. split.
  - unfold routes.api_run. cbn [run_alias run_name run_values run_value].
    rewrite (proj2 (truthy_true _) Ha), (proj2 (truthy_true _) Hn).
    cbn [negb orb].
    rewrite (find_alias_answering _ _ Ht Ha), (find_nobody _ _ Hno).
    reflexivity.
  - unfold routes.api_custom. cbn [custom_alias custom_cmd].
    rewrite (proj2 (truthy_true _) Ha), (proj2 (truthy_true _) Hc).
    cbn [negb orb]. unfold routes.catching, iobind, upyvisa.query.
    destruct (char_in "?" (strip cmd)).
    + rewrite (query_from_nobody _ _ _ Hno). destruct s; reflexivity.
    + rewrite (write_nobody _ _ _ Hno). destruct s; reflexivity.
Qed.

Lemma nobody_answers_witness :
  routes.api_run bench_defs (mkRun "scope" "MEASV" NoValues "") bench
  = (Refused 404 AliasNotFound, bench)
  /\ routes.api_custom (mkCustom "scope" " MEAS:VOLT? ") bench
     = (RanCustom (strip " MEAS:VOLT? ") EmptyString, bench).
Proof.
  apply (nobody_answers bench_defs "scope" "MEASV" " MEAS:VOLT? " NoValues "" bench
                        bench_tidy);
    try (vm_compute; discriminate).
  repeat constructor.
Defined.

(** *** What is listed can be run *)

Lemma found_not_404 (SCPI_DEFS : catalog) (alias : string) (s : server)
  (inst : Instrument.t) (c : ScpiCommand.t) :
  truthy (strip alias) = true ->
  routes.find_alias (mgr s) (strip alias) = Some inst ->
  In c (routes.defs_get SCPI_DEFS (Instrument.model inst)) ->
  strip (ScpiCommand.name c) = ScpiCommand.name c ->
  ScpiCommand.name c <> EmptyString ->
  forall values value err,
    fst (routes.api_run SCPI_DEFS (mkRun alias (ScpiCommand.name c) values value) s)
    <> Refused 404 err.
Proof.
  intros Ta Fa Hin Hs Hne values value err. unfold routes.api_run.
  cbn [run_alias run_name run_values run_value].
  rewrite Ta, Hs, (proj2 (truthy_true _) Hne), Fa. cbn [negb orb].
  destruct (routes.find_command _ (ScpiCommand.name c)) as [c1 |] eqn:Fc.
  - cbv zeta. destruct (routes.default_values _ _ _); cbn [fst]; try discriminate.
    destruct (routes.catching _ (wire s)) as [r w] eqn:C. cbn [fst].
    intros ->. apply run_command_inv in C.
    destruct C as [(C & _) | (C & _)]; discriminate.
  - exfalso. unfold routes.find_command in Fc.
    apply (find_none _ _ Fc) in Hin. rewrite String.eqb_refl in Hin. discriminate.
Qed.

Lemma listed_commands (SCPI_DEFS : catalog) (alias : string) (s : server)
  (model : option string) (cmds : list (ScpiCommand.t * list ParamDef.t)) :
  routes.api_commands_for_alias SCPI_DEFS alias s = routes.Commands model cmds ->
  exists inst,
    truthy (strip alias) = true
    /\ routes.find_alias (mgr s) (strip alias) = Some inst
    /\ model = Instrument.model inst
    /\ cmds = map (fun c => (c, params_of c)) (routes.defs_get SCPI_DEFS model).
Proof.
  unfold routes.api_commands_for_alias. intros H.
  destruct (truthy (strip alias)) eqn:Ta; [| discriminate].
  cbn [negb] in H.
  destruct (routes.find_alias (mgr s) (strip alias)) as [inst |] eqn:Fa; [| discriminate].
  inversion H; subst model cmds. exists inst. auto.
Qed.

(** X26. What /api/commands_for_alias lists, /api/run finds: for a listed
    command whose name is trimmed and not empty, the parameters listed
    are those parsed from its specification and template, and a request
    to run that name for the same alias is never refused with status
    404. *)
Theorem listed_command_found (SCPI_DEFS : catalog) (alias : string) (s : server)
  (model : option string) (cmds : list (ScpiCommand.t * list ParamDef.t))
  (c : ScpiCommand.t) (pd : list ParamDef.t) :
  routes.api_commands_for_alias SCPI_DEFS alias s = routes.Commands model cmds ->
  In (c, pd) cmds ->
  strip (ScpiCommand.name c) = ScpiCommand.name c ->
  ScpiCommand.name c <> EmptyString ->
  pd = params_of c
  /\ forall values value err,
       fst (routes.api_run SCPI_DEFS (mkRun alias (ScpiCommand.name c) values value) s)
       <> Refused 404 err.
Proof.
  intros H Hin Hs Hne.
  destruct (listed_commands _ _ _ _ _ H) as (inst & Ta & Fa & -> & ->).
  apply in_map_iff in Hin. destruct Hin as (c0 & E & Hin). inversion E; subst c0 pd.
  split; [reflexivity |]. apply (found_not_404 _ _ _ inst); assumption.
Qed.

Lemma listed_command_found_witness :
  routes.api_commands_for_alias bench_defs " psu " bench
  = routes.Commands (Some "E36312A")
                    (map (fun c => (c, params_of c))
                         (routes.defs_get bench_defs (Some "E36312A")))
  /\ [ParamDef.mk "V" FREE [] ""; ParamDef.mk "I" FREE [] ""]
     = params_of (ScpiCommand.mk "APPLY" "APPL {V},{I}" SET "V|I")
  /\ forall values value err,
       fst (routes.api_run bench_defs (mkRun " psu " "APPLY" values value) bench)
       <> Refused 404 err.
Proof.
  split; [reflexivity |].
  apply (listed_command_found
           bench_defs " psu " bench (Some "E36312A")
           (map (fun c => (c, params_of c))
                (routes.defs_get bench_defs (Some "E36312A")))
           (ScpiCommand.mk "APPLY" "APPL {V},{I}" SET "V|I")
           [ParamDef.mk "V" FREE [] ""; ParamDef.mk "I" FREE [] ""]).
  - reflexivity.
  - left. reflexivity.
  - reflexivity.
  - discriminate.
Defined.

Lemma defs_get_in (defs : catalog) (model : option string) (c : ScpiCommand.t) :
  In c (routes.defs_get defs model) -> exists kv, In kv defs /\ In c (snd kv).
Proof.
  destruct model as [m |]; [| destruct defs as [| [k v] r]; intros []].
  induction defs as [| [k v] defs IH]; simpl; [intros [] |].
  destruct (String.eqb k m).
  - intros H. exists (k, v). auto.
  - intros H. destruct (IH H) as (kv & Hin & Hc). eauto.
Qed.

(** X27. With the catalog that [load_scpi_definitions] makes, every
    command that /api/commands_for_alias lists for an alias can be run by
    its name for that alias: /api/run never answers such a request with
    status 404. *)
Theorem loaded_commands_run (sheets : list (string * app.DataFrame)) (alias : string)
  (s : server) (model : option string)
  (cmds : list (ScpiCommand.t * list ParamDef.t)) :
  let SCPI_DEFS := app.load_scpi_definitions sheets in
  routes.api_commands_for_alias SCPI_DEFS alias s = routes.Commands model cmds ->
  Forall (fun cp =>
            loaded_command (fst cp)
            /\ forall values value err,
                 fst (routes.api_run SCPI_DEFS
                        (mkRun alias (ScpiCommand.name (fst cp)) values value) s)
                 <> Refused 404 err)
         cmds.
Proof.
  cbv zeta. intros H.
  destruct (listed_commands _ _ _ _ _ H) as (inst & Ta & Fa & -> & ->).
  apply Forall_forall. intros [c pd] Hin.
  apply in_map_iff in Hin. destruct Hin as (c0 & E & Hin). inversion E; subst c0 pd.
  cbn [fst].
  assert (L : loaded_command c).
  { destruct (defs_get_in _ _ _ Hin) as (kv & Hkv & Hc).
    pose proof (loaded_catalog sheets) as A.
    rewrite Forall_forall in A. specialize (A kv Hkv).
    rewrite Forall_forall in A. apply A, Hc. }
  split; [exact L |].
  destruct L as (Hne & Hs & _).
  apply (found_not_404 _ _ _ inst); assumption.
Qed.

Lemma loaded_commands_run_witness :
  routes.api_commands_for_alias
    (app.load_scpi_definitions [("E36312A", bench_sheet)]) "psu" bench
  = routes.Commands (Some "E36312A")
                    (map (fun c => (c, params_of c))
                         (routes.defs_get bench_defs (Some "E36312A")))
  /\ Forall (fun cp =>
               loaded_command (fst cp)
               /\ forall values value err,
                    fst (routes.api_run
                           (app.load_scpi_definitions [("E36312A", bench_sheet)])
                           (mkRun "psu" (ScpiCommand.name (fst cp)) values value) bench)
                    <> Refused 404 err)
            (map (fun c => (c, params_of c))
                 (routes.defs_get bench_defs (Some "E36312A"))).
Proof.
  split; [reflexivity |].
  apply (loaded_commands_run [("E36312A", bench_sheet)] "psu" bench (Some "E36312A")).
  reflexivity.
Defined.

(** *** [api_set_alias] *)

(** X28. What /api/set_alias answers and leaves.  It refuses, touching
    nothing, exactly when the alias, the vendor, the model or the serial
    number is blank.  Otherwise it never touches the bus; its answer
    lists the collection as it is afterwards, one entry for each
    instrument there was; "ok" is true exactly when [set_alias] returned
    1, and then one instrument, whose vendor, model and serial number
    match the trimmed ones of the request, has the trimmed alias of the
    request and nothing else has changed; with "ok" false the collection
    is unchanged.  What [set_alias] raises is [AttributeError], is not
    caught, and leaves the server as it was. *)
Theorem api_set_alias_answer (SCPI_DEFS : catalog) (data : routes.alias_request)
  (s : server) :
  let alias := strip (routes.req_alias data) in
  let vendor := strip (routes.req_vendor data) in
  let model := strip (routes.req_model data) in
  let serial := strip (routes.req_serial data) in
  match routes.api_set_alias SCPI_DEFS data s with
  | (Ok routes.AliasRefused, s') =>
      s' = s
      /\ (alias = EmptyString \/ vendor = EmptyString
          \/ model = EmptyString \/ serial = EmptyString)
  | (Ok (routes.AliasAnswer ok instruments), s') =>
      alias <> EmptyString /\ vendor <> EmptyString
      /\ model <> EmptyString /\ serial <> EmptyString
      /\ wire s' = wire s
      /\ instruments = map (routes._instrument_to_dict SCPI_DEFS) (mgr s')
      /\ List.length instruments = List.length (mgr s)
      /\ if ok
         then exists pre i post,
                mgr s = (pre ++ i :: post)%list
                /\ mgr s' = (pre ++ upyvisa.with_alias i alias :: post)%list
                /\ upyvisa.identity_matches i vendor model serial = Ok true
         else mgr s' = mgr s
  | (Raise e, s') =>
      alias <> EmptyString /\ vendor <> EmptyString
      /\ model <> EmptyString /\ serial <> EmptyString
      /\ s' = s /\ e = AttributeError
  end.
Proof.
  cbv zeta. unfold routes.api_set_alias.
  destruct (truthy (strip (routes.req_alias data))) eqn:Ta.
  2:{ split; [reflexivity |]. left.
      destruct (strip (routes.req_alias data)); [reflexivity | discriminate]. }
  destruct (truthy (strip (routes.req_vendor data))) eqn:Tv.
  2:{ split; [reflexivity |]. right. left.
      destruct (strip (routes.req_vendor data)); [reflexivity | discriminate]. }
  destruct (truthy (strip (routes.req_model data))) eqn:Tm.
  2:{ split; [reflexivity |]. right. right. left.
      destruct (strip (routes.req_model data)); [reflexivity | discriminate]. }
  destruct (truthy (strip (routes.req_serial data))) eqn:Ts.
  2:{ split; [reflexivity |]. right. right. right.
      destruct (strip (routes.req_serial data)); [reflexivity | discriminate]. }
  cbn [negb orb].
  apply truthy_true in Ta, Tv, Tm, Ts.
  pose proof (set_alias_cases (mgr s) (strip (routes.req_alias data))
                (strip (routes.req_vendor data)) (strip (routes.req_model data))
                (strip (routes.req_serial data))) as F.
  pose proof (set_alias_raises (mgr s) (strip (routes.req_alias data))
                (strip (routes.req_vendor data)) (strip (routes.req_model data))
                (strip (routes.req_serial data))) as R.
  destruct (upyvisa.set_alias _ _ _ _ _) as [[z | e] new]; cbn [fst] in R.
  - cbn [mgr wire]. repeat (split; [assumption || reflexivity |]).
    rewrite length_map.
    destruct F as [[-> (pre & i & post & E & -> & _ & Hi)] | [-> [-> _]]].
    + split; [rewrite E, !length_app; reflexivity |].
      cbn [Z.eqb Pos.eqb]. exists pre, i, post. auto.
    + split; reflexivity.
  - subst new. repeat (split; [assumption |]).
    split; [destruct s; reflexivity |].
    destruct (proj1 (R e) eq_refl) as (pre & i & post & _ & _ & M).
    apply identity_matches_raises in M. apply M.
Qed.

(** A request on the bench: the supply is renamed, under the trimmed
    alias. *)
Example api_set_alias_bench :
  fst (routes.api_set_alias
         bench_defs (routes.mkAlias " supply " "keysight" "e36312a " "my59001234")
         bench)
  = Ok (routes.AliasAnswer
          true
          [routes.mkDict "GPIB0::5::INSTR" "DeviceKind.VISA" (Some "Keysight")
                         (Some "E36312A") (Some "MY59001234") "supply" true]).
Proof. reflexivity. Qed.

End DispatchMore.
